(** * Panopticon: event emitter, progress manager and event stores

    A shallow embedding of the TypeScript sources

    - [core/events.ts]                 (class [EventEmitter]),
    - [progress/storage.ts]            (class [ProgressStorage]),
    - [progress/manager.ts]            (class [ProgressManager]),
    - [progress/events/file_store.ts]  (class [FileEventStore]),
    - [progress/events/memory_store.ts] (class [InMemoryEventStore]),
    - [progress/events/definitions.ts] (the event factory functions),

    together with the properties that the specification states about them.

    Conventions of the embedding.

    - JavaScript objects that are shared and mutated in place (project
      objects, event objects, arrays handed to callers) live in an explicit
      heap indexed by references; a method is a function in a state and
      exception monad over that heap.
    - [number] values are exact rationals extended with [NaN] and the two
      infinities; binary64 rounding and overflow are not part of the model.
    - The types of TypeScript are erased when the program runs: an object
      has the properties of the literal that built it, and reading a
      property of [undefined] throws a [TypeError].
    - Platform services (the clock, [crypto.randomUUID],
      [String.prototype.trim], [Date] parsing, and [JSON.parse] and
      [JSON.stringify] on events) are taken as parameters, bundled in the
      classes [Platform] and [Json].
    - [async] methods are run to completion one after the other: every call
      is awaited before the next one starts. *)

From Stdlib Require Import ZArith QArith Qcanon Ascii String List Lia.
From stdpp Require Import base option gmap list strings.

(** ** core/events.ts *)

Module Emitter.

(** An [EventHandler] is a JavaScript function; [indexOf] compares handlers
    by reference, so a handler is represented by its identity. *)
Definition EventHandler := nat.

Section WithData.
(** [D] is the type of the data passed to [emit]; [W] is whatever the
    handlers act upon.  A handler body is assumed not to call back into
    the emitter and to return normally. *)
Context {D W : Type}.
Variable call : EventHandler -> D -> W -> W.

(** [private handlers: Map<string, EventHandler[]> = new Map()] *)
Record EventEmitter := mkEmitter { handlers : gmap string (list EventHandler) }.

Definition empty : EventEmitter := mkEmitter ∅.

(** [on(event, handler)]: create the entry when it is missing, then
    [push] the handler at the end of the array. *)
Definition on (event : string) (handler : EventHandler) (em : EventEmitter)
  : EventEmitter :=
  let hs1 :=
    match handlers em !! event with
    | None => <[event := []]> (handlers em)
    | Some _ => handlers em
    end in
  match hs1 !! event with
  | Some l => mkEmitter (<[event := l ++ [handler]]> hs1)
  | None => mkEmitter hs1
  end.

(** [Array.prototype.indexOf] with strict equality: the first index
    holding [h], or [None] for [-1]. *)
Fixpoint indexOf (l : list EventHandler) (h : EventHandler) : option nat :=
  match l with
  | [] => None
  | x :: l' => if Nat.eqb x h then Some 0 else S <$> indexOf l' h
  end.

(** [handlers.splice(index, 1)] *)
Definition splice1 (index : nat) (l : list EventHandler) : list EventHandler :=
  take index l ++ drop (S index) l.

(** [off(event, handler)] *)
Definition off (event : string) (handler : EventHandler) (em : EventEmitter)
  : EventEmitter :=
  match handlers em !! event with
  | None => em
  | Some l =>
      match indexOf l handler with
      | Some index => mkEmitter (<[event := splice1 index l]> (handlers em))
      | None => em
      end
  end.

(** [emit(event, data)]: the [for ... of] loop over the registered array. *)
Definition emit (event : string) (data : D) (em : EventEmitter) (w : W) : W :=
  match handlers em !! event with
  | None => w
  | Some l => fold_left (fun w' h => call h data w') l w
  end.

(** The handlers registered for an event name, in array order. *)
Definition registered (em : EventEmitter) (event : string) : list EventHandler :=
  default [] (handlers em !! event).

End WithData.

Arguments EventEmitter : clear implicits.

(** The world of invocation records: every call of a handler appends the
    pair of the handler and the data it received. *)
Definition record_call {D : Type} (h : EventHandler) (d : D)
    (log : list (EventHandler * D)) : list (EventHandler * D) :=
  log ++ [(h, d)].

(** The invocations performed by one [emit]. *)
Definition invocations {D : Type} (em : EventEmitter) (event : string) (data : D)
  : list (EventHandler * D) :=
  emit record_call event data em [].

(** Removing the first occurrence of a handler from an array. *)
Fixpoint remove_first (h : EventHandler) (l : list EventHandler) : list EventHandler :=
  match l with
  | [] => []
  | x :: l' => if Nat.eqb x h then l' else x :: remove_first h l'
  end.

End Emitter.

(** ** JavaScript values and effects shared by the rest of the development *)

Module JS.

(** *** Numbers *)

(** A JavaScript [number], without rounding: a rational, [NaN], or one of
    the two infinities.  There is a single zero.  The rounding and the
    overflow of binary64 are outside the model: what is proved of a sum or
    of a quotient is which operands it is made of and in which order, and
    how [NaN] and the infinities go through it, not that it is finite. *)
Inductive number : Type :=
| Fin (q : Qc)
| NaN
| PosInf
| NegInf.

Definition of_Z (z : Z) : number := Fin (Q2Qc (inject_Z z)).


Definition Qc_pos (q : Qc) : bool := if Qclt_le_dec 0%Qc q then true else false.
Definition Qc_neg (q : Qc) : bool := if Qclt_le_dec q 0%Qc then true else false.
Definition Qc_zero (q : Qc) : bool := if Qc_eq_dec q 0%Qc then true else false.

(** [x + y] *)
Definition add (x y : number) : number :=
  match x, y with
  | NaN, _ | _, NaN => NaN
  | Fin a, Fin b => Fin (a + b)%Qc
  | PosInf, NegInf | NegInf, PosInf => NaN
  | PosInf, _ | _, PosInf => PosInf
  | NegInf, _ | _, NegInf => NegInf
  end.

(** [-x] *)
Definition neg (x : number) : number :=
  match x with
  | Fin a => Fin (- a)%Qc
  | NaN => NaN
  | PosInf => NegInf
  | NegInf => PosInf
  end.

(** [x - y] *)
Definition sub (x y : number) : number := add x (neg y).

(** [x / y]: a zero divisor gives an infinity, or [NaN] for [0 / 0]. *)
Definition div (x y : number) : number :=
  match x, y with
  | NaN, _ | _, NaN => NaN
  | Fin a, Fin b =>
      if Qc_zero b then
        if Qc_zero a then NaN else if Qc_pos a then PosInf else NegInf
      else Fin (a / b)%Qc
  | Fin _, (PosInf | NegInf) => Fin 0%Qc
  | (PosInf | NegInf), (PosInf | NegInf) => NaN
  | PosInf, Fin b => if Qc_neg b then NegInf else PosInf
  | NegInf, Fin b => if Qc_neg b then PosInf else NegInf
  end.

(** [x > 0]; every comparison with [NaN] is false. *)
Definition gt0 (x : number) : bool :=
  match x with
  | Fin a => Qc_pos a
  | PosInf => true
  | NaN | NegInf => false
  end.

(** Truthiness of a number: [0] and [NaN] are falsy. *)
Definition truthy_number (x : number) : bool :=
  match x with
  | Fin a => negb (Qc_zero a)
  | NaN => false
  | PosInf | NegInf => true
  end.

(** Truthiness of a string: only the empty string is falsy. *)
Definition truthy_string (s : string) : bool :=
  match s with EmptyString => false | _ => true end.

(** [a || b] where [a] is an optional number ([undefined] is falsy). *)
Definition or_number (a : option number) (b : number) : number :=
  match a with
  | Some x => if truthy_number x then x else b
  | None => b
  end.

(** [a ?? b] where [a] is an optional number: only [undefined] is replaced. *)
Definition nullish_number (a : option number) (b : number) : number :=
  match a with
  | Some x => x
  | None => b
  end.

(** *** Exceptions and the state monad *)

Inductive Error : Type :=
| TypeError          (* property access on [undefined], [in] on a primitive *)
| SyntaxError        (* [JSON.parse] *)
| NotFound           (* [Deno.errors.NotFound] *)
| IOError.           (* any other error raised by a [Deno] file operation *)

Inductive Res (A : Type) : Type :=
| Ok (a : A)
| Throw (e : Error).
Arguments Ok {A} a.
Arguments Throw {A} e.

(** A method body: it reads and writes the state [S], and either returns
    a value or throws; the state reached so far survives a throw. *)
Definition M (S A : Type) : Type := S -> Res A * S.

Definition ret {S A} (a : A) : M S A := fun s => (Ok a, s).

Definition bind {S A B} (c : M S A) (k : A -> M S B) : M S B :=
  fun s =>
    match c s with
    | (Ok a, s') => k a s'
    | (Throw e, s') => (Throw e, s')
    end.

Definition throw {S A} (e : Error) : M S A := fun s => (Throw e, s).

(** [try { c } catch (error) { h error }] *)
Definition try_catch {S A} (c : M S A) (h : Error -> M S A) : M S A :=
  fun s =>
    match c s with
    | (Ok a, s') => (Ok a, s')
    | (Throw e, s') => h e s'
    end.

Definition get {S} : M S S := fun s => (Ok s, s).
Definition modify {S} (f : S -> S) : M S unit := fun s => (Ok tt, f s).

(** References into the heap of shared objects. *)
Definition loc := positive.

(** A relation between the state before and the state after that every
    run of a computation respects, whether it returns or throws. *)
Definition respects {S : Type} (R : S -> S -> Prop) {A} (c : M S A) : Prop :=
  forall s, R s (snd (c s)).

End JS.

Export JS.

Notation "'let*' x ':=' c 'in' k" := (bind c (fun x => k))
  (at level 10, x name, c at level 100, k at level 200).
Notation "c1 ;; c2" := (bind c1 (fun _ => c2))
  (at level 100, c2 at level 200, right associativity).

(** The services of the runtime that the sources call. *)
Class Platform : Type := {
  (** [new Date().toISOString()] at the [n]-th reading of the clock *)
  isoStringAt : nat -> string;
  (** [crypto.randomUUID()] at the [n]-th draw *)
  uuidAt : nat -> string;
  (** [new Date(s).getTime()]: [None] stands for the [NaN] of an invalid date *)
  parseDate : string -> option Z;
  (** [String.prototype.trim] *)
  trim : string -> string
}.

(** [new Date(s).getTime()] as a number. *)
Definition getTime `{Platform} (s : string) : number :=
  match parseDate s with
  | Some ms => of_Z ms
  | None => NaN
  end.

(** [Array.prototype.findIndex]; [None] stands for [-1]. *)
Fixpoint findIndex {A : Type} (f : A -> bool) (l : list A) : option nat :=
  match l with
  | [] => None
  | x :: l' => if f x then Some 0 else S <$> findIndex f l'
  end.

(** [Array.prototype.find] on an array of nested objects: the element
    found together with its index, which identifies the object for the
    assignments that follow. *)
Fixpoint findi {A : Type} (f : A -> bool) (l : list A) : option (nat * A) :=
  match l with
  | [] => None
  | x :: l' =>
      if f x then Some (0, x)
      else match findi f l' with
           | Some (i, y) => Some (S i, y)
           | None => None
           end
  end.

(** ** progress/types.ts, progress/storage.ts and progress/manager.ts *)

Module Progress.

(** *** progress/types.ts *)

Inductive Status : Type := NOT_STARTED | IN_PROGRESS | COMPLETED | BLOCKED.

Definition Status_eqb (a b : Status) : bool :=
  match a, b with
  | NOT_STARTED, NOT_STARTED | IN_PROGRESS, IN_PROGRESS
  | COMPLETED, COMPLETED | BLOCKED, BLOCKED => true
  | _, _ => false
  end.

Inductive TaskPriority : Type := MUST | ENHANCE.

Record Task : Type := mkTask {
  taskId : string;
  taskTitle : string;
  taskDescription : option string;
  status : Status;
  priority : TaskPriority;
  estimatedPoints : number;
  actualPoints : option number;
  startTime : option string;
  endTime : option string
}.

(** The field [dependencyMilestone], which none of the methods below reads
    or writes, is left out. *)
Record Milestone : Type := mkMilestone {
  milestoneId : string;
  milestoneStatus : Status;
  milestoneTitle : string;
  milestoneDescription : option string;
  dueDate : option string;
  completedDate : option string;
  tasks : list Task
}.

(** A project object.  [milestones] is [None] on an object that has no
    such property: the [ProjectBase] literals built by [ProgressStorage]
    carry the six other fields only. *)
Record Project : Type := mkProject {
  projectId : string;
  projectStatus : Status;
  projectTitle : string;
  projectDescription : option string;
  createdAt : string;
  updatedAt : string;
  milestones : option (list Milestone)
}.

Record Statistics : Type := mkStatistics {
  totalTasks : Z;
  completedTasks : Z;
  totalPoints : number;
  earnedPoints : number;
  averagePointsPerHour : number
}.

(** [projects] is an array of references to project objects. *)
Record ProgressData : Type := mkProgressData {
  projects : list loc;
  projectIds : list string;
  statistics : Statistics
}.

Inductive ProgressEventType : Type :=
| TASK_CREATED | TASK_UPDATED | TASK_DELETED | TASK_STARTED | TASK_COMPLETED
| MILESTONE_CREATED | MILESTONE_UPDATED | MILESTONE_DELETED | MILESTONE_COMPLETED
| PROJECT_CREATED | PROJECT_UPDATED | PROJECT_DELETED
| PROGRESS_UPDATED.

(** The string value of each member of the enumeration. *)
Definition eventName (t : ProgressEventType) : string :=
  match t with
  | TASK_CREATED => "progress:task_created"
  | TASK_UPDATED => "progress:task_updated"
  | TASK_DELETED => "progress:task_deleted"
  | TASK_STARTED => "progress:task_started"
  | TASK_COMPLETED => "progress:task_completed"
  | MILESTONE_CREATED => "progress:milestone_created"
  | MILESTONE_UPDATED => "progress:milestone_updated"
  | MILESTONE_DELETED => "progress:milestone_deleted"
  | MILESTONE_COMPLETED => "progress:milestone_completed"
  | PROJECT_CREATED => "progress:project_created"
  | PROJECT_UPDATED => "progress:project_updated"
  | PROJECT_DELETED => "progress:project_deleted"
  | PROGRESS_UPDATED => "progress:updated"
  end%string.

(** The object passed to the handlers, as they see it when they are
    called. *)
Inductive ProgressEventData : Type :=
| TaskData (type : ProgressEventType) (task : Task) (pid : string)
| MilestoneData (type : ProgressEventType) (milestone : Milestone) (pid : string)
| ProjectData (type : ProgressEventType) (project : Project)
| ProgressUpdatedData (type : ProgressEventType) (progressData : ProgressData).

(** Field assignments. *)
Definition set_status (s : Status) (t : Task) : Task :=
  mkTask (taskId t) (taskTitle t) (taskDescription t) s (priority t)
    (estimatedPoints t) (actualPoints t) (startTime t) (endTime t).
Definition set_startTime (v : string) (t : Task) : Task :=
  mkTask (taskId t) (taskTitle t) (taskDescription t) (status t) (priority t)
    (estimatedPoints t) (actualPoints t) (Some v) (endTime t).
Definition set_endTime (v : string) (t : Task) : Task :=
  mkTask (taskId t) (taskTitle t) (taskDescription t) (status t) (priority t)
    (estimatedPoints t) (actualPoints t) (startTime t) (Some v).
Definition set_actualPoints (v : number) (t : Task) : Task :=
  mkTask (taskId t) (taskTitle t) (taskDescription t) (status t) (priority t)
    (estimatedPoints t) (Some v) (startTime t) (endTime t).

Definition set_milestoneStatus (s : Status) (m : Milestone) : Milestone :=
  mkMilestone (milestoneId m) s (milestoneTitle m) (milestoneDescription m)
    (dueDate m) (completedDate m) (tasks m).
Definition set_completedDate (v : string) (m : Milestone) : Milestone :=
  mkMilestone (milestoneId m) (milestoneStatus m) (milestoneTitle m)
    (milestoneDescription m) (dueDate m) (Some v) (tasks m).
Definition set_tasks (ts : list Task) (m : Milestone) : Milestone :=
  mkMilestone (milestoneId m) (milestoneStatus m) (milestoneTitle m)
    (milestoneDescription m) (dueDate m) (completedDate m) ts.

Definition set_projectStatus (s : Status) (p : Project) : Project :=
  mkProject (projectId p) s (projectTitle p) (projectDescription p)
    (createdAt p) (updatedAt p) (milestones p).
Definition set_updatedAt (v : string) (p : Project) : Project :=
  mkProject (projectId p) (projectStatus p) (projectTitle p)
    (projectDescription p) (createdAt p) v (milestones p).
Definition set_milestones (ms : option (list Milestone)) (p : Project) : Project :=
  mkProject (projectId p) (projectStatus p) (projectTitle p)
    (projectDescription p) (createdAt p) (updatedAt p) ms.

(** *** progress/storage.ts *)

(** The fields of a [ProgressStorage] instance.  [pointsPerHour] is what
    [this.config.get("progress").pointsPerHour] reads. *)
Record ProgressStorage : Type := mkStorage {
  pointsPerHour : number;
  progressData : option ProgressData;
  projectMap : gmap string loc;
  milestoneMap : gmap string Milestone;
  taskMap : gmap string Task
}.

Inductive LogLine : Type :=
| ProjectNotFound (pid : string)
| MilestoneNotFound (mid : string)
| TaskNotFound (tid : string).

(** Everything a [ProgressManager] can reach: the heap of project objects,
    its storage, its emitter with the record of handler invocations, the
    clock and the console. *)
Record World : Type := mkWorld {
  heap : gmap loc Project;
  storage : ProgressStorage;
  events : Emitter.EventEmitter;
  invoked : list (Emitter.EventHandler * ProgressEventData);
  clock : nat;
  console : list LogLine
}.

Definition with_heap (f : gmap loc Project -> gmap loc Project) (w : World) : World :=
  mkWorld (f (heap w)) (storage w) (events w) (invoked w) (clock w) (console w).
Definition with_storage (f : ProgressStorage -> ProgressStorage) (w : World) : World :=
  mkWorld (heap w) (f (storage w)) (events w) (invoked w) (clock w) (console w).
Definition with_invoked
    (f : list (Emitter.EventHandler * ProgressEventData) ->
         list (Emitter.EventHandler * ProgressEventData)) (w : World) : World :=
  mkWorld (heap w) (storage w) (events w) (f (invoked w)) (clock w) (console w).
Definition with_clock (f : nat -> nat) (w : World) : World :=
  mkWorld (heap w) (storage w) (events w) (invoked w) (f (clock w)) (console w).
Definition with_console (f : list LogLine -> list LogLine) (w : World) : World :=
  mkWorld (heap w) (storage w) (events w) (invoked w) (clock w) (f (console w)).

Definition with_progressData (pd : option ProgressData) (st : ProgressStorage)
  : ProgressStorage :=
  mkStorage (pointsPerHour st) pd (projectMap st) (milestoneMap st) (taskMap st).
Definition with_projectMap (f : gmap string loc -> gmap string loc)
    (st : ProgressStorage) : ProgressStorage :=
  mkStorage (pointsPerHour st) (progressData st) (f (projectMap st))
    (milestoneMap st) (taskMap st).

Definition with_projects (ps : list loc) (pd : ProgressData) : ProgressData :=
  mkProgressData ps (projectIds pd) (statistics pd).
Definition with_statistics (f : Statistics -> Statistics) (pd : ProgressData)
  : ProgressData :=
  mkProgressData (projects pd) (projectIds pd) (f (statistics pd)).

Section WithPlatform.
Context `{Platform}.

(** [ProgressStorage.getCurrentISOString()] *)
Definition getCurrentISOString : M World string :=
  fun w => (Ok (isoStringAt (clock w)), with_clock S w).

(** [console.error] *)
Definition console_error (l : LogLine) : M World unit :=
  modify (with_console (fun c => c ++ [l])).

(** Reading the object behind a reference.  A reference held by the
    program always designates an object; the error case is never
    reached from a well-formed heap. *)
Definition deref (l : loc) : M World Project :=
  fun w =>
    match heap w !! l with
    | Some p => (Ok p, w)
    | None => (Throw TypeError, w)
    end.

(** A new object. *)
Definition alloc (p : Project) : M World loc :=
  fun w =>
    let l := fresh (dom (heap w)) in
    (Ok l, with_heap (insert l p) w).

(** [private createEmptyProgressData()] *)
Definition createEmptyProgressData (st : ProgressStorage) : ProgressData :=
  mkProgressData [] []
    (mkStatistics 0 0 (of_Z 0) (of_Z 0) (pointsPerHour st)).

(** [private initializeMaps()]: the three maps are cleared; the loop
    that follows looks every project id up in [projectMap], which was
    just cleared, so its body never runs. *)
Definition initializeMaps (st : ProgressStorage) : ProgressStorage :=
  mkStorage (pointsPerHour st) (progressData st) ∅ ∅ ∅.

(** [getProgressData()] *)
Definition getProgressData : M World ProgressData :=
  fun w =>
    match progressData (storage w) with
    | Some pd => (Ok pd, w)
    | None =>
        let pd := createEmptyProgressData (storage w) in
        (Ok pd,
         with_storage (fun st => initializeMaps (with_progressData (Some pd) st)) w)
    end.

(** [setProgressData(progressData)] *)
Definition setProgressData (pd : ProgressData) : M World unit :=
  modify (with_storage (fun st => initializeMaps (with_progressData (Some pd) st))).

(** [save()] writes the JSON file and swallows every error; the manager
    does not await it.  It neither reads nor writes anything else. *)
Definition save : M World unit := ret tt.

(** [p.projectId === projectId] on the object behind a reference. *)
Definition has_projectId (h : gmap loc Project) (pid : string) (l : loc) : bool :=
  match h !! l with
  | Some p => String.eqb (projectId p) pid
  | None => false
  end.

(** The [ProjectBase] literal of [addProject] and [updateProject]. *)
Definition projectBase (p : Project) : Project :=
  mkProject (projectId p) (projectStatus p) (projectTitle p)
    (projectDescription p) (createdAt p) (updatedAt p) None.

(** [updateProject(project)] *)
Definition updateProject (l : loc) : M World unit :=
  let* w := get in
  match progressData (storage w) with
  | None => ret tt
  | Some pd =>
      let* project := deref l in
      modify (with_storage (with_projectMap (insert (projectId project) l))) ;;
      match findIndex (has_projectId (heap w) (projectId project)) (projects pd) with
      | Some index =>
          let* base := alloc (projectBase project) in
          modify (with_storage (fun st =>
            match progressData st with
            | Some pd' =>
                with_progressData
                  (Some (with_projects (<[index := base]> (projects pd')) pd')) st
            | None => st
            end))
      | None => ret tt
      end
  end.

(** *** progress/manager.ts *)

(** Assignments to the fields of the objects nested in a project object:
    the milestone at index [j] of [project.milestones] and the task at
    index [k] of its [tasks]. *)
Definition modify_project (l : loc) (f : Project -> Project) : M World unit :=
  modify (with_heap (alter f l)).

Definition modify_milestone (l : loc) (j : nat) (f : Milestone -> Milestone)
  : M World unit :=
  modify_project l (fun p => set_milestones (alter f j <$> milestones p) p).

Definition modify_task (l : loc) (j k : nat) (f : Task -> Task) : M World unit :=
  modify_milestone l j (fun m => set_tasks (alter f k (tasks m)) m).

(** The present value of a nested object. *)
Definition milestone_at (p : Project) (j : nat) : option Milestone :=
  match milestones p with
  | Some ms => ms !! j
  | None => None
  end.

Definition task_at (p : Project) (j k : nat) : option Task :=
  match milestone_at p j with
  | Some m => tasks m !! k
  | None => None
  end.

Definition read_milestone (l : loc) (j : nat) : M World Milestone :=
  let* p := deref l in
  match milestone_at p j with
  | Some m => ret m
  | None => throw TypeError
  end.

Definition read_task (l : loc) (j k : nat) : M World Task :=
  let* p := deref l in
  match task_at p j k with
  | Some t => ret t
  | None => throw TypeError
  end.

(** [this.events.emit(type, data)] *)
Definition emitM (type : ProgressEventType) (data : ProgressEventData)
  : M World unit :=
  modify (fun w =>
    with_invoked
      (Emitter.emit Emitter.record_call (eventName type) data (events w)) w).

Definition is_status (s : Status) (t : Task) : bool := Status_eqb (status t) s.
Definition is_milestoneStatus (s : Status) (m : Milestone) : bool :=
  Status_eqb (milestoneStatus m) s.
Definition has_milestoneId (mid : string) (m : Milestone) : bool :=
  String.eqb (milestoneId m) mid.
Definition has_taskId (tid : string) (t : Task) : bool :=
  String.eqb (taskId t) tid.

(** [private updateProjectStatus(projectId)]; the value returned is the
    reference to the project object, or [None] for [null]. *)
Definition updateProjectStatus (pid : string) : M World (option loc) :=
  let* pd := getProgressData in
  let* w := get in
  match List.find (has_projectId (heap w) pid) (projects pd) with
  | None => ret None
  | Some l =>
      let* project := deref l in
      match milestones project with
      | None => throw TypeError
      | Some ms =>
          if Nat.eqb (length ms) 0 then
            modify_project l (set_projectStatus NOT_STARTED) ;;
            ret (Some l)
          else
            (if forallb (is_milestoneStatus COMPLETED) ms then
               modify_project l (set_projectStatus COMPLETED)
             else if existsb (is_milestoneStatus IN_PROGRESS) ms then
               modify_project l (set_projectStatus IN_PROGRESS)
             else if existsb (is_milestoneStatus BLOCKED) ms then
               modify_project l (set_projectStatus BLOCKED)
             else
               modify_project l (set_projectStatus NOT_STARTED)) ;;
            let* now := getCurrentISOString in
            modify_project l (set_updatedAt now) ;;
            updateProject l ;;
            save ;;
            let* project' := deref l in
            emitM PROJECT_UPDATED (ProjectData PROJECT_UPDATED project') ;;
            ret (Some l)
      end
  end.

(** [private updateMilestoneStatus(projectId, milestoneId)]; the value
    returned is the milestone object as it is on return. *)
Definition updateMilestoneStatus (pid mid : string) : M World (option Milestone) :=
  let* pd := getProgressData in
  let* w := get in
  match List.find (has_projectId (heap w) pid) (projects pd) with
  | None => ret None
  | Some l =>
      let* project := deref l in
      match milestones project with
      | None => throw TypeError
      | Some ms =>
          match findi (has_milestoneId mid) ms with
          | None => ret None
          | Some (j, milestone) =>
              if Nat.eqb (length (tasks milestone)) 0 then
                modify_milestone l j (set_milestoneStatus NOT_STARTED) ;;
                let* m := read_milestone l j in
                ret (Some m)
              else
                (if forallb (is_status COMPLETED) (tasks milestone) then
                   modify_milestone l j (set_milestoneStatus COMPLETED) ;;
                   let* now := getCurrentISOString in
                   modify_milestone l j (set_completedDate now) ;;
                   let* m := read_milestone l j in
                   emitM MILESTONE_COMPLETED (MilestoneData MILESTONE_COMPLETED m pid)
                 else if existsb (is_status IN_PROGRESS) (tasks milestone) then
                   modify_milestone l j (set_milestoneStatus IN_PROGRESS)
                 else if existsb (is_status BLOCKED) (tasks milestone) then
                   modify_milestone l j (set_milestoneStatus BLOCKED)
                 else
                   modify_milestone l j (set_milestoneStatus NOT_STARTED)) ;;
                updateProject l ;;
                save ;;
                let* m := read_milestone l j in
                emitM MILESTONE_UPDATED (MilestoneData MILESTONE_UPDATED m pid) ;;
                updateProjectStatus pid ;;
                let* m' := read_milestone l j in
                ret (Some m')
          end
      end
  end.

(** [updateTaskStatus(projectId, milestoneId, taskId, status)]; the value
    returned is the task object as it is on return. *)
Definition updateTaskStatus (pid mid tid : string) (new_status : Status)
  : M World (option Task) :=
  let* pd := getProgressData in
  let* w := get in
  match List.find (has_projectId (heap w) pid) (projects pd) with
  | None => console_error (ProjectNotFound pid) ;; ret None
  | Some l =>
      let* project := deref l in
      match milestones project with
      | None => throw TypeError
      | Some ms =>
          match findi (has_milestoneId mid) ms with
          | None => console_error (MilestoneNotFound mid) ;; ret None
          | Some (j, milestone) =>
              match findi (has_taskId tid) (tasks milestone) with
              | None => console_error (TaskNotFound tid) ;; ret None
              | Some (k, task) =>
                  let oldStatus := status task in
                  modify_task l j k (set_status new_status) ;;
                  (if Status_eqb oldStatus NOT_STARTED
                      && Status_eqb new_status IN_PROGRESS then
                     let* now := getCurrentISOString in
                     modify_task l j k (set_startTime now)
                   else ret tt) ;;
                  (if Status_eqb new_status COMPLETED then
                     let* now := getCurrentISOString in
                     modify_task l j k (set_endTime now) ;;
                     modify_task l j k
                       (fun t => set_actualPoints (estimatedPoints t) t)
                   else ret tt) ;;
                  let* now := getCurrentISOString in
                  modify_project l (set_updatedAt now) ;;
                  updateProject l ;;
                  save ;;
                  let* t := read_task l j k in
                  (if Status_eqb new_status IN_PROGRESS then
                     emitM TASK_STARTED (TaskData TASK_STARTED t pid)
                   else if Status_eqb new_status COMPLETED then
                     emitM TASK_COMPLETED (TaskData TASK_COMPLETED t pid)
                   else
                     emitM TASK_UPDATED (TaskData TASK_UPDATED t pid)) ;;
                  updateMilestoneStatus pid mid ;;
                  let* t' := read_task l j k in
                  ret (Some t')
              end
          end
      end
  end.

(** A [for ... of] loop whose body may throw. *)
Fixpoint for_each {A B : Type} (l : list A) (body : A -> B -> M World B) (acc : B)
  : M World B :=
  match l with
  | [] => ret acc
  | x :: l' => let* acc' := body x acc in for_each l' body acc'
  end.

(** The three nested loops of [updateStatistics] over the projects, their
    milestones and their tasks; [step] is the body of the innermost
    loop, acting on the local variables [acc].  Iterating over the
    [milestones] of an object that has none throws. *)
Definition for_tasks {B : Type} (ps : list loc) (step : B -> Task -> B) (acc : B)
  : M World B :=
  for_each ps
    (fun l acc1 =>
       let* project := deref l in
       match milestones project with
       | None => throw TypeError
       | Some ms =>
           ret (fold_left (fun acc2 m => fold_left step (tasks m) acc2) ms acc1)
       end)
    acc.

(** The local variables [totalTasks], [completedTasks], [totalPoints] and
    [earnedPoints]. *)
Record Counters : Type := mkCounters {
  c_totalTasks : Z;
  c_completedTasks : Z;
  c_totalPoints : number;
  c_earnedPoints : number
}.

(** Body of the first loop. *)
Definition count_task (c : Counters) (task : Task) : Counters :=
  let totalTasks' := (c_totalTasks c + 1)%Z in
  let totalPoints' := add (c_totalPoints c) (estimatedPoints task) in
  if Status_eqb (status task) COMPLETED then
    mkCounters totalTasks' (c_completedTasks c + 1)%Z totalPoints'
      (add (c_earnedPoints c)
           (or_number (actualPoints task) (estimatedPoints task)))
  else
    mkCounters totalTasks' (c_completedTasks c) totalPoints' (c_earnedPoints c).

(** [task.startTime && task.endTime] *)
Definition truthy_time (t : option string) : bool :=
  match t with
  | Some s => truthy_string s
  | None => false
  end.

(** Body of the second loop, on the local variable [totalHours]. *)
Definition add_hours (totalHours : number) (task : Task) : number :=
  if Status_eqb (status task) COMPLETED
     && truthy_time (startTime task) && truthy_time (endTime task) then
    let hours :=
      div (sub (getTime (default EmptyString (endTime task)))
               (getTime (default EmptyString (startTime task))))
          (of_Z (1000 * 60 * 60)) in
    add totalHours hours
  else totalHours.

(** Assignments to the fields of [progressData.statistics]. *)
Definition modify_statistics (f : Statistics -> Statistics) : M World unit :=
  modify (with_storage (fun st =>
    with_progressData (with_statistics f <$> progressData st) st)).

Definition set_counters (c : Counters) (s : Statistics) : Statistics :=
  mkStatistics (c_totalTasks c) (c_completedTasks c) (c_totalPoints c)
    (c_earnedPoints c) (averagePointsPerHour s).

Definition set_averagePointsPerHour (v : number) (s : Statistics) : Statistics :=
  mkStatistics (totalTasks s) (completedTasks s) (totalPoints s)
    (earnedPoints s) v.

(** [updateStatistics()].  The local [progressData] is a reference to the
    object held by the storage, so the object handed to
    [setProgressData] and to the handlers is that object as it is then. *)
Definition updateStatistics : M World unit :=
  let* pd := getProgressData in
  let* c := for_tasks (projects pd) count_task
              (mkCounters 0 0 (of_Z 0) (of_Z 0)) in
  modify_statistics (set_counters c) ;;
  (if (c_completedTasks c >? 0)%Z then
     let* totalHours := for_tasks (projects pd) add_hours (of_Z 0) in
     if gt0 totalHours then
       modify_statistics
         (set_averagePointsPerHour (div (c_earnedPoints c) totalHours))
     else ret tt
   else ret tt) ;;
  let* pd' := getProgressData in
  setProgressData pd' ;;
  save ;;
  let* pd'' := getProgressData in
  emitM PROGRESS_UPDATED (ProgressUpdatedData PROGRESS_UPDATED pd'').

End WithPlatform.

End Progress.

(** ** progress/types/events.ts, progress/events/definitions.ts,
       progress/events/file_store.ts and progress/events/memory_store.ts *)

Module Store.

(** *** Event objects *)

(** A JavaScript value as it occurs in the payload of an event. *)
#[local] Unset Elimination Schemes.
Inductive jsval : Type :=
| JUndefined
| JNull
| JBool (b : bool)
| JNum (n : number)
| JStr (s : string)
| JArr (items : list jsval)
| JObj (fields : list (string * jsval)).
#[local] Set Elimination Schemes.

(** The fields of the interface [Event], and the payload that each of the
    event interfaces adds.  [type] holds the string value of the member of
    [EventType]. *)
Record ProgressEvent : Type := mkEvent {
  id : string;
  type : string;
  timestamp : string;
  version : Z;
  payload : jsval
}.

Inductive EventType : Type :=
| PROJECT_CREATED | PROJECT_UPDATED | PROJECT_DELETED | PROJECT_STATUS_CHANGED
| MILESTONE_CREATED | MILESTONE_UPDATED | MILESTONE_DELETED
| MILESTONE_STATUS_CHANGED | MILESTONE_ADDED_TO_PROJECT
| MILESTONE_REMOVED_FROM_PROJECT | MILESTONE_DEPENDENCY_ADDED
| MILESTONE_DEPENDENCY_REMOVED
| TASK_CREATED | TASK_UPDATED | TASK_DELETED | TASK_STATUS_CHANGED
| TASK_ADDED_TO_MILESTONE | TASK_REMOVED_FROM_MILESTONE
| TASK_DEPENDENCY_ADDED | TASK_DEPENDENCY_REMOVED
| TASK_STARTED | TASK_COMPLETED | TASK_BLOCKED | TASK_UNBLOCKED
| TASK_TIME_LOGGED.

Definition eventTypeName (t : EventType) : string :=
  match t with
  | PROJECT_CREATED => "project_created"
  | PROJECT_UPDATED => "project_updated"
  | PROJECT_DELETED => "project_deleted"
  | PROJECT_STATUS_CHANGED => "project_status_changed"
  | MILESTONE_CREATED => "milestone_created"
  | MILESTONE_UPDATED => "milestone_updated"
  | MILESTONE_DELETED => "milestone_deleted"
  | MILESTONE_STATUS_CHANGED => "milestone_status_changed"
  | MILESTONE_ADDED_TO_PROJECT => "milestone_added_to_project"
  | MILESTONE_REMOVED_FROM_PROJECT => "milestone_removed_from_project"
  | MILESTONE_DEPENDENCY_ADDED => "milestone_dependency_added"
  | MILESTONE_DEPENDENCY_REMOVED => "milestone_dependency_removed"
  | TASK_CREATED => "task_created"
  | TASK_UPDATED => "task_updated"
  | TASK_DELETED => "task_deleted"
  | TASK_STATUS_CHANGED => "task_status_changed"
  | TASK_ADDED_TO_MILESTONE => "task_added_to_milestone"
  | TASK_REMOVED_FROM_MILESTONE => "task_removed_from_milestone"
  | TASK_DEPENDENCY_ADDED => "task_dependency_added"
  | TASK_DEPENDENCY_REMOVED => "task_dependency_removed"
  | TASK_STARTED => "task_started"
  | TASK_COMPLETED => "task_completed"
  | TASK_BLOCKED => "task_blocked"
  | TASK_UNBLOCKED => "task_unblocked"
  | TASK_TIME_LOGGED => "task_time_logged"
  end%string.

(** Truthiness. *)
Definition truthy (v : jsval) : bool :=
  match v with
  | JUndefined | JNull => false
  | JBool b => b
  | JNum n => truthy_number n
  | JStr s => truthy_string s
  | JArr _ | JObj _ => true
  end.

Fixpoint assoc (k : string) (fields : list (string * jsval)) : option jsval :=
  match fields with
  | [] => None
  | (k', v) :: fields' => if String.eqb k' k then Some v else assoc k fields'
  end.

(** [k in v] for one of the property names that the stores test: it
    throws on a primitive, and an array has no such property. *)
Definition has_property (k : string) (v : jsval) : Res bool :=
  match v with
  | JObj fields => Ok (match assoc k fields with Some _ => true | None => false end)
  | JArr _ => Ok false
  | _ => Throw TypeError
  end.

(** [v.k] for one of those property names, on a value that is neither
    [undefined] nor [null]. *)
Definition get_property (k : string) (v : jsval) : jsval :=
  match v with
  | JObj fields => default JUndefined (assoc k fields)
  | _ => JUndefined
  end.

(** [v === s] for a string [s]. *)
Definition strict_eq_string (v : jsval) (s : string) : bool :=
  match v with
  | JStr x => String.eqb x s
  | _ => false
  end.

(** [a <= b] on numbers; every comparison with [NaN] is false. *)
Definition le_number (a b : number) : bool :=
  match a, b with
  | NaN, _ | _, NaN => false
  | Fin x, Fin y => if Qclt_le_dec y x then false else true
  | NegInf, _ | _, PosInf => true
  | PosInf, _ | _, NegInf => false
  end.

(** [JSON.parse] of one line of the events file, typed [as ProgressEvent]
    as in the sources ([None] is its [SyntaxError]), and [JSON.stringify]
    of an event. *)
Class Json : Type := {
  JSON_parse : string -> option ProgressEvent;
  JSON_stringify : ProgressEvent -> string
}.

(** *** The file system *)

(** The storage directory and the events file in it.  The four flags tell
    which operations are refused by the platform with an error other than
    [NotFound]. *)
Record FileSystem : Type := mkFS {
  dir_exists : bool;
  file : option string;
  stat_fails : bool;
  mkdir_fails : bool;
  read_fails : bool;
  write_fails : bool
}.

Definition with_dir (b : bool) (f : FileSystem) : FileSystem :=
  mkFS b (file f) (stat_fails f) (mkdir_fails f) (read_fails f) (write_fails f).
Definition with_file (c : option string) (f : FileSystem) : FileSystem :=
  mkFS (dir_exists f) c (stat_fails f) (mkdir_fails f) (read_fails f) (write_fails f).

Inductive LogLine : Type :=
| InitializeFailed (e : Error)
| LoadFailed (e : Error)
| SaveFailed (e : Error)
| ClearFailed (e : Error).

(** The heap of event objects and of arrays of references to them, the
    file system, the fields [events] and [initialized] of the store, the
    console, and the counters of the clock and of the identifier source. *)
Record World : Type := mkWorld {
  objects : gmap loc ProgressEvent;
  arrays : gmap loc (list loc);
  fs : FileSystem;
  events : loc;
  initialized : bool;
  console : list LogLine;
  clock : nat;
  uuids : nat
}.

Definition with_objects (f : gmap loc ProgressEvent -> gmap loc ProgressEvent)
    (w : World) : World :=
  mkWorld (f (objects w)) (arrays w) (fs w) (events w) (initialized w)
    (console w) (clock w) (uuids w).
Definition with_arrays (f : gmap loc (list loc) -> gmap loc (list loc))
    (w : World) : World :=
  mkWorld (objects w) (f (arrays w)) (fs w) (events w) (initialized w)
    (console w) (clock w) (uuids w).
Definition with_fs (f : FileSystem -> FileSystem) (w : World) : World :=
  mkWorld (objects w) (arrays w) (f (fs w)) (events w) (initialized w)
    (console w) (clock w) (uuids w).
Definition with_events (l : loc) (w : World) : World :=
  mkWorld (objects w) (arrays w) (fs w) l (initialized w)
    (console w) (clock w) (uuids w).
Definition with_initialized (b : bool) (w : World) : World :=
  mkWorld (objects w) (arrays w) (fs w) (events w) b
    (console w) (clock w) (uuids w).
Definition with_console (f : list LogLine -> list LogLine) (w : World) : World :=
  mkWorld (objects w) (arrays w) (fs w) (events w) (initialized w)
    (f (console w)) (clock w) (uuids w).
Definition with_clock (f : nat -> nat) (w : World) : World :=
  mkWorld (objects w) (arrays w) (fs w) (events w) (initialized w)
    (console w) (f (clock w)) (uuids w).
Definition with_uuids (f : nat -> nat) (w : World) : World :=
  mkWorld (objects w) (arrays w) (fs w) (events w) (initialized w)
    (console w) (clock w) (f (uuids w)).

(** [s.split("\n")] *)
Fixpoint split_lines (s : string) : list string :=
  match s with
  | EmptyString => [EmptyString]
  | String c s' =>
      if Ascii.eqb c "010"%char then EmptyString :: split_lines s'
      else match split_lines s' with
           | [] => [String c EmptyString]
           | line :: rest => String c line :: rest
           end
  end.

(** [lines.join("\n")] *)
Fixpoint join_lines (l : list string) : string :=
  match l with
  | [] => EmptyString
  | [x] => x
  | x :: l' => (x ++ String "010"%char (join_lines l'))%string
  end.

Section WithPlatform.
Context `{Platform} `{Json}.

(** **** Heap primitives *)

Definition console_error (l : LogLine) : M World unit :=
  modify (with_console (fun c => c ++ [l])).

(** A reference held by the program always designates an object; the
    error cases of the two readers are never reached from a well-formed
    heap. *)
Definition read_event (l : loc) : M World ProgressEvent :=
  fun w =>
    match objects w !! l with
    | Some e => (Ok e, w)
    | None => (Throw TypeError, w)
    end.

Definition read_array (l : loc) : M World (list loc) :=
  fun w =>
    match arrays w !! l with
    | Some a => (Ok a, w)
    | None => (Throw TypeError, w)
    end.

Definition new_event (e : ProgressEvent) : M World loc :=
  fun w =>
    let l := fresh (dom (objects w)) in
    (Ok l, with_objects (insert l e) w).

Definition new_array (a : list loc) : M World loc :=
  fun w =>
    let l := fresh (dom (arrays w)) in
    (Ok l, with_arrays (insert l a) w).

(** [array.push(...items)] *)
Definition push (array : loc) (items : list loc) : M World unit :=
  let* a := read_array array in
  modify (with_arrays (insert array (a ++ items))).

(** **** [Deno] file operations *)

Definition stat_dir : M World unit :=
  let* w := get in
  if stat_fails (fs w) then throw IOError
  else if dir_exists (fs w) then ret tt
  else throw NotFound.

Definition mkdir : M World unit :=
  let* w := get in
  if mkdir_fails (fs w) then throw IOError
  else modify (with_fs (with_dir true)).

Definition stat_file : M World unit :=
  let* w := get in
  if stat_fails (fs w) then throw IOError
  else match file (fs w) with
       | Some _ => ret tt
       | None => throw NotFound
       end.

Definition readTextFile : M World string :=
  let* w := get in
  if read_fails (fs w) then throw IOError
  else match file (fs w) with
       | Some content => ret content
       | None => throw NotFound
       end.

(** [Deno.writeTextFile(this.eventsFile, data, { append: true })] *)
Definition appendTextFile (data : string) : M World unit :=
  let* w := get in
  if write_fails (fs w) then throw IOError
  else if dir_exists (fs w) then
    modify (with_fs (fun f =>
      with_file (Some (default EmptyString (file f) ++ data)%string) f))
  else throw NotFound.

(** [Deno.writeTextFile(this.eventsFile, data)] *)
Definition writeTextFile (data : string) : M World unit :=
  let* w := get in
  if write_fails (fs w) then throw IOError
  else if dir_exists (fs w) then modify (with_fs (with_file (Some data)))
  else throw NotFound.

End WithPlatform.

End Store.

(** *** progress/events/definitions.ts *)

Module EventDefinitions.
Import Store.

Section WithPlatform.
Context `{Platform}.

(** [createEvent(type, payload)]: the object literal draws the identifier,
    then reads the clock; [version] is [1]. *)
Definition createEvent (t : EventType) (pl : jsval) : M World loc :=
  let* w := get in
  let event_id := uuidAt (uuids w) in
  modify (with_uuids S) ;;
  let now := isoStringAt (clock w) in
  modify (with_clock S) ;;
  new_event (mkEvent event_id (eventTypeName t) now 1 pl).

(** [createTaskDependencyAddedEvent(taskId, dependsOnTaskId)] *)
Definition createTaskDependencyAddedEvent (taskId dependsOnTaskId : string)
  : M World loc :=
  createEvent TASK_DEPENDENCY_ADDED
    (JObj [("taskId"%string, JStr taskId);
           ("dependsOnTaskId"%string, JStr dependsOnTaskId)]).

(** [createTaskDependencyRemovedEvent(taskId, dependsOnTaskId)] *)
Definition createTaskDependencyRemovedEvent (taskId dependsOnTaskId : string)
  : M World loc :=
  createEvent TASK_DEPENDENCY_REMOVED
    (JObj [("taskId"%string, JStr taskId);
           ("dependsOnTaskId"%string, JStr dependsOnTaskId)]).

(** The string values of the enumeration [Status] of [types/models.ts]. *)
Definition statusValue (s : Progress.Status) : string :=
  match s with
  | Progress.NOT_STARTED => "not_started"
  | Progress.IN_PROGRESS => "in_progress"
  | Progress.COMPLETED => "completed"
  | Progress.BLOCKED => "blocked"
  end%string.

(** An optional string argument: a property whose value is [undefined]
    when the argument is left out. *)
Definition optional (v : option string) : jsval :=
  match v with
  | Some x => JStr x
  | None => JUndefined
  end.

(** The factories of the project events.  The [project], [milestone] and
    [task] arguments of the three [...Created] factories are the caller's
    objects, taken here by value. *)
Definition createProjectCreatedEvent (project : jsval) : M World loc :=
  createEvent PROJECT_CREATED (JObj [("project"%string, project)]).

Definition createProjectDeletedEvent (projectId : string) : M World loc :=
  createEvent PROJECT_DELETED (JObj [("projectId"%string, JStr projectId)]).

Definition createProjectStatusChangedEvent (projectId : string)
    (oldStatus newStatus : Progress.Status) : M World loc :=
  createEvent PROJECT_STATUS_CHANGED
    (JObj [("projectId"%string, JStr projectId);
           ("oldStatus"%string, JStr (statusValue oldStatus));
           ("newStatus"%string, JStr (statusValue newStatus))]).

(** The factories of the milestone events. *)
Definition createMilestoneCreatedEvent (milestone : jsval) : M World loc :=
  createEvent MILESTONE_CREATED (JObj [("milestone"%string, milestone)]).

Definition createMilestoneDeletedEvent (milestoneId : string) : M World loc :=
  createEvent MILESTONE_DELETED (JObj [("milestoneId"%string, JStr milestoneId)]).

Definition createMilestoneStatusChangedEvent (milestoneId : string)
    (oldStatus newStatus : Progress.Status) : M World loc :=
  createEvent MILESTONE_STATUS_CHANGED
    (JObj [("milestoneId"%string, JStr milestoneId);
           ("oldStatus"%string, JStr (statusValue oldStatus));
           ("newStatus"%string, JStr (statusValue newStatus))]).

Definition createMilestoneAddedToProjectEvent (projectId milestoneId : string)
  : M World loc :=
  createEvent MILESTONE_ADDED_TO_PROJECT
    (JObj [("projectId"%string, JStr projectId);
           ("milestoneId"%string, JStr milestoneId)]).

Definition createMilestoneRemovedFromProjectEvent (projectId milestoneId : string)
  : M World loc :=
  createEvent MILESTONE_REMOVED_FROM_PROJECT
    (JObj [("projectId"%string, JStr projectId);
           ("milestoneId"%string, JStr milestoneId)]).

Definition createMilestoneDependencyAddedEvent
    (milestoneId dependsOnMilestoneId : string) : M World loc :=
  createEvent MILESTONE_DEPENDENCY_ADDED
    (JObj [("milestoneId"%string, JStr milestoneId);
           ("dependsOnMilestoneId"%string, JStr dependsOnMilestoneId)]).

Definition createMilestoneDependencyRemovedEvent
    (milestoneId dependsOnMilestoneId : string) : M World loc :=
  createEvent MILESTONE_DEPENDENCY_REMOVED
    (JObj [("milestoneId"%string, JStr milestoneId);
           ("dependsOnMilestoneId"%string, JStr dependsOnMilestoneId)]).

(** The factories of the task events. *)
Definition createTaskCreatedEvent (task : jsval) : M World loc :=
  createEvent TASK_CREATED (JObj [("task"%string, task)]).

Definition createTaskDeletedEvent (taskId : string) : M World loc :=
  createEvent TASK_DELETED (JObj [("taskId"%string, JStr taskId)]).

Definition createTaskStatusChangedEvent (taskId : string)
    (oldStatus newStatus : Progress.Status) : M World loc :=
  createEvent TASK_STATUS_CHANGED
    (JObj [("taskId"%string, JStr taskId);
           ("oldStatus"%string, JStr (statusValue oldStatus));
           ("newStatus"%string, JStr (statusValue newStatus))]).

Definition createTaskAddedToMilestoneEvent (milestoneId taskId : string)
  : M World loc :=
  createEvent TASK_ADDED_TO_MILESTONE
    (JObj [("milestoneId"%string, JStr milestoneId);
           ("taskId"%string, JStr taskId)]).

Definition createTaskRemovedFromMilestoneEvent (milestoneId taskId : string)
  : M World loc :=
  createEvent TASK_REMOVED_FROM_MILESTONE
    (JObj [("milestoneId"%string, JStr milestoneId);
           ("taskId"%string, JStr taskId)]).

(** [getCurrentISOString()] of [types/models.ts] *)
Definition getCurrentISOString : M World string :=
  fun w => (Ok (isoStringAt (clock w)), with_clock S w).

(** A parameter with the default value [getCurrentISOString()]: the clock
    is read when the argument is left out, before the body runs. *)
Definition or_now (v : option string) : M World string :=
  match v with
  | Some x => ret x
  | None => getCurrentISOString
  end.

(** [createTaskStartedEvent(taskId, startTime = getCurrentISOString())] *)
Definition createTaskStartedEvent (taskId : string) (startTime : option string)
  : M World loc :=
  let* startTime' := or_now startTime in
  createEvent TASK_STARTED
    (JObj [("taskId"%string, JStr taskId); ("startTime"%string, JStr startTime')]).

(** [createTaskCompletedEvent(taskId, endTime = getCurrentISOString(),
     elapsedTimeMinute)] *)
Definition createTaskCompletedEvent (taskId : string) (endTime : option string)
    (elapsedTimeMinute : number) : M World loc :=
  let* endTime' := or_now endTime in
  createEvent TASK_COMPLETED
    (JObj [("taskId"%string, JStr taskId); ("endTime"%string, JStr endTime');
           ("elapsedTimeMinute"%string, JNum elapsedTimeMinute)]).

Definition createTaskBlockedEvent (taskId reason : string) : M World loc :=
  createEvent TASK_BLOCKED
    (JObj [("taskId"%string, JStr taskId); ("reason"%string, JStr reason)]).

Definition createTaskUnblockedEvent (taskId : string) : M World loc :=
  createEvent TASK_UNBLOCKED (JObj [("taskId"%string, JStr taskId)]).

Definition createTaskTimeLoggedEvent (taskId : string) (timeMinutes : number)
    (description : option string) : M World loc :=
  createEvent TASK_TIME_LOGGED
    (JObj [("taskId"%string, JStr taskId); ("timeMinutes"%string, JNum timeMinutes);
           ("description"%string, optional description)]).

End WithPlatform.

End EventDefinitions.

(** *** Reads shared by the two stores *)

Module StoreReads.
Import Store.

(** [array.filter(f)] on an array of event objects, with a callback that
    may throw; the result is the list of the references kept. *)
Fixpoint filter_events (f : ProgressEvent -> Res bool) (a : list loc)
  : M World (list loc) :=
  match a with
  | [] => ret []
  | l :: a' =>
      let* e := read_event l in
      match f e with
      | Throw err => throw err
      | Ok keep =>
          let* rest := filter_events f a' in
          ret (if keep then l :: rest else rest)
      end
  end.

(** [array.find(f)] on an array of event objects. *)
Fixpoint find_event (f : ProgressEvent -> bool) (a : list loc)
  : M World (option loc) :=
  match a with
  | [] => ret None
  | l :: a' =>
      let* e := read_event l in
      if f e then ret (Some l) else find_event f a'
  end.

(** The disjunction of the [if (...) return true] tests of a callback,
    tried in order; a test that throws ends the callback. *)
Fixpoint first_true (tests : list (Res bool)) : Res bool :=
  match tests with
  | [] => Ok false
  | Throw err :: _ => Throw err
  | Ok true :: _ => Ok true
  | Ok false :: tests' => first_true tests'
  end.

(** [e.id === eventId] *)
Definition has_id (eventId : string) (e : ProgressEvent) : bool :=
  String.eqb (id e) eventId.

(** [event.type === eventType] *)
Definition has_type (eventType : string) (e : ProgressEvent) : Res bool :=
  Ok (String.eqb (type e) eventType).

(** [eventTime >= start && eventTime <= end] *)
Definition in_time_range `{Platform} (startTime endTime : string) (e : ProgressEvent)
  : Res bool :=
  let start := getTime startTime in
  let end_ := getTime endTime in
  let eventTime := getTime (timestamp e) in
  Ok (le_number start eventTime && le_number eventTime end_).

End StoreReads.

(** *** progress/events/file_store.ts *)

Module FileEventStore.
Import Store StoreReads.

Section WithPlatform.
Context `{Platform} `{Json}.

(** [JSON.parse(line) as ProgressEvent]: a new object, or a [SyntaxError]. *)
Definition parse_line (line : string) : M World loc :=
  match JSON_parse line with
  | Some e => new_event e
  | None => throw SyntaxError
  end.

(** [lines.map((line) => JSON.parse(line))] *)
Fixpoint parse_lines (lines : list string) : M World (list loc) :=
  match lines with
  | [] => ret []
  | line :: lines' =>
      let* l := parse_line line in
      let* rest := parse_lines lines' in
      ret (l :: rest)
  end.

(** [line.trim()] is not the empty string. *)
Definition not_blank (line : string) : bool :=
  negb (String.eqb (trim line) EmptyString).

(** [private async loadEvents()] *)
Definition loadEvents : M World unit :=
  try_catch
    (let* content := readTextFile in
     let lines := split_lines (trim content) in
     let* parsed := parse_lines (List.filter not_blank lines) in
     let* a := new_array parsed in
     modify (with_events a))
    (fun error =>
       console_error (LoadFailed error) ;;
       let* a := new_array [] in
       modify (with_events a)).

(** [private async initialize()] *)
Definition initialize : M World unit :=
  let* w := get in
  if initialized w then ret tt
  else
    try_catch
      (try_catch stat_dir
         (fun error =>
            match error with
            | NotFound => mkdir
            | _ => throw error
            end) ;;
       try_catch (stat_file ;; loadEvents)
         (fun error =>
            match error with
            | NotFound => let* a := new_array [] in modify (with_events a)
            | _ => throw error
            end) ;;
       modify (with_initialized true))
      (fun error =>
         console_error (InitializeFailed error) ;;
         throw error).

(** [private async appendEventToFile(event)] *)
Definition appendEventToFile (event : loc) : M World unit :=
  try_catch
    (let* e := read_event event in
     let eventJson := JSON_stringify e in
     appendTextFile (eventJson ++ String "010"%char EmptyString)%string)
    (fun error =>
       console_error (SaveFailed error) ;;
       throw error).

(** [events.map((event) => JSON.stringify(event))] *)
Fixpoint stringify_all (evs : list loc) : M World (list string) :=
  match evs with
  | [] => ret []
  | l :: evs' =>
      let* e := read_event l in
      let* rest := stringify_all evs' in
      ret (JSON_stringify e :: rest)
  end.

(** [private async appendEventsToFile(events)] *)
Definition appendEventsToFile (evs : loc) : M World unit :=
  try_catch
    (let* a := read_array evs in
     let* jsons := stringify_all a in
     let eventsJson := join_lines jsons in
     appendTextFile (eventsJson ++ String "010"%char EmptyString)%string)
    (fun error =>
       console_error (SaveFailed error) ;;
       throw error).

(** [async saveEvent(event)] *)
Definition saveEvent (event : loc) : M World loc :=
  initialize ;;
  let* w := get in
  push (events w) [event] ;;
  appendEventToFile event ;;
  ret event.

(** [async saveEvents(events)]; the argument and the result are the
    caller's array. *)
Definition saveEvents (evs : loc) : M World loc :=
  initialize ;;
  let* a := read_array evs in
  let* w := get in
  push (events w) a ;;
  appendEventsToFile evs ;;
  ret evs.

(** [async getAllEvents()]: [[...this.events]] is a new array. *)
Definition getAllEvents : M World loc :=
  initialize ;;
  let* w := get in
  let* a := read_array (events w) in
  new_array a.

(** [async getEventById(eventId)] *)
Definition getEventById (eventId : string) : M World (option loc) :=
  initialize ;;
  let* w := get in
  let* a := read_array (events w) in
  find_event (has_id eventId) a.

(** [k in v && v.k === entityId] *)
Definition own_id_is (k : string) (v : jsval) (entityId : string) : Res bool :=
  match has_property k v with
  | Ok b => Ok (b && strict_eq_string (get_property k v) entityId)
  | Throw err => Throw err
  end.

(** [outer in payload && payload.outer && inner in payload.outer &&
     payload.outer.inner === entityId] *)
Definition nested_id_is (outer inner : string) (pl : jsval) (entityId : string)
  : Res bool :=
  match has_property outer pl with
  | Ok true =>
      let v := get_property outer pl in
      if truthy v then own_id_is inner v entityId else Ok false
  | Ok false => Ok false
  | Throw err => Throw err
  end.

(** The callback of [getEventsByEntityId]. *)
Definition relates_to (entityId : string) (event : ProgressEvent) : Res bool :=
  let pl := payload event in
  if negb (truthy pl) then Ok false
  else
    first_true
      [ own_id_is "projectId" pl entityId;
        own_id_is "milestoneId" pl entityId;
        own_id_is "taskId" pl entityId;
        nested_id_is "project" "projectId" pl entityId;
        nested_id_is "milestone" "milestoneId" pl entityId;
        nested_id_is "task" "taskId" pl entityId ].

(** [async getEventsByEntityId(entityId)] *)
Definition getEventsByEntityId (entityId : string) : M World loc :=
  initialize ;;
  let* w := get in
  let* a := read_array (events w) in
  let* kept := filter_events (relates_to entityId) a in
  new_array kept.

(** [async getEventsByTimeRange(startTime, endTime)] *)
Definition getEventsByTimeRange (startTime endTime : string) : M World loc :=
  initialize ;;
  let* w := get in
  let* a := read_array (events w) in
  let* kept := filter_events (in_time_range startTime endTime) a in
  new_array kept.

(** [async getEventsByType(eventType)] *)
Definition getEventsByType (eventType : string) : M World loc :=
  initialize ;;
  let* w := get in
  let* a := read_array (events w) in
  let* kept := filter_events (has_type eventType) a in
  new_array kept.

(** [async clear()] *)
Definition clear : M World unit :=
  (let* a := new_array [] in modify (with_events a)) ;;
  try_catch (writeTextFile EmptyString)
    (fun error =>
       console_error (ClearFailed error) ;;
       throw error).

End WithPlatform.

End FileEventStore.

(** *** progress/events/memory_store.ts *)

Module InMemoryEventStore.
Import Store StoreReads.

Section WithPlatform.
Context `{Platform}.

(** [async saveEvent(event)] *)
Definition saveEvent (event : loc) : M World loc :=
  let* w := get in
  push (events w) [event] ;;
  ret event.

(** [async saveEvents(events)] *)
Definition saveEvents (evs : loc) : M World loc :=
  let* a := read_array evs in
  let* w := get in
  push (events w) a ;;
  ret evs.

(** [async getAllEvents()] *)
Definition getAllEvents : M World loc :=
  let* w := get in
  let* a := read_array (events w) in
  new_array a.

(** [async getEventById(eventId)] *)
Definition getEventById (eventId : string) : M World (option loc) :=
  let* w := get in
  let* a := read_array (events w) in
  find_event (has_id eventId) a.

(** [payload.k === entityId] *)
Definition id_is (k : string) (v : jsval) (entityId : string) : bool :=
  strict_eq_string (get_property k v) entityId.

(** [payload.outer && payload.outer.inner === entityId] *)
Definition nested_is (outer inner : string) (pl : jsval) (entityId : string) : bool :=
  let v := get_property outer pl in
  truthy v && id_is inner v entityId.

(** The callback of [getEventsByEntityId]. *)
Definition relates_to (entityId : string) (event : ProgressEvent) : Res bool :=
  let pl := payload event in
  if negb (truthy pl) then Ok false
  else
    Ok (id_is "projectId" pl entityId
        || id_is "milestoneId" pl entityId
        || id_is "taskId" pl entityId
        || nested_is "project" "projectId" pl entityId
        || nested_is "milestone" "milestoneId" pl entityId
        || nested_is "task" "taskId" pl entityId).

(** [async getEventsByEntityId(entityId)] *)
Definition getEventsByEntityId (entityId : string) : M World loc :=
  let* w := get in
  let* a := read_array (events w) in
  let* kept := filter_events (relates_to entityId) a in
  new_array kept.

(** [async getEventsByTimeRange(startTime, endTime)] *)
Definition getEventsByTimeRange (startTime endTime : string) : M World loc :=
  let* w := get in
  let* a := read_array (events w) in
  let* kept := filter_events (in_time_range startTime endTime) a in
  new_array kept.

(** [async getEventsByType(eventType)] *)
Definition getEventsByType (eventType : string) : M World loc :=
  let* w := get in
  let* a := read_array (events w) in
  let* kept := filter_events (has_type eventType) a in
  new_array kept.

(** [async clear()] *)
Definition clear : M World unit :=
  let* a := new_array [] in
  modify (with_events a).

End WithPlatform.

End InMemoryEventStore.

(** *** The other methods of progress/storage.ts and progress/manager.ts *)

Module Manager.
Import Progress.

Definition with_projectIds (ids : list string) (pd : ProgressData) : ProgressData :=
  mkProgressData (projects pd) ids (statistics pd).

(** Assignments to [this.progressData.projects] and
    [this.progressData.projectIds]. *)
Definition modify_progressData (f : ProgressData -> ProgressData) : M World unit :=
  modify (with_storage (fun st =>
    with_progressData (f <$> progressData st) st)).

Section WithPlatform.
Context `{Platform}.

(** [private initializeMaps()] with its loop written out.  [body] stands
    for what the loop does with a project that [getProjectById] returned:
    it fills [projectMap], [milestoneMap] and [taskMap]. *)
Definition initializeMaps_loop
    (body : string -> loc -> ProgressStorage -> ProgressStorage)
    (st : ProgressStorage) : ProgressStorage :=
  let cleared := mkStorage (pointsPerHour st) (progressData st) ∅ ∅ ∅ in
  match progressData cleared with
  | None => cleared
  | Some pd =>
      fold_left
        (fun st' projectId =>
           match projectMap st' !! projectId with
           | Some project => body projectId project st'
           | None => st'
           end)
        (projectIds pd) cleared
  end.

(** [getProjectById(projectId)], [getMilestoneById(milestoneId)] and
    [getTaskById(taskId)] *)
Definition getProjectById (projectId : string) : M World (option loc) :=
  let* w := get in ret (projectMap (storage w) !! projectId).

Definition getMilestoneById (milestoneId : string) : M World (option Milestone) :=
  let* w := get in ret (milestoneMap (storage w) !! milestoneId).

Definition getTaskById (taskId : string) : M World (option Task) :=
  let* w := get in ret (taskMap (storage w) !! taskId).

(** [addProject(project)] of the storage: the project object goes into
    [projectMap], and a new [ProjectBase] object into
    [progressData.projects]. *)
Definition addProject (l : loc) : M World unit :=
  let* w := get in
  match progressData (storage w) with
  | None =>
      modify (with_storage (fun st =>
        with_progressData (Some (createEmptyProgressData st)) st))
  | Some _ => ret tt
  end ;;
  let* project := deref l in
  modify (with_storage (with_projectMap (insert (projectId project) l))) ;;
  let* base := alloc (projectBase project) in
  modify_progressData (fun pd => with_projects (projects pd ++ [base]) pd) ;;
  modify_progressData (fun pd =>
    if existsb (String.eqb (projectId project)) (projectIds pd) then pd
    else with_projectIds (projectIds pd ++ [projectId project]) pd).

(** [createProject(title, description)]; [uuid] is the identifier that
    [crypto.randomUUID()] returns to this call. *)
Definition createProject (uuid : string) (title : string) (description : option string)
  : M World loc :=
  let* now := getCurrentISOString in
  let* l := alloc (mkProject uuid NOT_STARTED title description now now (Some [])) in
  addProject l ;;
  save ;;
  let* project := deref l in
  emitM PROJECT_CREATED (ProjectData PROJECT_CREATED project) ;;
  ret l.

(** [addMilestone(parentProjectId, title, description, dueDate)]; the
    value returned is the milestone object as it is on return. *)
Definition addMilestone (uuid : string) (parentProjectId title : string)
    (description dueDate : option string) : M World (option Milestone) :=
  let* pd := getProgressData in
  let* w := get in
  match List.find (has_projectId (heap w) parentProjectId) (projects pd) with
  | None => console_error (ProjectNotFound parentProjectId) ;; ret None
  | Some l =>
      let* project := deref l in
      let milestone :=
        mkMilestone uuid NOT_STARTED title description dueDate None [] in
      match milestones project with
      | None => throw TypeError
      | Some ms =>
          modify_project l (set_milestones (Some (ms ++ [milestone]))) ;;
          let* now := getCurrentISOString in
          modify_project l (set_updatedAt now) ;;
          updateProject l ;;
          save ;;
          let* m := read_milestone l (length ms) in
          emitM MILESTONE_CREATED (MilestoneData MILESTONE_CREATED m parentProjectId) ;;
          ret (Some m)
      end
  end.

(** [addTask(projectId, milestoneId, title, description, estimatedPoints = 1,
     priority = TaskPriority.MUST)] *)
Definition addTask (uuid : string) (pid mid title : string)
    (description : option string) (estimatedPoints : option number)
    (priority : option TaskPriority) : M World (option Task) :=
  let* pd := getProgressData in
  let* w := get in
  match List.find (has_projectId (heap w) pid) (projects pd) with
  | None => console_error (ProjectNotFound pid) ;; ret None
  | Some l =>
      let* project := deref l in
      match milestones project with
      | None => throw TypeError
      | Some ms =>
          match findi (has_milestoneId mid) ms with
          | None => console_error (MilestoneNotFound mid) ;; ret None
          | Some (j, milestone) =>
              let task :=
                mkTask uuid title description NOT_STARTED (default MUST priority)
                  (default (of_Z 1) estimatedPoints) None None None in
              modify_milestone l j (fun m => set_tasks (tasks m ++ [task]) m) ;;
              let* now := getCurrentISOString in
              modify_project l (set_updatedAt now) ;;
              updateProject l ;;
              save ;;
              let* t := read_task l j (length (tasks milestone)) in
              emitM TASK_CREATED (TaskData TASK_CREATED t pid) ;;
              ret (Some t)
          end
      end
  end.

(** [getProject(projectId)] *)
Definition getProject (pid : string) : M World (option loc) :=
  let* pd := getProgressData in
  let* w := get in
  ret (List.find (has_projectId (heap w) pid) (projects pd)).

(** [getMilestone(projectId, milestoneId)] *)
Definition getMilestone (pid mid : string) : M World (option Milestone) :=
  let* found := getProject pid in
  match found with
  | None => ret None
  | Some l =>
      let* project := deref l in
      match milestones project with
      | None => throw TypeError
      | Some ms => ret (List.find (has_milestoneId mid) ms)
      end
  end.

(** [getTask(projectId, milestoneId, taskId)] *)
Definition getTask (pid mid tid : string) : M World (option Task) :=
  let* found := getMilestone pid mid in
  match found with
  | None => ret None
  | Some milestone => ret (List.find (has_taskId tid) (tasks milestone))
  end.

End WithPlatform.

End Manager.

(** * What the specification says *)

Module Spec.
Import Progress.

(** The precedence rule of the status aggregator, over the statuses of the
    children of an entity: Completed when there is at least one child and
    all children are Completed; otherwise InProgress when any child is
    InProgress; otherwise Blocked when any child is Blocked; otherwise
    NotStarted. *)
Definition precedence (children : list Status) : Status :=
  if (1 <=? length children) && forallb (fun c => Status_eqb c COMPLETED) children
  then COMPLETED
  else if existsb (fun c => Status_eqb c IN_PROGRESS) children then IN_PROGRESS
  else if existsb (fun c => Status_eqb c BLOCKED) children then BLOCKED
  else NOT_STARTED.

(** All the tasks, project by project and milestone by milestone, when
    every project object of the array has its [milestones]. *)
Fixpoint all_tasks (h : gmap loc Project) (ps : list loc) : option (list Task) :=
  match ps with
  | [] => Some []
  | l :: ps' =>
      match h !! l with
      | Some p =>
          match milestones p, all_tasks h ps' with
          | Some ms, Some ts => Some (concat (map tasks ms) ++ ts)
          | _, _ => None
          end
      | None => None
      end
  end.

(** The progress data that [getProgressData] gives: the stored object, or
    the empty data when nothing is stored yet. *)
Definition current_data (w : World) : ProgressData :=
  default (createEmptyProgressData (storage w)) (progressData (storage w)).

(** The statistics, over the list of all the tasks. *)
Definition sum (xs : list number) : number := fold_left add xs (of_Z 0).

Definition completed (ts : list Task) : list Task :=
  List.filter (fun t => Status_eqb (status t) COMPLETED) ts.

Definition total_points (ts : list Task) : number :=
  sum (map estimatedPoints ts).

(** [earnedPoints] as the specification has it: over the completed tasks,
    [actualPoints ?? estimatedPoints]. *)
Definition earned_points_nullish (ts : list Task) : number :=
  sum (map (fun t => nullish_number (actualPoints t) (estimatedPoints t))
           (completed ts)).

(** [earnedPoints] with [actualPoints || estimatedPoints]. *)
Definition earned_points (ts : list Task) : number :=
  sum (map (fun t => or_number (actualPoints t) (estimatedPoints t))
           (completed ts)).

(** A time field is set: it is present and is not the empty string. *)
Definition is_set (t : option string) : bool :=
  match t with
  | Some (String _ _) => true
  | _ => false
  end.

(** The completed tasks that have both [startTime] and [endTime]. *)
Definition timed (ts : list Task) : list Task :=
  List.filter (fun t => is_set (startTime t) && is_set (endTime t)) (completed ts).

Section WithPlatform.
Context `{Platform}.

(** [(endTime - startTime)] in hours. *)
Definition hours (t : Task) : number :=
  div (sub (getTime (default EmptyString (endTime t)))
           (getTime (default EmptyString (startTime t))))
      (of_Z 3600000).

Definition total_hours (ts : list Task) : number :=
  sum (map hours (timed ts)).

End WithPlatform.

End Spec.

(** * Concrete data for the examples *)

Module Demo.

(** A platform for the examples: the clock and the identifier source show
    their counter, a timestamp is a decimal count of milliseconds, and
    [trim] removes the ASCII white space. *)
Definition digit (n : nat) : string :=
  String (ascii_of_nat (48 + n mod 10)) EmptyString.

Fixpoint decimal (s : string) (acc : Z) : option Z :=
  match s with
  | EmptyString => Some acc
  | String c s' =>
      let n := nat_of_ascii c in
      if (48 <=? n) && (n <=? 57)
      then decimal s' (10 * acc + Z.of_nat (n - 48))%Z
      else None
  end.

Definition is_space (c : ascii) : bool :=
  let n := nat_of_ascii c in
  ((9 <=? n) && (n <=? 13)) || (n =? 32).

Fixpoint trim_left (s : string) : string :=
  match s with
  | String c s' => if is_space c then trim_left s' else s
  | EmptyString => EmptyString
  end.

Fixpoint trim_right (s : string) : string :=
  match s with
  | String c s' =>
      match trim_right s' with
      | EmptyString => if is_space c then EmptyString else String c EmptyString
      | r => String c r
      end
  | EmptyString => EmptyString
  end.

Definition platform : Platform := {|
  isoStringAt n := ("T" ++ digit n)%string;
  uuidAt n := ("id-" ++ digit n)%string;
  parseDate s := match s with
                 | EmptyString => None
                 | _ => decimal s 0
                 end;
  trim s := trim_right (trim_left s)
|}.

(** The line format of the examples: an event is written as [E:] followed
    by its identifier; any other line is a syntax error. *)
Definition json : Store.Json := {|
  Store.JSON_parse line :=
    match line with
    | String "E" (String ":" rest) =>
        Some (Store.mkEvent rest "task_created" "0" 1 Store.JNull)
    | _ => None
    end;
  Store.JSON_stringify e := ("E:" ++ Store.id e)%string
|}.

Import Progress.

Definition task (tid : string) (s : Status) (points : Z) : Task :=
  mkTask tid "task" None s MUST (of_Z points) None None None.

Definition milestone (mid : string) (s : Status) (ts : list Task) : Milestone :=
  mkMilestone mid s "milestone" None None None ts.

Definition project (pid : string) (s : Status) (ms : list Milestone) : Project :=
  mkProject pid s "project" None "T0" "T0" (Some ms).

(** A manager whose storage holds one project, at reference [1], with the
    given milestones; the statistics are seeded with two points per hour. *)
Definition world (ms : list Milestone) : World :=
  mkWorld {[ 1%positive := project "p1" NOT_STARTED ms ]}
    (mkStorage (of_Z 2)
       (Some (mkProgressData [1%positive] ["p1"%string]
                (mkStatistics 0 0 (of_Z 0) (of_Z 0) (of_Z 2))))
       ∅ ∅ ∅)
    Emitter.empty [] 0 [].

(** Tasks with statuses Completed, Completed, InProgress. *)
Definition mixed_tasks : list Task :=
  [task "t1" COMPLETED 2; task "t2" COMPLETED 3; task "t3" IN_PROGRESS 5].

(** Three completed tasks of 2, 3 and 5 points, [actualPoints] unset. *)
Definition done_tasks : list Task :=
  [task "t1" COMPLETED 2; task "t2" COMPLETED 3; task "t3" COMPLETED 5].

(** A completed task of 3 estimated points whose [actualPoints] is 0. *)
Definition zero_actual : Task :=
  mkTask "t1" "task" None COMPLETED MUST (of_Z 3) (Some (of_Z 0)) None None.



Definition mixed_world : World := world [milestone "m1" NOT_STARTED mixed_tasks].
Definition done_world : World := world [milestone "m1" NOT_STARTED done_tasks].
Definition zero_actual_world : World := world [milestone "m1" COMPLETED [zero_actual]].

(** One task that was never started. *)
Definition new_task_world : World :=
  world [milestone "m1" NOT_STARTED [task "t1" NOT_STARTED 2]].

(** A store that was just constructed, over an existing and empty
    directory; the array behind [events] is at reference [1]. *)
Definition new_store : Store.World :=
  Store.mkWorld ∅ {[ 1%positive := [] ]}
    (Store.mkFS true None false false false false)
    1%positive false [] 0 0.

(** The same store over a disk that refuses every write. *)
Definition new_store_disk_full : Store.World :=
  Store.mkWorld ∅ {[ 1%positive := [] ]}
    (Store.mkFS true None false false false true)
    1%positive false [] 0 0.

(** A store that was just constructed over a directory whose events file
    has the given content. *)
Definition store_over (content : string) : Store.World :=
  Store.mkWorld ∅ {[ 1%positive := [] ]}
    (Store.mkFS true (Some content) false false false false)
    1%positive false [] 0 0.

(** A store that was just constructed, with three event objects at the
    references [1], [2], [3] and a caller's array, at reference [2], that
    holds them. *)
Definition three_events_store : Store.World :=
  Store.mkWorld
    {[ 1%positive := Store.mkEvent "a" "task_created" "0" 1 Store.JNull;
       2%positive := Store.mkEvent "b" "task_started" "1" 1 Store.JNull;
       3%positive := Store.mkEvent "c" "task_completed" "2" 1 Store.JNull ]}
    {[ 1%positive := []; 2%positive := [1%positive; 2%positive; 3%positive] ]}
    (Store.mkFS false None false false false false)
    1%positive false [] 0 0.

(** The same, over a disk that refuses every write. *)
Definition three_events_disk_full : Store.World :=
  Store.mkWorld
    {[ 1%positive := Store.mkEvent "a" "task_created" "0" 1 Store.JNull;
       2%positive := Store.mkEvent "b" "task_started" "1" 1 Store.JNull;
       3%positive := Store.mkEvent "c" "task_completed" "2" 1 Store.JNull ]}
    {[ 1%positive := []; 2%positive := [1%positive; 2%positive; 3%positive] ]}
    (Store.mkFS true None false false false true)
    1%positive false [] 0 0.

Definition newline : string := String "010"%char EmptyString.

(** Ten valid lines with one malformed line among them. *)
Definition log_with_corrupt_line : string :=
  String.concat newline
    ["E:1"; "E:2"; "E:3"; "E:4"; "{ corrupt"; "E:5"; "E:6"; "E:7"; "E:8";
     "E:9"; "E:10"]%string.

(** An event object with the given identifier. *)
Definition event (i : string) : Store.ProgressEvent :=
  Store.mkEvent i "task_created" "0" 1 Store.JNull.

(** A store in use, whose list holds one event with identifier [a], and a
    second event object, not saved yet, at reference [2]. *)
Definition store_in_use : Store.World :=
  Store.mkWorld {[ 1%positive := event "a"; 2%positive := event "b" ]}
    {[ 1%positive := [1%positive] ]}
    (Store.mkFS true (Some ("E:a" ++ newline)%string) false false false false)
    1%positive true [] 0 0.

(** A store that cannot initialise: the platform refuses [Deno.stat]. *)
Definition store_stat_refused : Store.World :=
  Store.mkWorld ∅ {[ 1%positive := [] ]}
    (Store.mkFS true None true false false false)
    1%positive false [] 0 0.

(** A store that was just constructed over an existing and empty
    directory, and two event objects, not saved yet, at the references [1]
    and [2]. *)
Definition two_events_new_store : Store.World :=
  Store.mkWorld {[ 1%positive := event "a"; 2%positive := event "b" ]}
    {[ 1%positive := [] ]}
    (Store.mkFS true None false false false false)
    1%positive false [] 0 0.

(** A store over an events file that cannot be read. *)
Definition store_unreadable : Store.World :=
  Store.mkWorld ∅ {[ 1%positive := [] ]}
    (Store.mkFS true (Some ("E:a" ++ newline)%string) false false true false)
    1%positive false [] 0 0.

(** A store in use and an empty array of the caller at reference [2]. *)
Definition store_and_empty_batch : Store.World :=
  Store.mkWorld {[ 1%positive := event "a" ]}
    {[ 1%positive := [1%positive]; 2%positive := [] ]}
    (Store.mkFS true (Some ("E:a" ++ newline)%string) false false false false)
    1%positive true [] 0 0.

(** A store in use, whose list holds the event [a], and an array of the
    caller at reference [2] that holds two events not saved yet. *)
Definition store_and_batch : Store.World :=
  Store.mkWorld
    {[ 1%positive := event "a"; 2%positive := event "b"; 3%positive := event "c" ]}
    {[ 1%positive := [1%positive]; 2%positive := [2%positive; 3%positive] ]}
    (Store.mkFS true (Some ("E:a" ++ newline)%string) false false false false)
    1%positive true [] 0 0.

End Demo.

(** * Views of the state used in the statements *)

Module Views.
Import Progress.

Section WithPlatform.
Context `{Platform}.

(** Every project object keeps its array of milestones. *)
Definition milestones_kept (w w' : World) : Prop :=
  forall x p, heap w !! x = Some p ->
    exists p', heap w' !! x = Some p' /\ milestones p' = milestones p.

(** Every milestone of every project object keeps its array of tasks. *)
Definition tasks_of (p : Project) : option (list (list Task)) :=
  map tasks <$> milestones p.

Definition tasks_kept (w w' : World) : Prop :=
  forall x p, heap w !! x = Some p ->
    exists p', heap w' !! x = Some p' /\ tasks_of p' = tasks_of p.

(** Every object of the heap is still there, unchanged. *)
Definition heap_extends (w w' : World) : Prop :=
  forall x q, heap w !! x = Some q -> heap w' !! x = Some q.

(** The task at index [k] of the milestone at index [j] of the project
    object behind [l] is [t]. *)
Definition holds_task (l : loc) (j k : nat) (w : World) (t : Task) : Prop :=
  exists p, heap w !! l = Some p /\ task_at p j k = Some t.

Definition task_in (tss : option (list (list Task))) (j k : nat) : option Task :=
  match tss with
  | Some l => match l !! j with
              | Some ts => ts !! k
              | None => None
              end
  | None => None
  end.

(** The value that the assignments of [updateTaskStatus] give to the task,
    when the clock shows [c] on entry. *)
Definition stamped (c : nat) (new_status : Status) (t : Task) : Task :=
  let t1 := set_status new_status t in
  let started := Status_eqb (status t) NOT_STARTED && Status_eqb new_status IN_PROGRESS in
  let t2 := if started then set_startTime (isoStringAt c) t1 else t1 in
  let c2 := if started then S c else c in
  if Status_eqb new_status COMPLETED then
    set_actualPoints (estimatedPoints t2) (set_endTime (isoStringAt c2) t2)
  else t2.

(** [actualPoints], when the task has one, is neither [0] nor [NaN]. *)
Definition actual_counts (t : Task) : bool :=
  match actualPoints t with
  | Some x => truthy_number x
  | None => true
  end.

Definition qualifies (t : Task) : bool :=
  Status_eqb (status t) COMPLETED
  && (Spec.is_set (startTime t) && Spec.is_set (endTime t)).

(** The statistics object after [updateStatistics]. *)
Definition recomputed (st : Statistics) (ts : list Task) : Statistics :=
  mkStatistics
    (Z.of_nat (length ts))
    (Z.of_nat (length (Spec.completed ts)))
    (Spec.total_points ts)
    (Spec.earned_points ts)
    (if (0 <? Z.of_nat (length (Spec.completed ts)))%Z && gt0 (Spec.total_hours ts)
     then div (Spec.earned_points ts) (Spec.total_hours ts)
     else averagePointsPerHour st).

(** The storage differs at most in its progress data and its project
    map; the emitter, the handlers' record, the clock and the console are
    the same. *)
Definition same_but_projects (w w' : World) : Prop :=
  pointsPerHour (storage w') = pointsPerHour (storage w)
  /\ milestoneMap (storage w') = milestoneMap (storage w)
  /\ taskMap (storage w') = taskMap (storage w)
  /\ events w' = events w
  /\ invoked w' = invoked w
  /\ clock w' = clock w
  /\ console w' = console w.

(** Every reference of the array designates a project object. *)
Definition allocated (w : World) (ps : list loc) : Prop :=
  Forall (fun l => is_Some (heap w !! l)) ps.

(** The progress data after [addProject] of a project with identifier
    [pid], whose [ProjectBase] is at [base]. *)
Definition with_added (pid : string) (base : loc) (pd : ProgressData) : ProgressData :=
  mkProgressData (projects pd ++ [base])
    (if existsb (String.eqb pid) (projectIds pd) then projectIds pd
     else projectIds pd ++ [pid])
    (statistics pd).

(** The project object after an assignment to the task at index [k] of
    the milestone at index [j]. *)
Definition on_task (j k : nat) (g : Task -> Task) (p : Project) : Project :=
  set_milestones
    (alter (fun m => set_tasks (alter g k (tasks m)) m) j <$> milestones p) p.

(** The state after the project object behind [l] was changed in place by
    [F] and the clock was read [n] times. *)
Definition changed (n : nat) (F : Project -> Project) (l : loc) (w : World) : World :=
  with_clock (Nat.add n) (with_heap (alter F l) w).

(** The event that [updateTaskStatus] emits for the task. *)
Definition task_event (new_status : Status) : ProgressEventType :=
  if Status_eqb new_status IN_PROGRESS then TASK_STARTED
  else if Status_eqb new_status COMPLETED then TASK_COMPLETED
  else TASK_UPDATED.

(** The number of readings of the clock that [updateTaskStatus] makes for
    the stamps of the task, before it reads the clock for [updatedAt]. *)
Definition stamp_readings (old_status new_status : Status) : nat :=
  (if Status_eqb old_status NOT_STARTED && Status_eqb new_status IN_PROGRESS
   then 1 else 0)
  + (if Status_eqb new_status COMPLETED then 1 else 0).

(** The statuses of a project and of its milestones. *)
Definition statuses (p : Project) : Status * option (list Status) :=
  (projectStatus p, map milestoneStatus <$> milestones p).

(** The project object after an assignment to the milestone at index
    [j]. *)
Definition on_milestone (j : nat) (g : Milestone -> Milestone) (p : Project) : Project :=
  set_milestones (alter g j <$> milestones p) p.

(** The value that the assignments of [updateMilestoneStatus] give to a
    milestone that has tasks, when the clock shows [c] on entry. *)
Definition milestone_written (c : nat) (m : Milestone) : Milestone :=
  if forallb (is_status COMPLETED) (tasks m) then
    set_completedDate (isoStringAt c) (set_milestoneStatus COMPLETED m)
  else if existsb (is_status IN_PROGRESS) (tasks m) then
    set_milestoneStatus IN_PROGRESS m
  else if existsb (is_status BLOCKED) (tasks m) then
    set_milestoneStatus BLOCKED m
  else set_milestoneStatus NOT_STARTED m.

(** The calls of handlers that [updateMilestoneStatus] makes for a
    milestone that has tasks. *)
Definition milestone_calls (em : Emitter.EventEmitter) (m' : Milestone) (pid : string)
  : list (Emitter.EventHandler * ProgressEventData) :=
  (if Status_eqb (milestoneStatus m') COMPLETED
   then Emitter.invocations em (eventName MILESTONE_COMPLETED)
          (MilestoneData MILESTONE_COMPLETED m' pid)
   else [])
  ++ Emitter.invocations em (eventName MILESTONE_UPDATED)
       (MilestoneData MILESTONE_UPDATED m' pid).

End WithPlatform.

End Views.

(** Views of the event stores. *)

Module StoreViews.
Import Store.

(** No operation on the files is refused. *)
Definition healthy (f : FileSystem) : Prop :=
  stat_fails f = false /\ mkdir_fails f = false
  /\ read_fails f = false /\ write_fails f = false.

(** A store that was just constructed, over a directory that holds no
    events file: [events] is an empty array and [initialized] is false. *)
Definition fresh_store (w : World) : Prop :=
  initialized w = false
  /\ arrays w !! events w = Some []
  /\ file (fs w) = None
  /\ healthy (fs w).

(** A store in use: it is initialized, its directory exists and the disk
    accepts writes. *)
Definition ready (w : World) : Prop :=
  initialized w = true /\ dir_exists (fs w) = true /\ write_fails (fs w) = false.

(** The in-memory event list of the store: the content of [this.events]. *)
Definition memory (w : World) : option (list loc) := arrays w !! events w.

(** Only the heap of event objects may differ. *)
Definition same_but_objects (w w' : World) : Prop :=
  arrays w' = arrays w /\ fs w' = fs w /\ events w' = events w
  /\ initialized w' = initialized w /\ console w' = console w.

(** The lines of the events file that [loadEvents] parses. *)
Definition event_lines `{Platform} (content : string) : list string :=
  List.filter (fun line => negb (String.eqb (trim line) EmptyString))
    (split_lines (trim content)).

(** The state after [this.events.push(...items)], after a line was appended
    to the events file, and after [console.error]. *)
Definition pushed (items : list loc) (w : World) : World :=
  with_arrays (insert (events w) (default [] (memory w) ++ items)) w.

Definition appended (data : string) (w : World) : World :=
  with_fs (fun f => with_file (Some (default EmptyString (file f) ++ data)%string) f) w.

Definition logged (l : LogLine) (w : World) : World :=
  with_console (fun c => c ++ [l]) w.

(** The line written for an event, and the text written for a batch. *)
Definition line_of `{Json} (e : ProgressEvent) : string :=
  (JSON_stringify e ++ String "010"%char EmptyString)%string.

Definition lines_of `{Json} (es : list ProgressEvent) : string :=
  (join_lines (map JSON_stringify es) ++ String "010"%char EmptyString)%string.

(** What the holder of a reference can do to the object behind it: replace
    the content of an array, or the fields of an event object. *)
Definition caller_sets_array (r : loc) (items : list loc) (w : World) : World :=
  with_arrays (insert r items) w.

Definition caller_sets_event (l : loc) (e : ProgressEvent) (w : World) : World :=
  with_objects (insert l e) w.

(** A read that returns an array returns a new one: the reference was not
    in use before the call, the array holds references taken from the list
    [a] of the store, in the same order, and whatever the caller then puts
    into the array, the list of the store is unchanged. *)
Definition returns_new_array (read : M World loc) (w : World) (a : list loc) : Prop :=
  forall r w',
    read w = (Ok r, w') ->
    arrays w !! r = None
    /\ (exists kept, arrays w' !! r = Some kept /\ sublist kept a)
    /\ objects w' = objects w
    /\ forall items, memory (caller_sets_array r items w') = Some a.

(** Every reference of the array designates an event object. *)
Definition allocated (w : World) (a : list loc) : Prop :=
  Forall (fun l => is_Some (objects w !! l)) a.

(** A read that returns an array does return one, unless the callback of
    its [filter] throws a [TypeError]. *)
Definition returns_or_TypeError (read : M World loc) (w : World) : Prop :=
  (exists r w', read w = (Ok r, w')) \/ read w = (Throw TypeError, w).

(** The event objects behind an array of references. *)
Definition events_of (w : World) (a : list loc) : list (option ProgressEvent) :=
  map (fun l => objects w !! l) a.

(** Saving a task-dependency-added event: the factory creates the event
    and [saveEvent] of the file store receives it. *)
Definition save_dependency `{Platform} `{Json} (taskId dependsOnTaskId : string)
  : M World loc :=
  let* e := EventDefinitions.createTaskDependencyAddedEvent taskId dependsOnTaskId in
  FileEventStore.saveEvent e.

(** The dependency edge that a task-dependency-added event adds. *)
Definition dependency_edge (e : ProgressEvent) : option (string * string) :=
  if String.eqb (type e) (eventTypeName TASK_DEPENDENCY_ADDED) then
    match get_property "taskId" (payload e),
          get_property "dependsOnTaskId" (payload e) with
    | JStr a, JStr b => Some (a, b)
    | _, _ => None
    end
  else None.

(** The edges of the task dependency graph recorded in a list of events. *)
Definition dependency_edges (evs : list (option ProgressEvent))
  : list (string * string) :=
  omap (fun o => o ≫= dependency_edge) evs.

(** There is a path of one edge or more from [a] to [b]. *)
Inductive reaches (edges : list (string * string)) : string -> string -> Prop :=
| reaches_edge a b : In (a, b) edges -> reaches edges a b
| reaches_step a b c : In (a, b) edges -> reaches edges b c -> reaches edges a c.

(** Adding the edge from [a] to [b] closes a cycle. *)
Definition closes_cycle (edges : list (string * string)) (a b : string) : Prop :=
  a = b \/ reaches edges b a.

(** The references of an array whose event object satisfies [g], in the
    order of the array, and the first of them. *)
Definition satisfies (w : World) (g : ProgressEvent -> bool) (l : loc) : bool :=
  match objects w !! l with
  | Some e => g e
  | None => false
  end.

Definition matching (w : World) (g : ProgressEvent -> bool) (a : list loc) : list loc :=
  List.filter (satisfies w g) a.

Definition first_matching (w : World) (g : ProgressEvent -> bool) (a : list loc)
  : option loc :=
  List.find (satisfies w g) a.

(** The three strings are dates, and the third lies between the first two,
    bounds included. *)
Definition within `{Platform} (startTime endTime ts : string) : bool :=
  match parseDate startTime, parseDate endTime, parseDate ts with
  | Some s, Some e, Some t => (s <=? t)%Z && (t <=? e)%Z
  | _, _, _ => false
  end.

(** The state after a read has handed out a new array with the given
    content. *)
Definition handed_out (content : list loc) (w : World) : World :=
  with_arrays (insert (fresh (dom (arrays w))) content) w.

(** The event object that a factory call builds in the state [w]. *)
Definition built (c : M World loc) (w : World) : option ProgressEvent :=
  match c w with
  | (Ok l, w') => objects w' !! l
  | (Throw _, _) => None
  end.

(** What the callbacks of [getEventsByEntityId] of the two stores answer
    for an event. *)
Definition file_answer (entityId : string) (e : ProgressEvent) : Res bool :=
  FileEventStore.relates_to entityId e.

Definition memory_answer (entityId : string) (e : ProgressEvent) : Res bool :=
  InMemoryEventStore.relates_to entityId e.

(** Both stores return the event for the entity. *)
Definition found_under (entityId : string) (e : ProgressEvent) : Prop :=
  file_answer entityId e = Ok true /\ memory_answer entityId e = Ok true.

(** The platform refuses [Deno.stat], or the directory is missing and the
    platform refuses [Deno.mkdir]. *)
Definition cannot_initialize (f : FileSystem) : Prop :=
  stat_fails f = true \/ (dir_exists f = false /\ mkdir_fails f = true).

(** Every array that exists before is the same after. *)
Definition arrays_kept (w w' : World) : Prop :=
  forall r a, arrays w !! r = Some a -> arrays w' !! r = Some a.

(** The store after [this.events = []]: the list is a new empty array. *)
Definition emptied (w : World) : World :=
  with_events (fresh (dom (arrays w)))
    (with_arrays (insert (fresh (dom (arrays w))) []) w).

(** [new FileEventStore(storageDir)] over the directory of the present
    store: a second instance, with its own empty [events] array and
    [initialized] false; the files and the heap are shared. *)
Definition reopen (w : World) : World :=
  with_initialized false
    (with_events (fresh (dom (arrays w)))
       (with_arrays (insert (fresh (dom (arrays w))) []) w)).

(** [saveEvent] for each event of a list, in order. *)
Fixpoint save_each `{Platform} `{Json} (es : list loc) : M World unit :=
  match es with
  | [] => ret tt
  | e :: es' => FileEventStore.saveEvent e ;; save_each es'
  end.

(** The text that these calls append to the file. *)
Fixpoint lines_one_by_one `{Json} (es : list ProgressEvent) : string :=
  match es with
  | [] => EmptyString
  | e :: es' => (line_of e ++ lines_one_by_one es')%string
  end.

(** A text that [loadEvents] takes as one line: it holds no line feed and
    is not blank. *)
Definition one_line `{Platform} (s : string) : Prop :=
  split_lines s = [s] /\ trim s <> EmptyString.

(** [JSON.parse] gives back the event that [JSON.stringify] wrote, and the
    text written is one line. *)
Definition written_and_read_back `{Platform} `{Json} (e : ProgressEvent) : Prop :=
  JSON_parse (JSON_stringify e) = Some e /\ one_line (JSON_stringify e).

End StoreViews.

(** * Properties *)

(** ** The event emitter *)

Section EmitterFacts.
Import Emitter.
Context {D : Type}.

Lemma fold_record_call (d : D) (l : list EventHandler) (log : list (EventHandler * D)) :
  fold_left (fun w h => record_call h d w) l log = log ++ map (fun h => (h, d)) l.
Proof.
  revert log. induction l as [|h l IH]; intros log; simpl.
  - by rewrite app_nil_r.
  - rewrite IH. unfold record_call. by rewrite <- app_assoc.
Qed.

Lemma invocations_registered (em : EventEmitter) (event : string) (d : D) :
  invocations em event d = map (fun h => (h, d)) (registered em event).
Proof.
  unfold invocations, emit, registered.
  destruct (handlers em !! event) as [l|]; simpl; [|done].
  by rewrite fold_record_call.
Qed.

Lemma registered_on (em : EventEmitter) (event : string) (h : EventHandler) :
  registered (on event h em) event = registered em event ++ [h].
Proof.
  unfold registered, on.
  destruct (handlers em !! event) as [l|] eqn:E; simpl.
  - rewrite E. simpl. by rewrite lookup_insert_eq.
  - rewrite lookup_insert_eq. simpl. by rewrite lookup_insert_eq.
Qed.

Lemma registered_on_other (em : EventEmitter) (event event' : string) (h : EventHandler) :
  event <> event' -> registered (on event h em) event' = registered em event'.
Proof.
  intros Hne. unfold registered, on.
  destruct (handlers em !! event) as [l|] eqn:E; simpl.
  - rewrite E. simpl. by rewrite lookup_insert_ne.
  - rewrite lookup_insert_eq. simpl. by rewrite !lookup_insert_ne.
Qed.

Lemma splice1_indexOf (l : list EventHandler) (h : EventHandler) (i : nat) :
  indexOf l h = Some i -> splice1 i l = remove_first h l.
Proof.
  revert i. induction l as [|x l IH]; intros i; simpl; [done|].
  destruct (Nat.eqb x h) eqn:E.
  - intros [= <-]. unfold splice1. simpl. by rewrite drop_0.
  - destruct (indexOf l h) as [i'|] eqn:E'; simpl; [|done].
    intros [= <-]. unfold splice1 in *. simpl. f_equal. by apply IH.
Qed.

Lemma indexOf_None (l : list EventHandler) (h : EventHandler) :
  indexOf l h = None -> remove_first h l = l.
Proof.
  induction l as [|x l IH]; simpl; [done|].
  destruct (Nat.eqb x h); [done|].
  destruct (indexOf l h); simpl; [done|]. intros _. f_equal. by apply IH.
Qed.

Lemma registered_off (em : EventEmitter) (event : string) (h : EventHandler) :
  registered (off event h em) event = remove_first h (registered em event).
Proof.
  unfold registered, off.
  destruct (handlers em !! event) as [l|] eqn:E; simpl.
  - destruct (indexOf l h) as [i|] eqn:Ei; simpl.
    + rewrite lookup_insert_eq. simpl. by apply splice1_indexOf.
    + rewrite E. simpl. symmetry. by apply indexOf_None.
  - by rewrite E.
Qed.

Lemma registered_off_other (em : EventEmitter) (event event' : string) (h : EventHandler) :
  event <> event' -> registered (off event h em) event' = registered em event'.
Proof.
  intros Hne. unfold registered, off.
  destruct (handlers em !! event) as [l|] eqn:E; simpl; [|done].
  destruct (indexOf l h) as [i|]; simpl; [|done].
  by rewrite lookup_insert_ne.
Qed.

Lemma remove_first_single (h : EventHandler) (l : list EventHandler) :
  count_occ Nat.eq_dec l h <= 1 -> ~ In h (remove_first h l).
Proof.
  induction l as [|x l IH]; simpl; [tauto|].
  destruct (Nat.eq_dec x h) as [->|Hne].
  - rewrite Nat.eqb_refl. intros Hc Hin.
    apply (count_occ_In Nat.eq_dec) in Hin. lia.
  - apply Nat.eqb_neq in Hne as Hb. rewrite Hb. intros Hc [Heq|Hin]; [done|].
    by apply IH.
Qed.

End EmitterFacts.

(** C10 (amended).  [emit(event, data)] calls the handlers of the array
    registered under [event], once per registration and in the order of
    the calls of [on], each with [data]; when nothing is registered under
    [event] it calls nothing; [on] appends one registration; [off] removes
    the earliest registration of the handler and no other, so a handler
    that was registered at most once is not called by a later [emit]. *)
Theorem emit_calls_registrations :
  forall (D : Type) (em : Emitter.EventEmitter) (event : string)
         (h : Emitter.EventHandler) (data : D),
    Emitter.invocations em event data
      = map (fun h' => (h', data)) (Emitter.registered em event)
    /\ (Emitter.handlers em !! event = None -> Emitter.invocations em event data = [])
    /\ Emitter.registered (Emitter.on event h em) event
         = Emitter.registered em event ++ [h]
    /\ Emitter.registered (Emitter.off event h em) event
         = Emitter.remove_first h (Emitter.registered em event)
    /\ (count_occ Nat.eq_dec (Emitter.registered em event) h <= 1 ->
        ~ In h (map fst (Emitter.invocations (Emitter.off event h em) event data))).
Proof.
  intros D em event h data. split; [apply invocations_registered|].
  split.
  { intros Hn. unfold Emitter.invocations, Emitter.emit. by rewrite Hn. }
  split; [apply registered_on|].
  split; [apply registered_off|].
  intros Hc. rewrite invocations_registered, map_map. simpl. rewrite map_id.
  rewrite registered_off. by apply remove_first_single.
Qed.

(** C10 (counterexample).  A handler registered twice under one name and
    removed once with [off] is still called by the next [emit]. *)
Lemma emit_after_off_still_calls :
  let em := Emitter.on "tick" 7 (Emitter.on "tick" 7 Emitter.empty) in
  Emitter.invocations (Emitter.off "tick" 7 em) "tick" tt = [(7, tt)].
Proof. reflexivity. Qed.

(** ** The state monad *)

Section MonadFacts.
Context {S : Type}.

Lemma run_bind {A B} (c : M S A) (k : A -> M S B) (s : S) :
  bind c k s = match c s with
               | (Ok a, s') => k a s'
               | (Throw e, s') => (Throw e, s')
               end.
Proof. reflexivity. Qed.

Lemma run_bind_ok {A B} (c : M S A) (k : A -> M S B) (s s' : S) (a : A) :
  c s = (Ok a, s') -> bind c k s = k a s'.
Proof. intros E. unfold bind. by rewrite E. Qed.

Lemma run_bind_throw {A B} (c : M S A) (k : A -> M S B) (s s' : S) (e : Error) :
  c s = (Throw e, s') -> bind c k s = (Throw e, s').
Proof. intros E. unfold bind. by rewrite E. Qed.

Context (R : S -> S -> Prop) `{!Reflexive R} `{!Transitive R}.

Lemma respects_ret {A} (a : A) : respects R (ret a).
Proof. intros s. simpl. reflexivity. Qed.

Lemma respects_throw {A} (e : Error) : respects R (@throw S A e).
Proof. intros s. simpl. reflexivity. Qed.

Lemma respects_get : respects R (@get S).
Proof. intros s. simpl. reflexivity. Qed.

Lemma respects_bind {A B} (c : M S A) (k : A -> M S B) :
  respects R c -> (forall a, respects R (k a)) -> respects R (bind c k).
Proof.
  intros Hc Hk s. unfold bind. specialize (Hc s).
  destruct (c s) as [[a|e] s']; simpl in *; [|done].
  etrans; [exact Hc|]. apply Hk.
Qed.

Lemma respects_try_catch {A} (c : M S A) (h : Error -> M S A) :
  respects R c -> (forall e, respects R (h e)) -> respects R (try_catch c h).
Proof.
  intros Hc Hh s. unfold try_catch. specialize (Hc s).
  destruct (c s) as [[a|e] s']; simpl in *; [done|].
  etrans; [exact Hc|]. apply Hh.
Qed.

Lemma respects_modify (f : S -> S) :
  (forall s, R s (f s)) -> respects R (modify f).
Proof. intros Hf s. simpl. apply Hf. Qed.

End MonadFacts.

(** ** The progress manager *)

Section ManagerFacts.
Import Progress Views.
Context `{Platform}.

(** *** Running a method step by step *)

Lemma bind_get {S A} (k : S -> M S A) (s : S) : bind get k s = k s s.
Proof. reflexivity. Qed.

Lemma bind_ret {S A B} (a : A) (k : A -> M S B) (s : S) : bind (ret a) k s = k a s.
Proof. reflexivity. Qed.

Lemma bind_modify {S A} (f : S -> S) (k : unit -> M S A) (s : S) :
  bind (modify f) k s = k tt (f s).
Proof. reflexivity. Qed.

Lemma bind_assoc {S A B C} (c : M S A) (k1 : A -> M S B) (k2 : B -> M S C) (s : S) :
  bind (bind c k1) k2 s = bind c (fun a => bind (k1 a) k2) s.
Proof. unfold bind. by destruct (c s) as [[a|e] s']. Qed.

Lemma bind_getProgressData {A} (k : ProgressData -> M World A) w pd :
  progressData (storage w) = Some pd -> bind getProgressData k w = k pd w.
Proof. intros E. unfold bind, getProgressData. by rewrite E. Qed.

Lemma bind_deref {A} (k : Project -> M World A) w l p :
  heap w !! l = Some p -> bind (deref l) k w = k p w.
Proof. intros E. unfold bind, deref. by rewrite E. Qed.

Lemma bind_getCurrentISOString {A} (k : string -> M World A) w :
  bind getCurrentISOString k w = k (isoStringAt (clock w)) (with_clock S w).
Proof. reflexivity. Qed.

Lemma bind_modify_project {A} (k : unit -> M World A) l f w :
  bind (modify_project l f) k w = k tt (with_heap (alter f l) w).
Proof. reflexivity. Qed.

Lemma bind_modify_milestone {A} (k : unit -> M World A) l j f w :
  bind (modify_milestone l j f) k w =
  k tt (with_heap
          (alter (fun p => set_milestones (alter f j <$> milestones p) p) l) w).
Proof. reflexivity. Qed.

Lemma bind_save {A} (k : unit -> M World A) w : bind save k w = k tt w.
Proof. reflexivity. Qed.

(** *** What a step leaves in place *)

#[local] Instance milestones_kept_refl : Reflexive milestones_kept.
Proof. intros w x p Hx. eauto. Qed.

#[local] Instance milestones_kept_trans : Transitive milestones_kept.
Proof.
  intros w1 w2 w3 H12 H23 x p Hx.
  destruct (H12 x p Hx) as (p2 & Hx2 & Hm2).
  destruct (H23 x p2 Hx2) as (p3 & Hx3 & Hm3).
  exists p3. split; [done|]. congruence.
Qed.

#[local] Instance tasks_kept_refl : Reflexive tasks_kept.
Proof. intros w x p Hx. eauto. Qed.

#[local] Instance tasks_kept_trans : Transitive tasks_kept.
Proof.
  intros w1 w2 w3 H12 H23 x p Hx.
  destruct (H12 x p Hx) as (p2 & Hx2 & Hm2).
  destruct (H23 x p2 Hx2) as (p3 & Hx3 & Hm3).
  exists p3. split; [done|]. congruence.
Qed.

Lemma milestones_kept_tasks_kept (w w' : World) :
  milestones_kept w w' -> tasks_kept w w'.
Proof.
  intros Hk x p Hx. destruct (Hk x p Hx) as (p' & Hx' & Hm).
  exists p'. split; [done|]. unfold tasks_of. by rewrite Hm.
Qed.

Lemma same_heap_kept (w w' : World) : heap w' = heap w -> milestones_kept w w'.
Proof. intros E x p Hx. rewrite E. eauto. Qed.

Lemma fresh_not_allocated (h : gmap loc Project) (x : loc) (p : Project) :
  h !! x = Some p -> fresh (dom h) <> x.
Proof.
  intros Hx <-. apply (is_fresh (dom h)). apply elem_of_dom. eauto.
Qed.

Ltac respects_step :=
  lazymatch goal with
  | |- respects ?R (bind _ _) => apply (respects_bind R); [|intros ?]
  | |- respects ?R (ret _) => apply (respects_ret R)
  | |- respects ?R (throw _) => apply (respects_throw R)
  | |- respects ?R get => apply (respects_get R)
  | |- respects _ (match ?x with _ => _ end) => destruct x
  | |- respects _ (if ?x then _ else _) => destruct x
  end.

Lemma kept_getProgressData : respects milestones_kept getProgressData.
Proof.
  intros w. apply same_heap_kept. unfold getProgressData.
  by destruct (progressData (storage w)).
Qed.

Lemma kept_getCurrentISOString : respects milestones_kept getCurrentISOString.
Proof. intros w. by apply same_heap_kept. Qed.

Lemma kept_deref l : respects milestones_kept (deref l).
Proof. intros w. apply same_heap_kept. unfold deref. by destruct (heap w !! l). Qed.

Lemma kept_emitM t d : respects milestones_kept (emitM t d).
Proof. intros w. by apply same_heap_kept. Qed.

Lemma kept_save : respects milestones_kept save.
Proof. intros w. by apply same_heap_kept. Qed.

Lemma kept_console_error l : respects milestones_kept (console_error l).
Proof. intros w. by apply same_heap_kept. Qed.

Lemma kept_with_storage f : respects milestones_kept (modify (with_storage f)).
Proof. intros w. by apply same_heap_kept. Qed.

Lemma kept_alloc p : respects milestones_kept (alloc p).
Proof.
  intros w x q Hx. simpl. exists q. split; [|done].
  rewrite lookup_insert_ne; [done|]. by eapply fresh_not_allocated.
Qed.

Lemma kept_modify_project l f :
  (forall p, milestones (f p) = milestones p) ->
  respects milestones_kept (modify_project l f).
Proof.
  intros Hf w x p Hx. simpl. rewrite lookup_alter.
  case_decide as E.
  - subst x. rewrite Hx. simpl. exists (f p). split; [done|]. apply Hf.
  - eauto.
Qed.

Lemma kept_read_milestone l j : respects milestones_kept (read_milestone l j).
Proof.
  unfold read_milestone. repeat (first [respects_step | apply kept_deref]).
Qed.

Lemma kept_read_task l j k : respects milestones_kept (read_task l j k).
Proof.
  unfold read_task. repeat (first [respects_step | apply kept_deref]).
Qed.

Lemma kept_updateProject l : respects milestones_kept (updateProject l).
Proof.
  unfold updateProject.
  repeat (first [ respects_step | apply kept_deref | apply kept_with_storage
                | apply kept_alloc ]).
Qed.

Lemma kept_updateProjectStatus pid : respects milestones_kept (updateProjectStatus pid).
Proof.
  unfold updateProjectStatus.
  repeat (first [ respects_step | apply kept_deref | apply kept_getProgressData
                | apply kept_updateProject | apply kept_getCurrentISOString
                | apply kept_save | apply kept_emitM
                | apply kept_modify_project; intros; done ]).
Qed.

Lemma weaken_respects {A} (c : M World A) :
  respects milestones_kept c -> respects tasks_kept c.
Proof. intros Hc w. apply milestones_kept_tasks_kept, Hc. Qed.

Lemma map_tasks_alter (f : Milestone -> Milestone) (j : nat) (ms : list Milestone) :
  (forall m, tasks (f m) = tasks m) ->
  map tasks (alter f j ms) = map tasks ms.
Proof.
  intros Hf. revert j. induction ms as [|m ms IH]; intros [|j]; simpl; try done.
  - by rewrite Hf.
  - f_equal. apply IH.
Qed.

Lemma tasks_kept_modify_milestone l j f :
  (forall m, tasks (f m) = tasks m) ->
  respects tasks_kept (modify_milestone l j f).
Proof.
  intros Hf w x p Hx. simpl. rewrite lookup_alter.
  case_decide as E; [|eauto].
  subst x. rewrite Hx. simpl. eexists. split; [done|].
  unfold tasks_of. simpl. destruct (milestones p) as [ms|]; simpl; [|done].
  f_equal. by apply map_tasks_alter.
Qed.

Lemma tasks_kept_updateMilestoneStatus pid mid :
  respects tasks_kept (updateMilestoneStatus pid mid).
Proof.
  unfold updateMilestoneStatus.
  repeat (first [ respects_step
                | apply tasks_kept_modify_milestone; intros; done
                | apply weaken_respects;
                  first [ apply kept_deref | apply kept_getProgressData
                        | apply kept_updateProject | apply kept_getCurrentISOString
                        | apply kept_save | apply kept_emitM
                        | apply kept_read_milestone
                        | apply kept_updateProjectStatus ] ]).
Qed.

(** *** The precedence rule, as the two methods branch on it *)

Lemma forallb_map {A B} (f : B -> bool) (g : A -> B) (l : list A) :
  forallb f (map g l) = forallb (fun x => f (g x)) l.
Proof. induction l as [|x l IH]; simpl; [done|]. by rewrite IH. Qed.

Lemma existsb_map {A B} (f : B -> bool) (g : A -> B) (l : list A) :
  existsb f (map g l) = existsb (fun x => f (g x)) l.
Proof. induction l as [|x l IH]; simpl; [done|]. by rewrite IH. Qed.

Lemma precedence_milestones (ms : list Milestone) :
  Spec.precedence (map milestoneStatus ms) =
    if Nat.eqb (length ms) 0 then NOT_STARTED
    else if forallb (is_milestoneStatus COMPLETED) ms then COMPLETED
    else if existsb (is_milestoneStatus IN_PROGRESS) ms then IN_PROGRESS
    else if existsb (is_milestoneStatus BLOCKED) ms then BLOCKED
    else NOT_STARTED.
Proof.
  unfold Spec.precedence. rewrite length_map, forallb_map, !existsb_map.
  by destruct ms.
Qed.

Lemma precedence_tasks (ts : list Task) :
  Spec.precedence (map status ts) =
    if Nat.eqb (length ts) 0 then NOT_STARTED
    else if forallb (is_status COMPLETED) ts then COMPLETED
    else if existsb (is_status IN_PROGRESS) ts then IN_PROGRESS
    else if existsb (is_status BLOCKED) ts then BLOCKED
    else NOT_STARTED.
Proof.
  unfold Spec.precedence. rewrite length_map, forallb_map, !existsb_map.
  by destruct ts.
Qed.

Lemma findi_lookup {A} (f : A -> bool) (l : list A) (i : nat) (x : A) :
  findi f l = Some (i, x) -> l !! i = Some x /\ f x = true.
Proof.
  revert i. induction l as [|y l IH]; intros i; simpl; [done|].
  destruct (f y) eqn:E.
  - by intros [= <- <-].
  - destruct (findi f l) as [[i' y']|]; [|done].
    intros [= <- <-]. simpl. by apply IH.
Qed.

(** *** [updateProject] *)

Lemma bind_updateProject {A} (k : unit -> M World A) (w : World) (l : loc) (p : Project) :
  heap w !! l = Some p ->
  exists w', bind (updateProject l) k w = k tt w' /\ heap_extends w w'.
Proof.
  intros Hl. unfold updateProject. rewrite bind_assoc, bind_get.
  destruct (progressData (storage w)) as [pd|] eqn:Hpd.
  2:{ rewrite bind_ret. eexists. split; [done|]. by intros x q. }
  rewrite bind_assoc, (bind_deref _ _ _ _ Hl), bind_assoc, bind_modify.
  destruct (findIndex _ _) as [i|].
  - rewrite bind_assoc. unfold alloc at 1. rewrite run_bind.
    rewrite bind_modify.
    eexists. split; [reflexivity|]. intros x q Hx. simpl.
    rewrite lookup_insert_ne; [done|]. by eapply fresh_not_allocated.
  - rewrite bind_ret. eexists. split; [reflexivity|]. by intros x q.
Qed.

(** *** The status written by [updateProjectStatus] and [updateMilestoneStatus] *)

Lemma updateProjectStatus_precedence (w : World) (pid : string) (pd : ProgressData)
    (l : loc) (p : Project) (ms : list Milestone) :
  progressData (storage w) = Some pd ->
  List.find (has_projectId (heap w) pid) (projects pd) = Some l ->
  heap w !! l = Some p ->
  milestones p = Some ms ->
  exists w' p',
    updateProjectStatus pid w = (Ok (Some l), w')
    /\ heap w' !! l = Some p'
    /\ projectStatus p' = Spec.precedence (map milestoneStatus ms)
    /\ milestones p' = Some ms.
Proof.
  intros Hpd Hfind Hl Hms. rewrite precedence_milestones.
  unfold updateProjectStatus.
  rewrite (bind_getProgressData _ _ _ Hpd), bind_get, Hfind.
  rewrite (bind_deref _ _ _ _ Hl), Hms.
  destruct (Nat.eqb (length ms) 0) eqn:Hlen.
  - rewrite bind_modify_project. simpl. eexists _, _. split; [reflexivity|]. simpl.
    by rewrite lookup_alter_eq, Hl.
  - set (s := if forallb (is_milestoneStatus COMPLETED) ms then COMPLETED
              else if existsb (is_milestoneStatus IN_PROGRESS) ms then IN_PROGRESS
              else if existsb (is_milestoneStatus BLOCKED) ms then BLOCKED
              else NOT_STARTED).
    match goal with
    | |- context [bind ?c _ w] =>
        replace c with (modify_project l (set_projectStatus s))
    end.
    2:{ unfold s. by repeat case_match. }
    rewrite bind_modify_project, bind_getCurrentISOString, bind_modify_project.
    match goal with |- context [bind (updateProject l) _ ?w2] => set (w2' := w2) end.
    assert (Hl2 : heap w2' !! l
                  = Some (set_updatedAt (isoStringAt (clock w))
                            (set_projectStatus s p))).
    { unfold w2'. simpl. by rewrite !lookup_alter_eq, Hl. }
    destruct (bind_updateProject
                (fun _ => save ;;
                          let* project' := deref l in
                          emitM PROJECT_UPDATED (ProjectData PROJECT_UPDATED project') ;;
                          ret (Some l)) w2' l _ Hl2) as (w3 & E & Hext).
    rewrite E. clear E.
    rewrite bind_save, (bind_deref _ _ _ _ (Hext _ _ Hl2)).
    eexists _, _. split; [reflexivity|]. simpl.
    split; [apply (Hext _ _ Hl2)|]. done.
Qed.

Lemma kept_after {A} (rest : M World A) (w2 : World) (l : loc) (p2 : Project) :
  respects milestones_kept rest ->
  heap w2 !! l = Some p2 ->
  exists p', heap (snd (rest w2)) !! l = Some p' /\ milestones p' = milestones p2.
Proof. intros Hr Hl. exact (Hr w2 l p2 Hl). Qed.

Lemma updateMilestoneStatus_precedence (w : World) (pid mid : string)
    (pd : ProgressData) (l : loc) (p : Project) (ms : list Milestone)
    (j : nat) (m : Milestone) :
  progressData (storage w) = Some pd ->
  List.find (has_projectId (heap w) pid) (projects pd) = Some l ->
  heap w !! l = Some p ->
  milestones p = Some ms ->
  findi (has_milestoneId mid) ms = Some (j, m) ->
  exists p' m',
    heap (snd (updateMilestoneStatus pid mid w)) !! l = Some p'
    /\ milestone_at p' j = Some m'
    /\ milestoneStatus m' = Spec.precedence (map status (tasks m))
    /\ tasks m' = tasks m.
Proof.
  intros Hpd Hfind Hl Hms Hj. rewrite precedence_tasks.
  destruct (findi_lookup _ _ _ _ Hj) as [Hmj _].
  unfold updateMilestoneStatus.
  rewrite (bind_getProgressData _ _ _ Hpd), bind_get, Hfind.
  rewrite (bind_deref _ _ _ _ Hl), Hms, Hj.
  assert (Hfin : forall {A} (rest : M World A) (w2 : World) (f : Milestone -> Milestone) s,
             respects milestones_kept rest ->
             heap w2 !! l
               = Some (set_milestones (alter f j <$> milestones p) p) ->
             milestoneStatus (f m) = s -> tasks (f m) = tasks m ->
             exists p' m',
               heap (snd (rest w2)) !! l = Some p'
               /\ milestone_at p' j = Some m'
               /\ milestoneStatus m' = s /\ tasks m' = tasks m).
  { intros A rest w2 f s Hr Hl2 Hs Ht.
    destruct (kept_after rest w2 l _ Hr Hl2) as (p' & Hp' & Hm').
    exists p', (f m). split; [done|]. split; [|done].
    unfold milestone_at. rewrite Hm'. simpl. rewrite Hms. simpl.
    by rewrite list_lookup_alter_eq, Hmj. }
  destruct (Nat.eqb (length (tasks m)) 0) eqn:Hlen.
  { rewrite bind_modify_milestone.
    apply (Hfin _ _ _ (set_milestoneStatus NOT_STARTED)); try done.
    - repeat (first [respects_step | apply kept_read_milestone]).
    - simpl. by rewrite lookup_alter_eq, Hl. }
  destruct (forallb (is_status COMPLETED) (tasks m)) eqn:Hall.
  { rewrite !bind_assoc, bind_modify_milestone.
    rewrite bind_assoc, bind_getCurrentISOString, bind_assoc, bind_modify_milestone.
    apply (Hfin _ _ _ (fun m0 => set_completedDate (isoStringAt (clock w))
                                   (set_milestoneStatus COMPLETED m0))); try done.
    - repeat (first [ respects_step | apply kept_read_milestone | apply kept_emitM
                    | apply kept_updateProject | apply kept_save
                    | apply kept_updateProjectStatus ]).
    - simpl. rewrite !lookup_alter_eq, Hl. simpl. rewrite Hms. simpl.
      by rewrite list_alter_alter_eq. }
  set (s := if existsb (is_status IN_PROGRESS) (tasks m) then IN_PROGRESS
            else if existsb (is_status BLOCKED) (tasks m) then BLOCKED
            else NOT_STARTED).
  match goal with
  | |- context [bind ?c _ w] =>
      replace c with (modify_milestone l j (set_milestoneStatus s))
  end.
  2:{ unfold s. by repeat case_match. }
  rewrite bind_modify_milestone.
  apply (Hfin _ _ _ (set_milestoneStatus s)); try done.
  - repeat (first [ respects_step | apply kept_read_milestone | apply kept_emitM
                  | apply kept_updateProject | apply kept_save
                  | apply kept_updateProjectStatus ]).
  - simpl. by rewrite lookup_alter_eq, Hl.
Qed.

(** *** The task written by [updateTaskStatus] *)

Lemma task_at_tasks_of (p : Project) (j k : nat) :
  task_at p j k = task_in (tasks_of p) j k.
Proof.
  unfold task_at, milestone_at, tasks_of.
  destruct (milestones p) as [ms|]; simpl; [|done].
  rewrite list_lookup_fmap. by destruct (ms !! j).
Qed.

Lemma holds_task_kept (l : loc) (j k : nat) (w w' : World) (t : Task) :
  tasks_kept w w' -> holds_task l j k w t -> holds_task l j k w' t.
Proof.
  intros Hk (p & Hl & Ht). destruct (Hk l p Hl) as (p' & Hl' & Hts).
  exists p'. split; [done|]. by rewrite task_at_tasks_of, Hts, <- task_at_tasks_of.
Qed.

Lemma bind_modify_task {A} (K : unit -> M World A) (l : loc) (j k : nat)
    (f : Task -> Task) (w : World) (t : Task) :
  holds_task l j k w t ->
  exists w1, bind (modify_task l j k f) K w = K tt w1
             /\ holds_task l j k w1 (f t) /\ clock w1 = clock w.
Proof.
  intros (p & Hl & Ht). eexists. split; [reflexivity|]. split; [|done].
  unfold holds_task. simpl. rewrite lookup_alter_eq, Hl. simpl.
  eexists. split; [reflexivity|].
  unfold task_at, milestone_at in *. simpl.
  destruct (milestones p) as [ms|]; simpl in *; [|done].
  rewrite list_lookup_alter_eq.
  destruct (ms !! j) as [m|]; simpl in *; [|done].
  by rewrite list_lookup_alter_eq, Ht.
Qed.

Lemma holds_task_with_clock (l : loc) (j k : nat) (w : World) (t : Task) f :
  holds_task l j k w t -> holds_task l j k (with_clock f w) t.
Proof. done. Qed.

Lemma tasks_kept_updateTaskStatus_tail (pid mid : string) (l : loc) (j k : nat)
    (new_status : Status) :
  respects tasks_kept
    (let* now := getCurrentISOString in
     modify_project l (set_updatedAt now) ;;
     updateProject l ;;
     save ;;
     let* t := read_task l j k in
     (if Status_eqb new_status IN_PROGRESS then
        emitM TASK_STARTED (TaskData TASK_STARTED t pid)
      else if Status_eqb new_status COMPLETED then
        emitM TASK_COMPLETED (TaskData TASK_COMPLETED t pid)
      else
        emitM TASK_UPDATED (TaskData TASK_UPDATED t pid)) ;;
     updateMilestoneStatus pid mid ;;
     let* t' := read_task l j k in
     ret (Some t')).
Proof.
  repeat (first [ respects_step
                | apply tasks_kept_updateMilestoneStatus
                | apply weaken_respects;
                  first [ apply kept_getCurrentISOString | apply kept_updateProject
                        | apply kept_save | apply kept_emitM | apply kept_read_task
                        | apply kept_modify_project; intros; done ] ]).
Qed.

Lemma updateTaskStatus_writes (w : World) (pid mid tid : string) (new_status : Status)
    (pd : ProgressData) (l : loc) (p : Project) (ms : list Milestone)
    (j : nat) (m : Milestone) (k : nat) (t : Task) :
  progressData (storage w) = Some pd ->
  List.find (has_projectId (heap w) pid) (projects pd) = Some l ->
  heap w !! l = Some p ->
  milestones p = Some ms ->
  findi (has_milestoneId mid) ms = Some (j, m) ->
  findi (has_taskId tid) (tasks m) = Some (k, t) ->
  holds_task l j k (snd (updateTaskStatus pid mid tid new_status w))
    (stamped (clock w) new_status t).
Proof.
  intros Hpd Hfind Hl Hms Hj Hk.
  destruct (findi_lookup _ _ _ _ Hj) as [Hmj _].
  destruct (findi_lookup _ _ _ _ Hk) as [Htk _].
  assert (H0 : holds_task l j k w t).
  { exists p. split; [done|]. unfold task_at, milestone_at. by rewrite Hms, Hmj. }
  unfold updateTaskStatus.
  rewrite (bind_getProgressData _ _ _ Hpd), bind_get, Hfind.
  rewrite (bind_deref _ _ _ _ Hl), Hms, Hj, Hk.
  pose proof (tasks_kept_updateTaskStatus_tail pid mid l j k new_status) as Htail.
  match type of Htail with respects _ ?c => set (tail := c) in * end.
  match goal with
  | |- context [bind (modify_task l j k (set_status new_status)) ?K w] =>
      destruct (bind_modify_task K l j k (set_status new_status) w t H0)
        as (w1 & E1 & H1 & C1)
  end.
  rewrite E1. clear E1. unfold stamped.
  destruct (Status_eqb (status t) NOT_STARTED && Status_eqb new_status IN_PROGRESS)
    eqn:Hstart.
  - rewrite bind_assoc, bind_getCurrentISOString, C1.
    apply (holds_task_with_clock _ _ _ _ _ S) in H1.
    match goal with
    | |- context [bind (modify_task l j k ?f) ?K ?w'] =>
        destruct (bind_modify_task K l j k f w' _ H1) as (w2 & E2 & H2 & C2)
    end.
    rewrite E2. clear E2.
    destruct (Status_eqb new_status COMPLETED) eqn:Hdone.
    + rewrite bind_assoc, bind_getCurrentISOString, C2. simpl clock. rewrite C1.
      apply (holds_task_with_clock _ _ _ _ _ S) in H2.
      rewrite bind_assoc.
      match goal with
      | |- context [bind (modify_task l j k ?f) ?K ?w'] =>
          destruct (bind_modify_task K l j k f w' _ H2) as (w3 & E3 & H3 & C3)
      end.
      rewrite E3. clear E3.
      match goal with
      | |- context [bind (modify_task l j k ?f) ?K ?w'] =>
          destruct (bind_modify_task K l j k f w' _ H3) as (w4 & E4 & H4 & C4)
      end.
      rewrite E4. clear E4.
      eapply holds_task_kept; [apply (Htail w4)|]. exact H4.
    + rewrite bind_ret.
      eapply holds_task_kept; [apply (Htail w2)|]. exact H2.
  - rewrite bind_ret.
    destruct (Status_eqb new_status COMPLETED) eqn:Hdone.
    + rewrite bind_assoc, bind_getCurrentISOString, C1.
      apply (holds_task_with_clock _ _ _ _ _ S) in H1.
      rewrite bind_assoc.
      match goal with
      | |- context [bind (modify_task l j k ?f) ?K ?w'] =>
          destruct (bind_modify_task K l j k f w' _ H1) as (w3 & E3 & H3 & C3)
      end.
      rewrite E3. clear E3.
      match goal with
      | |- context [bind (modify_task l j k ?f) ?K ?w'] =>
          destruct (bind_modify_task K l j k f w' _ H3) as (w4 & E4 & H4 & C4)
      end.
      rewrite E4. clear E4.
      eapply holds_task_kept; [apply (Htail w4)|]. exact H4.
    + rewrite bind_ret.
      eapply holds_task_kept; [apply (Htail w1)|]. exact H1.
Qed.

(** *** [updateStatistics] *)

Lemma fold_left_concat {A B} (f : B -> A -> B) (ls : list (list A)) (acc : B) :
  fold_left (fun a l => fold_left f l a) ls acc = fold_left f (concat ls) acc.
Proof.
  revert acc. induction ls as [|l ls IH]; intros acc; simpl; [done|].
  by rewrite fold_left_app, IH.
Qed.

Lemma fold_left_tasks {B} (step : B -> Task -> B) (ms : list Milestone) (acc : B) :
  fold_left (fun a m => fold_left step (tasks m) a) ms acc
  = fold_left step (concat (map tasks ms)) acc.
Proof.
  revert acc. induction ms as [|m ms IH]; intros acc; simpl; [done|].
  by rewrite fold_left_app, IH.
Qed.

Lemma for_tasks_all {B} (step : B -> Task -> B) (w : World) (ps : list loc)
    (ts : list Task) (acc : B) :
  Spec.all_tasks (heap w) ps = Some ts ->
  for_tasks ps step acc w = (Ok (fold_left step ts acc), w).
Proof.
  unfold for_tasks. revert ts acc.
  induction ps as [|l ps IH]; intros ts acc; simpl.
  - by intros [= <-].
  - destruct (heap w !! l) as [p|] eqn:Hl; [|done].
    destruct (milestones p) as [ms|] eqn:Hms; [|done].
    destruct (Spec.all_tasks (heap w) ps) as [ts'|]; [|done].
    intros [= <-].
    rewrite bind_assoc, (bind_deref _ _ _ _ Hl), Hms, bind_ret.
    rewrite (IH ts' _ eq_refl). by rewrite fold_left_app, fold_left_tasks.
Qed.

Lemma for_tasks_none {B} (step : B -> Task -> B) (w : World) (ps : list loc) (acc : B) :
  Spec.all_tasks (heap w) ps = None ->
  for_tasks ps step acc w = (Throw TypeError, w).
Proof.
  unfold for_tasks. revert acc.
  induction ps as [|l ps IH]; intros acc; simpl; [done|].
  unfold deref at 1. rewrite run_bind, run_bind.
  destruct (heap w !! l) as [p|] eqn:Hl; [|done].
  destruct (milestones p) as [ms|] eqn:Hms; [|done].
  destruct (Spec.all_tasks (heap w) ps) as [ts'|] eqn:E; [done|].
  intros _. simpl. by apply IH.
Qed.

Lemma count_task_fold (ts : list Task) (c : Counters) :
  fold_left count_task ts c =
  mkCounters (c_totalTasks c + Z.of_nat (length ts))
             (c_completedTasks c + Z.of_nat (length (Spec.completed ts)))
             (fold_left add (map estimatedPoints ts) (c_totalPoints c))
             (fold_left add
                (map (fun t => or_number (actualPoints t) (estimatedPoints t))
                     (Spec.completed ts))
                (c_earnedPoints c)).
Proof.
  revert c. induction ts as [|t ts IH]; intros c; simpl.
  - destruct c. simpl. f_equal; lia.
  - rewrite IH. unfold count_task, Spec.completed. simpl.
    destruct (Status_eqb (status t) COMPLETED); simpl; f_equal; lia.
Qed.

Lemma add_hours_step (acc : number) (t : Task) :
  add_hours acc t = if qualifies t then add acc (Spec.hours t) else acc.
Proof.
  unfold add_hours, qualifies, Spec.hours.
  destruct (Status_eqb (status t) COMPLETED); [|reflexivity].
  destruct (startTime t) as [[|? ?]|]; try reflexivity;
    destruct (endTime t) as [[|? ?]|]; reflexivity.
Qed.

Lemma timed_cons (t : Task) (ts : list Task) :
  Spec.timed (t :: ts) = if qualifies t then t :: Spec.timed ts else Spec.timed ts.
Proof.
  unfold Spec.timed, Spec.completed, qualifies. simpl.
  destruct (Status_eqb (status t) COMPLETED); [|reflexivity]. simpl.
  by destruct (Spec.is_set (startTime t) && Spec.is_set (endTime t)).
Qed.

Lemma add_hours_fold (ts : list Task) (acc : number) :
  fold_left add_hours ts acc = fold_left add (map Spec.hours (Spec.timed ts)) acc.
Proof.
  revert acc. induction ts as [|t ts IH]; intros acc; [done|].
  cbn [fold_left]. rewrite IH, timed_cons, add_hours_step.
  by destruct (qualifies t).
Qed.

Lemma bind_modify_statistics {A} (K : unit -> M World A) f w :
  bind (modify_statistics f) K w =
  K tt (with_storage (fun st =>
          with_progressData (with_statistics f <$> progressData st) st) w).
Proof. reflexivity. Qed.

Lemma updateStatistics_tail (w2 : World) (pd2 : ProgressData) :
  progressData (storage w2) = Some pd2 ->
  exists w',
    (let* pd' := getProgressData in
     setProgressData pd' ;;
     save ;;
     let* pd'' := getProgressData in
     emitM PROGRESS_UPDATED (ProgressUpdatedData PROGRESS_UPDATED pd'')) w2
    = (Ok tt, w')
    /\ heap w' = heap w2 /\ progressData (storage w') = Some pd2.
Proof.
  intros Hpd. rewrite (bind_getProgressData _ _ _ Hpd).
  unfold setProgressData. rewrite bind_modify, bind_save.
  erewrite bind_getProgressData by reflexivity.
  eexists. split; [reflexivity|]. by split.
Qed.

Lemma updateStatistics_recomputes (w : World) (ts : list Task) :
  Spec.all_tasks (heap w) (projects (Spec.current_data w)) = Some ts ->
  exists w',
    updateStatistics w = (Ok tt, w')
    /\ heap w' = heap w
    /\ progressData (storage w')
       = Some (with_statistics (fun st => recomputed st ts) (Spec.current_data w)).
Proof.
  intros Hall. unfold updateStatistics.
  set (pd := Spec.current_data w) in *.
  assert (Hget : exists w0, (forall A (K : ProgressData -> M World A),
                   bind getProgressData K w = K pd w0)
                 /\ heap w0 = heap w /\ progressData (storage w0) = Some pd).
  { unfold pd, Spec.current_data, getProgressData, bind.
    destruct (progressData (storage w)) as [pd0|] eqn:E; simpl.
    - exists w. rewrite E. by split.
    - eexists. split; [intros A K; reflexivity|]. by split. }
  destruct Hget as (w0 & Hrun & Hh0 & Hpd0). rewrite Hrun.
  rewrite <- Hh0 in Hall. rewrite <- Hh0.
  rewrite run_bind, (for_tasks_all _ _ _ _ _ Hall).
  rewrite count_task_fold. cbn [c_totalTasks c_completedTasks c_totalPoints c_earnedPoints].
  rewrite !Z.add_0_l. rewrite bind_modify_statistics.
  fold (Spec.sum (map estimatedPoints ts)).
  fold (Spec.sum (map (fun t => or_number (actualPoints t) (estimatedPoints t))
                      (Spec.completed ts))).
  fold (Spec.total_points ts). fold (Spec.earned_points ts).
  match goal with |- context [bind _ _ ?w1'] => set (w1 := w1') end.
  assert (Hh1 : heap w1 = heap w0) by done.
  assert (Hpd1 : progressData (storage w1)
                 = Some (with_statistics
                           (set_counters
                              (mkCounters (Z.of_nat (length ts))
                                 (Z.of_nat (length (Spec.completed ts)))
                                 (Spec.total_points ts) (Spec.earned_points ts))) pd)).
  { unfold w1. simpl. by rewrite Hpd0. }
  clearbody w1. rewrite <- Hh1. rewrite <- Hh1 in Hall.
  unfold recomputed.
  destruct (Z.of_nat (length (Spec.completed ts)) >? 0)%Z eqn:Hc.
  - rewrite bind_assoc, run_bind, (for_tasks_all _ _ _ _ _ Hall).
    rewrite add_hours_fold. fold (Spec.sum (map Spec.hours (Spec.timed ts))).
    fold (Spec.total_hours ts).
    assert (Hc' : (0 <? Z.of_nat (length (Spec.completed ts)))%Z = true) by lia.
    rewrite Hc'. simpl andb.
    destruct (gt0 (Spec.total_hours ts)) eqn:Hg.
    + rewrite bind_modify_statistics.
      match goal with |- context [bind _ _ ?w2'] => set (w2 := w2') end.
      destruct (updateStatistics_tail w2 _ ltac:(unfold w2; simpl; rewrite Hpd1; reflexivity))
        as (w' & E & Hh & Hp).
      exists w'. split; [exact E|]. split; [by rewrite Hh|]. by rewrite Hp.
    + rewrite bind_ret.
      destruct (updateStatistics_tail w1 _ Hpd1) as (w' & E & Hh & Hp).
      exists w'. split; [exact E|]. split; [by rewrite Hh|]. by rewrite Hp.
  - assert (Hc' : (0 <? Z.of_nat (length (Spec.completed ts)))%Z = false) by lia.
    rewrite Hc'. simpl andb. rewrite bind_ret.
    destruct (updateStatistics_tail w1 _ Hpd1) as (w' & E & Hh & Hp).
    exists w'. split; [exact E|]. split; [by rewrite Hh|]. by rewrite Hp.
Qed.


(** *** The guard of the division *)



Lemma earned_points_agree (ts : list Task) :
  Forall (fun t => Views.actual_counts t = true) (Spec.completed ts) ->
  Spec.earned_points ts = Spec.earned_points_nullish ts.
Proof.
  unfold Spec.earned_points, Spec.earned_points_nullish. intros Hts. f_equal.
  induction Hts as [|t ts' Ht _ IH]; simpl; [done|]. f_equal; [|done].
  unfold Views.actual_counts in Ht. unfold or_number, nullish_number.
  destruct (actualPoints t) as [x|]; [|done]. by rewrite Ht.
Qed.

Lemma updateMilestoneStatus_no_task (w : World) (pid mid : string)
    (pd : ProgressData) (l : loc) (p : Project) (ms : list Milestone)
    (j : nat) (m : Milestone) :
  progressData (storage w) = Some pd ->
  List.find (has_projectId (heap w) pid) (projects pd) = Some l ->
  heap w !! l = Some p ->
  milestones p = Some ms ->
  findi (has_milestoneId mid) ms = Some (j, m) ->
  tasks m = [] ->
  updateMilestoneStatus pid mid w
  = (Ok (Some (set_milestoneStatus NOT_STARTED m)),
     with_heap
       (alter (fun p0 => set_milestones
                 (alter (set_milestoneStatus NOT_STARTED) j <$> milestones p0) p0) l)
       w).
Proof.
  intros Hpd Hfind Hl Hms Hj Ht.
  destruct (findi_lookup _ _ _ _ Hj) as [Hmj _].
  unfold updateMilestoneStatus.
  rewrite (bind_getProgressData _ _ _ Hpd), bind_get, Hfind.
  rewrite (bind_deref _ _ _ _ Hl), Hms, Hj, Ht.
  change (Nat.eqb (length (@nil Task)) 0) with true. cbv iota.
  rewrite bind_modify_milestone. unfold read_milestone.
  rewrite bind_assoc. erewrite bind_deref.
  2:{ simpl. rewrite lookup_alter_eq, Hl. reflexivity. }
  unfold milestone_at. simpl. rewrite Hms. simpl.
  by rewrite list_lookup_alter_eq, Hmj.
Qed.

(** *** The claims on the manager *)

(** C1.  The status that [updateProjectStatus] writes to a project is the
    precedence rule applied to the statuses of its milestones, and the
    status that [updateMilestoneStatus] writes to a milestone is the same
    rule applied to the statuses of its tasks: Completed when there is at
    least one child and all are Completed, else InProgress when any child
    is InProgress, else Blocked when any child is Blocked, else NotStarted
    (also with no child).  [updateProjectStatus] returns the project, and
    [updateMilestoneStatus] returns the milestone when it has no task. *)
Theorem status_follows_precedence :
  forall (w : World) (pid : string) (pd : ProgressData) (l : loc) (p : Project)
         (ms : list Milestone),
    progressData (storage w) = Some pd ->
    List.find (has_projectId (heap w) pid) (projects pd) = Some l ->
    heap w !! l = Some p ->
    milestones p = Some ms ->
    (exists w' p',
        updateProjectStatus pid w = (Ok (Some l), w')
        /\ heap w' !! l = Some p'
        /\ projectStatus p' = Spec.precedence (map milestoneStatus ms)
        /\ milestones p' = Some ms)
    /\ (forall (mid : string) (j : nat) (m : Milestone),
          findi (has_milestoneId mid) ms = Some (j, m) ->
          exists p' m',
            heap (snd (updateMilestoneStatus pid mid w)) !! l = Some p'
            /\ milestone_at p' j = Some m'
            /\ milestoneStatus m' = Spec.precedence (map status (tasks m))
            /\ tasks m' = tasks m
            /\ (tasks m = [] ->
                fst (updateMilestoneStatus pid mid w) = Ok (Some m'))).
Proof.
  intros w pid pd l p ms Hpd Hfind Hl Hms. split.
  - by eapply updateProjectStatus_precedence.
  - intros mid j m Hj.
    destruct (updateMilestoneStatus_precedence w pid mid pd l p ms j m
                Hpd Hfind Hl Hms Hj) as (p' & m' & Hp' & Hm' & Hs & Ht).
    exists p', m'. repeat split; try done.
    intros Hnone.
    rewrite (updateMilestoneStatus_no_task w pid mid pd l p ms j m
               Hpd Hfind Hl Hms Hj Hnone) in Hp' |- *.
    simpl in Hp' |- *. rewrite lookup_alter_eq, Hl in Hp'. simpl in Hp'.
    injection Hp' as <-. unfold milestone_at in Hm'. simpl in Hm'.
    rewrite Hms in Hm'. simpl in Hm'.
    destruct (findi_lookup _ _ _ _ Hj) as [Hmj _].
    rewrite list_lookup_alter_eq, Hmj in Hm'. simpl in Hm'. congruence.
Qed.

(** C4 (amended).  [updateTaskStatus] has no transition table: whatever
    the present status of the task found and whatever the requested status,
    the task is given the requested status; [startTime] is stamped on
    NotStarted to InProgress only, and [endTime] and
    [actualPoints = estimatedPoints] are stamped whenever the requested
    status is Completed. *)
Theorem updateTaskStatus_writes_any_status :
  forall (w : World) (pid mid tid : string) (new_status : Status)
         (pd : ProgressData) (l : loc) (p : Project) (ms : list Milestone)
         (j : nat) (m : Milestone) (k : nat) (t : Task),
    progressData (storage w) = Some pd ->
    List.find (has_projectId (heap w) pid) (projects pd) = Some l ->
    heap w !! l = Some p ->
    milestones p = Some ms ->
    findi (has_milestoneId mid) ms = Some (j, m) ->
    findi (has_taskId tid) (tasks m) = Some (k, t) ->
    exists p' t',
      heap (snd (updateTaskStatus pid mid tid new_status w)) !! l = Some p'
      /\ task_at p' j k = Some t'
      /\ status t' = new_status
      /\ t' = stamped (clock w) new_status t
      /\ (new_status = COMPLETED ->
          actualPoints t' = Some (estimatedPoints t) /\ endTime t' <> None)
      /\ (new_status <> COMPLETED ->
          actualPoints t' = actualPoints t /\ endTime t' = endTime t)
      /\ (startTime t' =
          if Status_eqb (status t) NOT_STARTED && Status_eqb new_status IN_PROGRESS
          then Some (isoStringAt (clock w)) else startTime t).
Proof.
  intros w pid mid tid new_status pd l p ms j m k t Hpd Hfind Hl Hms Hj Hk.
  destruct (updateTaskStatus_writes w pid mid tid new_status pd l p ms j m k t
              Hpd Hfind Hl Hms Hj Hk) as (p' & Hl' & Ht').
  exists p', (stamped (clock w) new_status t).
  split; [done|]. split; [done|]. unfold stamped.
  destruct t as [? ? ? st ? ? ? ? ?]; simpl.
  destruct st, new_status; simpl; repeat split; intros; try done.
Qed.

(** C5 (amended).  After [updateStatistics], [totalTasks] counts all the
    tasks, [completedTasks] counts the Completed ones, [totalPoints] sums
    [estimatedPoints] over all the tasks, and [earnedPoints] sums
    [actualPoints || estimatedPoints] over the Completed ones: an
    [actualPoints] that is absent, [0] or [NaN] is replaced by
    [estimatedPoints]; when no Completed task has such an [actualPoints],
    this is the sum of [actualPoints ?? estimatedPoints]. *)
Theorem updateStatistics_counts :
  forall (w : World) (ts : list Task),
    Spec.all_tasks (heap w) (projects (Spec.current_data w)) = Some ts ->
    exists w' pd',
      updateStatistics w = (Ok tt, w')
      /\ progressData (storage w') = Some pd'
      /\ totalTasks (statistics pd') = Z.of_nat (length ts)
      /\ completedTasks (statistics pd') = Z.of_nat (length (Spec.completed ts))
      /\ totalPoints (statistics pd') = Spec.total_points ts
      /\ earnedPoints (statistics pd') = Spec.earned_points ts
      /\ (Forall (fun t => actual_counts t = true) (Spec.completed ts) ->
          earnedPoints (statistics pd') = Spec.earned_points_nullish ts).
Proof.
  intros w ts Hall.
  destruct (updateStatistics_recomputes w ts Hall) as (w' & E & _ & Hpd').
  eexists _, _. split; [exact E|]. split; [exact Hpd'|]. simpl.
  repeat split. apply earned_points_agree.
Qed.


End ManagerFacts.

(** *** Instances and counterexamples on the manager *)

(** The examples of the specification for the precedence rule. *)
Example precedence_examples :
  Spec.precedence [Progress.COMPLETED; Progress.COMPLETED; Progress.IN_PROGRESS]
    = Progress.IN_PROGRESS
  /\ Spec.precedence [Progress.COMPLETED; Progress.BLOCKED] = Progress.BLOCKED
  /\ Spec.precedence [] = Progress.NOT_STARTED
  /\ Spec.precedence [Progress.COMPLETED; Progress.COMPLETED] = Progress.COMPLETED
  /\ Spec.precedence [Progress.BLOCKED; Progress.IN_PROGRESS] = Progress.IN_PROGRESS
  /\ Spec.precedence [Progress.NOT_STARTED; Progress.COMPLETED] = Progress.NOT_STARTED.
Proof. repeat split. Qed.

Lemma status_follows_precedence_witness :
  Progress.progressData (Progress.storage Demo.mixed_world)
    = Some (Progress.mkProgressData [1%positive] ["p1"%string]
              (Progress.mkStatistics 0 0 (of_Z 0) (of_Z 0) (of_Z 2)))
  /\ exists p' m',
       Progress.heap
         (snd (@Progress.updateMilestoneStatus Demo.platform "p1" "m1"
                 Demo.mixed_world)) !! 1%positive = Some p'
       /\ Progress.milestone_at p' 0 = Some m'
       /\ Progress.milestoneStatus m' = Progress.IN_PROGRESS.
Proof.
  split; [reflexivity|].
  destruct (@status_follows_precedence Demo.platform Demo.mixed_world "p1"
              _ 1%positive _ _ eq_refl eq_refl eq_refl eq_refl) as [_ Hm].
  destruct (Hm "m1"%string 0 _ eq_refl) as (p' & m' & H1 & H2 & H3 & _).
  exists p', m'. split; [exact H1|]. split; [exact H2|]. exact H3.
Defined.

(** In the sources the cascade does not get past the storage:
    [updateProject] replaces the entry of [progressData.projects] by an
    object without [milestones], and the lookup that follows, in
    [updateProjectStatus] or [updateMilestoneStatus], throws on it.  The
    statuses are written before that. *)
Example cascade_stops_at_projectBase :
  fst (@Progress.updateMilestoneStatus Demo.platform "p1" "m1" Demo.mixed_world)
    = Throw TypeError
  /\ fst (@Progress.updateTaskStatus Demo.platform "p1" "m1" "t1"
            Progress.IN_PROGRESS Demo.new_task_world)
    = Throw TypeError.
Proof. split; vm_compute; reflexivity. Qed.

Lemma updateTaskStatus_writes_any_status_witness :
  Progress.progressData (Progress.storage Demo.new_task_world)
    = Some (Progress.mkProgressData [1%positive] ["p1"%string]
              (Progress.mkStatistics 0 0 (of_Z 0) (of_Z 0) (of_Z 2)))
  /\ exists p' t',
       Progress.heap
         (snd (@Progress.updateTaskStatus Demo.platform "p1" "m1" "t1"
                 Progress.IN_PROGRESS Demo.new_task_world)) !! 1%positive = Some p'
       /\ Progress.task_at p' 0 0 = Some t'
       /\ Progress.status t' = Progress.IN_PROGRESS
       /\ Progress.startTime t' = Some "T0"%string.
Proof.
  split; [reflexivity|].
  destruct (@updateTaskStatus_writes_any_status Demo.platform
              Demo.new_task_world "p1" "m1" "t1" Progress.IN_PROGRESS
              _ 1%positive _ _ 0 _ 0 _ eq_refl eq_refl eq_refl eq_refl eq_refl eq_refl)
    as (p' & t' & H1 & H2 & H3 & _ & _ & _ & H4).
  exists p', t'. split; [exact H1|]. split; [exact H2|]. split; [exact H3|]. exact H4.
Defined.

(** C4 (counterexample).  A task that is NotStarted is asked to become
    Completed, a transition outside the table: the request is not rejected,
    and the task is Completed afterwards. *)
Lemma updateTaskStatus_accepts_not_started_to_completed :
  (Progress.heap
     (snd (@Progress.updateTaskStatus Demo.platform "p1" "m1" "t1"
             Progress.COMPLETED Demo.new_task_world)) !! 1%positive)
    ≫= (fun p => Progress.task_at p 0 0)
  = Some (Progress.mkTask "t1" "task" None Progress.COMPLETED Progress.MUST
            (of_Z 2) (Some (of_Z 2)) None (Some "T0"%string)).
Proof. vm_compute. reflexivity. Qed.

Lemma updateStatistics_counts_witness :
  Spec.all_tasks (Progress.heap Demo.done_world)
    (Progress.projects (Spec.current_data Demo.done_world))
    = Some Demo.done_tasks
  /\ exists w' pd',
       @Progress.updateStatistics Demo.platform Demo.done_world = (Ok tt, w')
       /\ Progress.progressData (Progress.storage w') = Some pd'
       /\ Progress.totalTasks (Progress.statistics pd') = 3%Z
       /\ Progress.completedTasks (Progress.statistics pd') = 3%Z
       /\ Progress.totalPoints (Progress.statistics pd') = of_Z 10
       /\ Progress.earnedPoints (Progress.statistics pd') = of_Z 10.
Proof.
  split; [reflexivity|].
  destruct (@updateStatistics_counts Demo.platform Demo.done_world
              Demo.done_tasks eq_refl)
    as (w' & pd' & E & Hpd & H1 & H2 & H3 & H4 & _).
  exists w', pd'. split; [exact E|]. split; [exact Hpd|].
  split; [exact H1|]. split; [exact H2|]. split; [exact H3|]. exact H4.
Defined.

(** C5 (counterexample).  One Completed task of 3 estimated points whose
    [actualPoints] is present and is [0]: it contributes 3 to
    [earnedPoints], where [actualPoints ?? estimatedPoints] is 0. *)
Lemma updateStatistics_zero_actualPoints :
  (Progress.earnedPoints ∘ Progress.statistics)
    <$> Progress.progressData
          (Progress.storage
             (snd (@Progress.updateStatistics Demo.platform
                     Demo.zero_actual_world)))
    = Some (of_Z 3)
  /\ Spec.earned_points_nullish [Demo.zero_actual] = of_Z 0.
Proof. split; vm_compute; reflexivity. Qed.



(** With no Completed task the average keeps the configured seed. *)
Example average_keeps_seed :
  (Progress.averagePointsPerHour ∘ Progress.statistics)
    <$> Progress.progressData
          (Progress.storage
             (snd (@Progress.updateStatistics Demo.platform
                     Demo.new_task_world)))
    = Some (of_Z 2).
Proof. vm_compute. reflexivity. Qed.

(** ** The event stores *)

Section StoreFacts.
Import Store StoreReads StoreViews.
Context `{Platform} `{Json}.

(** *** Heap primitives *)

Lemma bind_read_array {A} (K : list loc -> M World A) (w : World) (l : loc) (a : list loc) :
  arrays w !! l = Some a -> bind (read_array l) K w = K a w.
Proof. intros E. unfold bind, read_array. by rewrite E. Qed.

Lemma bind_read_event {A} (K : ProgressEvent -> M World A) (w : World) (l : loc)
    (e : ProgressEvent) :
  objects w !! l = Some e -> bind (read_event l) K w = K e w.
Proof. intros E. unfold bind, read_event. by rewrite E. Qed.

Lemma bind_new_array {A} (K : loc -> M World A) (w : World) (a : list loc) :
  bind (new_array a) K w
  = K (fresh (dom (arrays w))) (with_arrays (insert (fresh (dom (arrays w))) a) w).
Proof. reflexivity. Qed.

Lemma bind_push {A} (K : unit -> M World A) (w : World) (l : loc) (a items : list loc) :
  arrays w !! l = Some a ->
  bind (push l items) K w = K tt (with_arrays (insert l (a ++ items)) w).
Proof.
  intros E. unfold push. by rewrite bind_assoc, (bind_read_array _ _ _ _ E), bind_modify.
Qed.

Lemma fresh_array (w : World) : arrays w !! fresh (dom (arrays w)) = None.
Proof. apply not_elem_of_dom, is_fresh. Qed.

Lemma fresh_object (w : World) : objects w !! fresh (dom (objects w)) = None.
Proof. apply not_elem_of_dom, is_fresh. Qed.

(** *** [filter] and [find] leave the state alone *)

Lemma filter_events_state (f : ProgressEvent -> Res bool) (a : list loc) (w : World) :
  snd (filter_events f a w) = w
  /\ forall kept, fst (filter_events f a w) = Ok kept -> sublist kept a.
Proof.
  induction a as [|l a IH]; simpl.
  - split; [done|]. intros kept [= <-]. constructor.
  - unfold bind, read_event.
    destruct (objects w !! l) as [e|]; [|done].
    destruct (f e) as [keep|err]; [|done].
    destruct IH as [IHs IHk].
    destruct (filter_events f a w) as [[rest|err] w'] eqn:E; simpl in *; subst w'.
    + split; [done|]. intros kept [= <-]. specialize (IHk rest eq_refl).
      destruct keep; by constructor.
    + done.
Qed.

Lemma find_event_state (f : ProgressEvent -> bool) (a : list loc) (w : World) :
  snd (find_event f a w) = w
  /\ forall l, fst (find_event f a w) = Ok (Some l) ->
       l ∈ a /\ exists e, objects w !! l = Some e /\ f e = true.
Proof.
  induction a as [|l a IH]; simpl.
  - split; [done|]. by intros l.
  - unfold bind, read_event.
    destruct (objects w !! l) as [e|] eqn:El; [|done].
    destruct (f e) eqn:Ef; simpl.
    + split; [done|]. intros l' [= <-]. split; [apply list_elem_of_here|]. eauto.
    + destruct IH as [IHs IHk]. split; [done|].
      intros l' Hl'. destruct (IHk l' Hl') as [Hin He].
      split; [by apply list_elem_of_further|done].
Qed.


Lemma try_catch_ok {S A} (c : M S A) (h : Error -> M S A) (s s' : S) (a : A) :
  c s = (Ok a, s') -> try_catch c h s = (Ok a, s').
Proof. intros E. unfold try_catch. by rewrite E. Qed.

Lemma try_catch_throw {S A} (c : M S A) (h : Error -> M S A) (s s' : S) (e : Error) :
  c s = (Throw e, s') -> try_catch c h s = h e s'.
Proof. intros E. unfold try_catch. by rewrite E. Qed.

(** *** [initialize] *)

Ltac run_store :=
  unfold FileEventStore.initialize, FileEventStore.loadEvents,
    FileEventStore.appendEventToFile, FileEventStore.appendEventsToFile,
    stat_dir, mkdir, stat_file, readTextFile, appendTextFile, writeTextFile,
    new_array, new_event, push, read_array, read_event, console_error,
    try_catch, bind, ret, throw, get, modify;
  simpl.

Lemma initialize_initialized (w : World) :
  initialized w = true -> FileEventStore.initialize w = (Ok tt, w).
Proof.
  intros Hi. unfold FileEventStore.initialize. by rewrite bind_get, Hi.
Qed.

Lemma initialize_fresh (w : World) :
  fresh_store w ->
  exists w1,
    FileEventStore.initialize w = (Ok tt, w1)
    /\ initialized w1 = true
    /\ memory w1 = Some []
    /\ objects w1 = objects w
    /\ (forall l a, arrays w !! l = Some a -> arrays w1 !! l = Some a)
    /\ dir_exists (fs w1) = true
    /\ file (fs w1) = None
    /\ healthy (fs w1)
    /\ console w1 = console w
    /\ arrays w !! events w1 = None.
Proof.
  intros (Hi & Hev & Hfile & Hs & Hm & Hr & Hw).
  destruct w as [objs arrs [d f sf mf rf wf] ev ini con clk uu].
  simpl in *. subst.
  assert (Hfresh : forall l a, arrs !! l = Some a ->
                     <[fresh (dom arrs) := []]> arrs !! l = Some a).
  { intros l a Hl. rewrite lookup_insert_ne; [done|].
    intros <-. by rewrite (not_elem_of_dom_1 _ _ (is_fresh (dom arrs))) in Hl. }
  unfold memory.
  assert (Hnone : arrs !! fresh (dom arrs) = None).
  { apply not_elem_of_dom, is_fresh. }
  destruct d.
  - eexists. split; [run_store; reflexivity|]. simpl.
    rewrite lookup_insert_eq. by repeat split.
  - eexists. split; [run_store; reflexivity|]. simpl.
    rewrite lookup_insert_eq. by repeat split.
Qed.


(** *** [saveEvent], [saveEvents] and [getAllEvents] of the file store *)

Lemma appendEventToFile_run (w : World) (e : loc) (ev : ProgressEvent) :
  objects w !! e = Some ev ->
  FileEventStore.appendEventToFile e w =
    if write_fails (fs w) then (Throw IOError, logged (SaveFailed IOError) w)
    else if dir_exists (fs w) then (Ok tt, appended (line_of ev) w)
    else (Throw NotFound, logged (SaveFailed NotFound) w).
Proof.
  intros Hobj. unfold FileEventStore.appendEventToFile, try_catch.
  rewrite (bind_read_event _ _ _ _ Hobj).
  destruct w as [o ar [d f sf mf rf wf] evl ini con clk uu].
  run_store. by destruct wf, d.
Qed.

Lemma stringify_all_ok (w : World) (items : list loc) (es : list ProgressEvent) :
  Forall2 (fun l e => objects w !! l = Some e) items es ->
  FileEventStore.stringify_all items w = (Ok (map JSON_stringify es), w).
Proof.
  induction 1 as [|l e items es Hl _ IH]; simpl; [done|].
  by rewrite (bind_read_event _ _ _ _ Hl), (run_bind_ok _ _ _ _ _ IH).
Qed.

Lemma appendEventsToFile_run (w : World) (evs : loc) (items : list loc)
    (es : list ProgressEvent) :
  arrays w !! evs = Some items ->
  Forall2 (fun l e => objects w !! l = Some e) items es ->
  FileEventStore.appendEventsToFile evs w =
    if write_fails (fs w) then (Throw IOError, logged (SaveFailed IOError) w)
    else if dir_exists (fs w) then (Ok tt, appended (lines_of es) w)
    else (Throw NotFound, logged (SaveFailed NotFound) w).
Proof.
  intros Harr Hobj. unfold FileEventStore.appendEventsToFile, try_catch.
  rewrite (bind_read_array _ _ _ _ Harr).
  rewrite (run_bind_ok _ _ _ _ _ (stringify_all_ok w items es Hobj)).
  destruct w as [o ar [d f sf mf rf wf] evl ini con clk uu].
  run_store. by destruct wf, d.
Qed.

Lemma saveEvent_run (w w1 : World) (e : loc) (a : list loc) (ev : ProgressEvent) :
  FileEventStore.initialize w = (Ok tt, w1) ->
  memory w1 = Some a ->
  objects w1 !! e = Some ev ->
  FileEventStore.saveEvent e w =
    if write_fails (fs w1)
    then (Throw IOError, logged (SaveFailed IOError) (pushed [e] w1))
    else if dir_exists (fs w1)
    then (Ok e, appended (line_of ev) (pushed [e] w1))
    else (Throw NotFound, logged (SaveFailed NotFound) (pushed [e] w1)).
Proof.
  intros Hinit Hmem Hobj. unfold FileEventStore.saveEvent.
  rewrite (run_bind_ok _ _ _ _ _ Hinit), bind_get, (bind_push _ _ _ _ _ Hmem).
  rewrite run_bind.
  rewrite (appendEventToFile_run _ e ev) by done.
  unfold pushed. rewrite Hmem. simpl.
  by destruct (write_fails (fs w1)), (dir_exists (fs w1)).
Qed.

Lemma saveEvents_run (w w1 : World) (evs : loc) (a items : list loc)
    (es : list ProgressEvent) :
  FileEventStore.initialize w = (Ok tt, w1) ->
  memory w1 = Some a ->
  arrays w1 !! evs = Some items ->
  evs <> events w1 ->
  Forall2 (fun l e => objects w1 !! l = Some e) items es ->
  FileEventStore.saveEvents evs w =
    if write_fails (fs w1)
    then (Throw IOError, logged (SaveFailed IOError) (pushed items w1))
    else if dir_exists (fs w1)
    then (Ok evs, appended (lines_of es) (pushed items w1))
    else (Throw NotFound, logged (SaveFailed NotFound) (pushed items w1)).
Proof.
  intros Hinit Hmem Harr Hne Hobj. unfold FileEventStore.saveEvents.
  rewrite (run_bind_ok _ _ _ _ _ Hinit), (bind_read_array _ _ _ _ Harr).
  rewrite bind_get, (bind_push _ _ _ _ _ Hmem).
  rewrite run_bind.
  rewrite (appendEventsToFile_run _ evs items es).
  - unfold pushed. rewrite Hmem. simpl.
    by destruct (write_fails (fs w1)), (dir_exists (fs w1)).
  - simpl. by rewrite lookup_insert_ne.
  - done.
Qed.

Lemma getAllEvents_run (w w1 : World) (a : list loc) :
  FileEventStore.initialize w = (Ok tt, w1) ->
  memory w1 = Some a ->
  FileEventStore.getAllEvents w
  = (Ok (fresh (dom (arrays w1))),
     with_arrays (insert (fresh (dom (arrays w1))) a) w1).
Proof.
  intros Hinit Hmem. unfold FileEventStore.getAllEvents.
  by rewrite (run_bind_ok _ _ _ _ _ Hinit), bind_get, (bind_read_array _ _ _ _ Hmem).
Qed.


Lemma saveEvent_ready (w w1 : World) (e : loc) (a : list loc) (ev : ProgressEvent) :
  FileEventStore.initialize w = (Ok tt, w1) ->
  ready w1 ->
  memory w1 = Some a ->
  objects w1 !! e = Some ev ->
  exists w2,
    FileEventStore.saveEvent e w = (Ok e, w2)
    /\ ready w2
    /\ memory w2 = Some (a ++ [e])
    /\ objects w2 = objects w1
    /\ file (fs w2) = Some (default EmptyString (file (fs w1)) ++ line_of ev)%string.
Proof.
  intros Hinit (Hi & Hd & Hw) Hmem Hobj.
  rewrite (saveEvent_run w w1 e a ev Hinit Hmem Hobj), Hw, Hd.
  eexists. split; [reflexivity|].
  unfold ready, memory, appended, pushed. rewrite Hmem. simpl.
  rewrite lookup_insert_eq. by repeat split.
Qed.

Lemma ready_initialize (w : World) : ready w -> FileEventStore.initialize w = (Ok tt, w).
Proof. intros (Hi & _). by apply initialize_initialized. Qed.

Lemma fresh_ready (w : World) :
  fresh_store w ->
  exists w1,
    FileEventStore.initialize w = (Ok tt, w1)
    /\ ready w1
    /\ memory w1 = Some []
    /\ objects w1 = objects w
    /\ (forall l a, arrays w !! l = Some a -> arrays w1 !! l = Some a)
    /\ arrays w !! events w1 = None.
Proof.
  intros Hf.
  destruct (initialize_fresh w Hf)
    as (w1 & E & Hi & Hm & Ho & Ha & Hd & _ & (_ & _ & _ & Hw) & _ & Hn).
  exists w1. by repeat split.
Qed.

(** *** The in-memory store *)

Lemma mem_saveEvent_run (w : World) (e : loc) (a : list loc) :
  memory w = Some a ->
  InMemoryEventStore.saveEvent e w = (Ok e, pushed [e] w).
Proof.
  intros Hmem. unfold InMemoryEventStore.saveEvent, pushed.
  by rewrite bind_get, (bind_push _ _ _ _ _ Hmem), Hmem.
Qed.

Lemma mem_saveEvents_run (w : World) (evs : loc) (a items : list loc) :
  memory w = Some a ->
  arrays w !! evs = Some items ->
  InMemoryEventStore.saveEvents evs w = (Ok evs, pushed items w).
Proof.
  intros Hmem Harr. unfold InMemoryEventStore.saveEvents, pushed.
  by rewrite (bind_read_array _ _ _ _ Harr), bind_get, (bind_push _ _ _ _ _ Hmem), Hmem.
Qed.

Lemma memory_pushed (w : World) (a items : list loc) :
  memory w = Some a -> memory (pushed items w) = Some (a ++ items).
Proof.
  intros Hmem. unfold pushed, memory in *. rewrite Hmem. simpl.
  by rewrite lookup_insert_eq.
Qed.

Lemma mem_getAllEvents_content (w : World) (a : list loc) :
  memory w = Some a ->
  (let* r := InMemoryEventStore.getAllEvents in read_array r) w
  = (Ok a, with_arrays (insert (fresh (dom (arrays w))) a) w).
Proof.
  intros Hmem. unfold InMemoryEventStore.getAllEvents.
  rewrite bind_assoc, bind_get. cbv beta.
  rewrite bind_assoc, (bind_read_array _ _ _ _ Hmem), bind_new_array.
  unfold read_array. simpl. by rewrite lookup_insert_eq.
Qed.

Lemma getAllEvents_content (w : World) (a : list loc) :
  ready w -> memory w = Some a ->
  (let* r := FileEventStore.getAllEvents in read_array r) w
  = (Ok a, with_arrays (insert (fresh (dom (arrays w))) a) w).
Proof.
  intros Hr Hmem.
  rewrite (run_bind_ok _ _ _ _ _ (getAllEvents_run w w a (ready_initialize w Hr) Hmem)).
  unfold read_array. simpl. by rewrite lookup_insert_eq.
Qed.

(** C6.  On a store that was just constructed, saving the events [e1],
    [e2], [e3] in this order, one by one with [saveEvent] or together with
    [saveEvents], and then calling [getAllEvents], returns an array that
    holds exactly [e1], [e2], [e3] in this order; this holds for the
    in-memory store and, over a directory without events file on a disk
    that works, for the file store. *)
Theorem save_then_getAllEvents :
  forall (w : World) (e1 e2 e3 : loc) (ev1 ev2 ev3 : ProgressEvent),
    memory w = Some [] ->
    objects w !! e1 = Some ev1 ->
    objects w !! e2 = Some ev2 ->
    objects w !! e3 = Some ev3 ->
    fst ((InMemoryEventStore.saveEvent e1 ;;
          InMemoryEventStore.saveEvent e2 ;;
          InMemoryEventStore.saveEvent e3 ;;
          let* r := InMemoryEventStore.getAllEvents in read_array r) w)
      = Ok [e1; e2; e3]
    /\ (forall evs, arrays w !! evs = Some [e1; e2; e3] ->
        fst ((InMemoryEventStore.saveEvents evs ;;
              let* r := InMemoryEventStore.getAllEvents in read_array r) w)
          = Ok [e1; e2; e3])
    /\ (fresh_store w ->
        fst ((FileEventStore.saveEvent e1 ;;
              FileEventStore.saveEvent e2 ;;
              FileEventStore.saveEvent e3 ;;
              let* r := FileEventStore.getAllEvents in read_array r) w)
          = Ok [e1; e2; e3])
    /\ (fresh_store w ->
        forall evs, arrays w !! evs = Some [e1; e2; e3] ->
        fst ((FileEventStore.saveEvents evs ;;
              let* r := FileEventStore.getAllEvents in read_array r) w)
          = Ok [e1; e2; e3]).
Proof.
  intros w e1 e2 e3 ev1 ev2 ev3 Hmem H1 H2 H3. split; [|split; [|split]].
  - rewrite (run_bind_ok _ _ _ _ _ (mem_saveEvent_run w e1 [] Hmem)).
    pose proof (memory_pushed w [] [e1] Hmem) as Hm1.
    rewrite (run_bind_ok _ _ _ _ _ (mem_saveEvent_run _ e2 _ Hm1)).
    pose proof (memory_pushed _ _ [e2] Hm1) as Hm2.
    rewrite (run_bind_ok _ _ _ _ _ (mem_saveEvent_run _ e3 _ Hm2)).
    pose proof (memory_pushed _ _ [e3] Hm2) as Hm3.
    by rewrite (mem_getAllEvents_content _ _ Hm3).
  - intros evs Harr.
    rewrite (run_bind_ok _ _ _ _ _ (mem_saveEvents_run w evs [] _ Hmem Harr)).
    pose proof (memory_pushed w [] [e1; e2; e3] Hmem) as Hm1.
    by rewrite (mem_getAllEvents_content _ _ Hm1).
  - intros Hf. destruct (fresh_ready w Hf) as (w1 & Hinit & Hr1 & Hm1 & Ho1 & _).
    rewrite <- Ho1 in H1, H2, H3.
    destruct (saveEvent_ready w w1 e1 [] ev1 Hinit Hr1 Hm1 H1)
      as (w2 & E2 & Hr2 & Hm2 & Ho2 & _).
    rewrite (run_bind_ok _ _ _ _ _ E2). rewrite <- Ho2 in H2, H3.
    destruct (saveEvent_ready w2 w2 e2 _ ev2 (ready_initialize _ Hr2) Hr2 Hm2 H2)
      as (w3 & E3 & Hr3 & Hm3 & Ho3 & _).
    rewrite (run_bind_ok _ _ _ _ _ E3). rewrite <- Ho3 in H3.
    destruct (saveEvent_ready w3 w3 e3 _ ev3 (ready_initialize _ Hr3) Hr3 Hm3 H3)
      as (w4 & E4 & Hr4 & Hm4 & Ho4 & _).
    rewrite (run_bind_ok _ _ _ _ _ E4).
    by rewrite (getAllEvents_content _ _ Hr4 Hm4).
  - intros Hf evs Harr.
    destruct (fresh_ready w Hf) as (w1 & Hinit & Hr1 & Hm1 & Ho1 & Ha1 & Hn1).
    assert (Hne : evs <> events w1).
    { intros ->. by rewrite Hn1 in Harr. }
    assert (Hobj : Forall2 (fun l e => objects w1 !! l = Some e)
                     [e1; e2; e3] [ev1; ev2; ev3]).
    { rewrite Ho1. by repeat constructor. }
    destruct Hr1 as (Hi1 & Hd1 & Hw1).
    rewrite (run_bind_ok _ _ _ _ _
               (eq_trans (saveEvents_run w w1 evs [] _ _ Hinit Hm1 (Ha1 _ _ Harr) Hne Hobj)
                         ltac:(rewrite Hw1, Hd1; reflexivity))).
    rewrite (getAllEvents_content _ ([] ++ [e1; e2; e3])); [done| |].
    + by repeat split.
    + exact (memory_pushed w1 [] [e1; e2; e3] Hm1).
Qed.


Lemma initialize_ok_initialized (w w1 : World) :
  FileEventStore.initialize w = (Ok tt, w1) -> initialized w1 = true.
Proof.
  unfold FileEventStore.initialize. rewrite bind_get.
  destruct (initialized w) eqn:Hi.
  - by intros [= <-].
  - unfold try_catch at 1.
    match goal with |- context [bind ?X (fun _ => bind ?Y _)] =>
      set (x := X); set (y := Y) end.
    unfold bind. destruct (x w) as [[[]|e1] s1]; [|done].
    destruct (y s1) as [[[]|e2] s2]; [|done].
    by intros [= <-].
Qed.

(** C2 (amended).  When the append to the events file fails, [saveEvent]
    and [saveEvents] raise the error and log it, and the events stay in the
    in-memory list: the list, and what [getAllEvents] returns afterwards,
    hold the events of the failed call after the earlier ones; the file is
    unchanged. *)
Theorem failed_append_stays_in_memory :
  forall (w w1 : World) (a : list loc),
    FileEventStore.initialize w = (Ok tt, w1) ->
    memory w1 = Some a ->
    write_fails (fs w1) = true ->
    (forall (e : loc) (ev : ProgressEvent),
        objects w1 !! e = Some ev ->
        exists w2,
          FileEventStore.saveEvent e w = (Throw IOError, w2)
          /\ memory w2 = Some (a ++ [e])
          /\ file (fs w2) = file (fs w1)
          /\ console w2 = console w1 ++ [SaveFailed IOError]
          /\ fst ((let* r := FileEventStore.getAllEvents in read_array r) w2)
             = Ok (a ++ [e]))
    /\ (forall (evs : loc) (items : list loc) (es : list ProgressEvent),
          arrays w1 !! evs = Some items ->
          evs <> events w1 ->
          Forall2 (fun l e => objects w1 !! l = Some e) items es ->
          exists w2,
            FileEventStore.saveEvents evs w = (Throw IOError, w2)
            /\ memory w2 = Some (a ++ items)
            /\ file (fs w2) = file (fs w1)
            /\ console w2 = console w1 ++ [SaveFailed IOError]
            /\ fst ((let* r := FileEventStore.getAllEvents in read_array r) w2)
               = Ok (a ++ items)).
Proof.
  intros w w1 a Hinit Hmem Hw.
  pose proof (initialize_ok_initialized w w1 Hinit) as Hi.
  assert (Hread : forall items l,
             fst ((let* r := FileEventStore.getAllEvents in read_array r)
                    (logged l (pushed items w1))) = Ok (a ++ items)).
  { intros items l.
    assert (Hm2 : memory (logged l (pushed items w1)) = Some (a ++ items)).
    { exact (memory_pushed w1 a items Hmem). }
    rewrite (run_bind_ok _ _ _ _ _
               (getAllEvents_run _ _ _
                  (initialize_initialized (logged l (pushed items w1)) Hi) Hm2)).
    unfold read_array. simpl. by rewrite lookup_insert_eq. }
  split.
  - intros e ev Hobj.
    rewrite (saveEvent_run w w1 e a ev Hinit Hmem Hobj), Hw.
    eexists. split; [reflexivity|].
    split; [exact (memory_pushed w1 a [e] Hmem)|]. by repeat split.
  - intros evs items es Harr Hne Hobj.
    rewrite (saveEvents_run w w1 evs a items es Hinit Hmem Harr Hne Hobj), Hw.
    eexists. split; [reflexivity|].
    split; [exact (memory_pushed w1 a items Hmem)|]. by repeat split.
Qed.


(** *** [loadEvents] *)

Lemma parse_lines_ok (lines : list string) (evs : list ProgressEvent) (w : World) :
  Forall2 (fun line e => JSON_parse line = Some e) lines evs ->
  exists ls w',
    FileEventStore.parse_lines lines w = (Ok ls, w')
    /\ Forall2 (fun l e => objects w' !! l = Some e) ls evs
    /\ (forall l e, objects w !! l = Some e -> objects w' !! l = Some e)
    /\ same_but_objects w w'.
Proof.
  intros Hall. revert w.
  induction Hall as [|line e lines evs Hp _ IH]; intros w; simpl.
  - exists [], w. by repeat split.
  - unfold FileEventStore.parse_line. rewrite Hp.
    unfold new_event at 1. rewrite run_bind.
    set (l0 := fresh (dom (objects w))).
    destruct (IH (with_objects (insert l0 e) w)) as (ls & w' & E & Hobj & Hext & Hsame).
    rewrite (run_bind_ok _ _ _ _ _ E).
    exists (l0 :: ls), w'. split; [done|].
    assert (Hl0 : objects w' !! l0 = Some e).
    { apply Hext. simpl. by rewrite lookup_insert_eq. }
    split; [by constructor|]. split; [|exact Hsame].
    intros l e' Hl. apply Hext. simpl. rewrite lookup_insert_ne; [done|].
    intros <-. unfold l0 in Hl. by rewrite fresh_object in Hl.
Qed.

Lemma parse_lines_fail (lines : list string) (w : World) :
  Exists (fun line => JSON_parse line = None) lines ->
  exists w',
    FileEventStore.parse_lines lines w = (Throw SyntaxError, w')
    /\ same_but_objects w w'.
Proof.
  revert w. induction lines as [|line lines IH]; intros w Hex; simpl.
  - inversion Hex.
  - unfold FileEventStore.parse_line.
    destruct (JSON_parse line) as [e|] eqn:Hp.
    + assert (Hex' : Exists (fun line => JSON_parse line = None) lines).
      { inversion Hex; subst; [congruence|done]. }
      unfold new_event at 1. rewrite run_bind.
      destruct (IH (with_objects (insert (fresh (dom (objects w))) e) w) Hex')
        as (w' & E & Hsame).
      rewrite (run_bind_throw _ _ _ _ _ E). by exists w'.
    + exists w. by repeat split.
Qed.

Lemma loadEvents_run (w : World) (content : string) :
  file (fs w) = Some content ->
  read_fails (fs w) = false ->
  (Exists (fun line => JSON_parse line = None) (event_lines content) ->
   exists w',
     FileEventStore.loadEvents w = (Ok tt, w')
     /\ memory w' = Some []
     /\ console w' = console w ++ [LoadFailed SyntaxError]
     /\ fs w' = fs w /\ initialized w' = initialized w)
  /\ (forall evs,
        Forall2 (fun line e => JSON_parse line = Some e) (event_lines content) evs ->
        exists w' a,
          FileEventStore.loadEvents w = (Ok tt, w')
          /\ memory w' = Some a
          /\ events_of w' a = map Some evs
          /\ console w' = console w
          /\ fs w' = fs w /\ initialized w' = initialized w).
Proof.
  intros Hfile Hread.
  assert (Hrd : forall A (K : string -> M World A),
             bind readTextFile K w = K content w).
  { intros A K. unfold readTextFile. by rewrite bind_assoc, bind_get, Hread, Hfile. }
  unfold FileEventStore.loadEvents, try_catch. rewrite Hrd.
  fold FileEventStore.not_blank. change (List.filter FileEventStore.not_blank
    (split_lines (trim content))) with (event_lines content).
  split.
  - intros Hex. destruct (parse_lines_fail _ w Hex) as (w' & E & Ha & Hf & He & Hi & Hc).
    rewrite (run_bind_throw _ _ _ _ _ E).
    eexists. split; [reflexivity|]. unfold memory. simpl.
    rewrite lookup_insert_eq. by rewrite Hc, Hf, Hi.
  - intros evs Hall.
    destruct (parse_lines_ok _ evs w Hall)
      as (ls & w' & E & Hobj & _ & Ha & Hf & He & Hi & Hc).
    rewrite (run_bind_ok _ _ _ _ _ E).
    eexists _, ls. split; [reflexivity|]. unfold memory, events_of. simpl.
    rewrite lookup_insert_eq. split; [done|]. split; [|by rewrite Hc, Hf, Hi].
    clear E Hall. induction Hobj as [|l e ls evs Hl _ IH]; simpl; [done|].
    by rewrite Hl, IH.
Qed.

Lemma initialize_loads (w : World) (content : string) :
  initialized w = false ->
  dir_exists (fs w) = true ->
  file (fs w) = Some content ->
  stat_fails (fs w) = false ->
  FileEventStore.initialize w
  = (let (r, w') := FileEventStore.loadEvents w in (r, with_initialized true w')).
Proof.
  intros Hi Hd Hfile Hs. unfold FileEventStore.initialize. rewrite bind_get, Hi.
  assert (Hsd : stat_dir w = (Ok tt, w)).
  { unfold stat_dir. by rewrite bind_get, Hs, Hd. }
  assert (Hsf : stat_file w = (Ok tt, w)).
  { unfold stat_file. by rewrite bind_get, Hs, Hfile. }
  assert (Hok : exists w', FileEventStore.loadEvents w = (Ok tt, w')).
  { unfold FileEventStore.loadEvents, try_catch.
    destruct (bind readTextFile _ w) as [[[]|e] w']; eauto. }
  destruct Hok as (w' & E). rewrite E.
  apply try_catch_ok.
  rewrite (run_bind_ok _ _ _ _ _ (try_catch_ok _ _ _ _ _ Hsd)).
  assert (E2 : (stat_file ;; FileEventStore.loadEvents) w = (Ok tt, w')).
  { by rewrite (run_bind_ok _ _ _ _ _ Hsf). }
  by rewrite (run_bind_ok _ _ _ _ _ (try_catch_ok _ _ _ _ _ E2)).
Qed.

(** C3 (amended).  Loading the events file is never fatal.  When every
    non-blank line parses, the in-memory list holds the events of these
    lines in order.  When some non-blank line fails to parse, the error is
    reported once and the in-memory list is empty: the events of the valid
    lines are not retained either. *)
Theorem corrupt_line_empties_the_load :
  forall (w : World) (content : string),
    initialized w = false ->
    dir_exists (fs w) = true ->
    file (fs w) = Some content ->
    stat_fails (fs w) = false ->
    read_fails (fs w) = false ->
    (Exists (fun line => JSON_parse line = None) (event_lines content) ->
     exists w',
       FileEventStore.initialize w = (Ok tt, w')
       /\ initialized w' = true
       /\ memory w' = Some []
       /\ console w' = console w ++ [LoadFailed SyntaxError])
    /\ (forall evs,
          Forall2 (fun line e => JSON_parse line = Some e) (event_lines content) evs ->
          exists w' a,
            FileEventStore.initialize w = (Ok tt, w')
            /\ initialized w' = true
            /\ memory w' = Some a
            /\ events_of w' a = map Some evs
            /\ console w' = console w).
Proof.
  intros w content Hi Hd Hfile Hs Hr.
  rewrite (initialize_loads w content Hi Hd Hfile Hs).
  destruct (loadEvents_run w content Hfile Hr) as [Hbad Hgood]. split.
  - intros Hex. destruct (Hbad Hex) as (w' & E & Hm & Hc & _).
    rewrite E. eexists. split; [reflexivity|]. by repeat split.
  - intros evs Hall. destruct (Hgood evs Hall) as (w' & a & E & Hm & He & Hc & _).
    rewrite E. eexists _, a. split; [reflexivity|]. by repeat split.
Qed.


(** *** The dependency events *)

Lemma createTaskDependencyAddedEvent_run (w : World) (taskId dependsOnTaskId : string) :
  EventDefinitions.createTaskDependencyAddedEvent taskId dependsOnTaskId w
  = (Ok (fresh (dom (objects w))),
     with_objects
       (insert (fresh (dom (objects w)))
          (mkEvent (uuidAt (uuids w)) (eventTypeName TASK_DEPENDENCY_ADDED)
             (isoStringAt (clock w)) 1
             (JObj [("taskId"%string, JStr taskId);
                    ("dependsOnTaskId"%string, JStr dependsOnTaskId)])))
       (with_clock S (with_uuids S w))).
Proof. reflexivity. Qed.

Lemma dependency_edge_created (i ts a b : string) :
  dependency_edge
    (mkEvent i (eventTypeName TASK_DEPENDENCY_ADDED) ts 1
       (JObj [("taskId"%string, JStr a); ("dependsOnTaskId"%string, JStr b)]))
  = Some (a, b).
Proof. reflexivity. Qed.

(** C8 (amended).  Neither [createTaskDependencyAddedEvent] nor [saveEvent]
    looks at the dependency graph: on a store in use, whatever the events
    already saved and whatever the two task identifiers, the event is
    created, appended to the in-memory list and written to the file, and
    the call returns it. *)
Theorem dependency_event_is_appended :
  forall (w : World) (a : list loc) (taskId dependsOnTaskId : string),
    ready w ->
    memory w = Some a ->
    exists e ev w',
      save_dependency taskId dependsOnTaskId w = (Ok e, w')
      /\ memory w' = Some (a ++ [e])
      /\ objects w' !! e = Some ev
      /\ dependency_edge ev = Some (taskId, dependsOnTaskId)
      /\ file (fs w') = Some (default EmptyString (file (fs w)) ++ line_of ev)%string.
Proof.
  intros w a taskId dependsOnTaskId Hr Hmem. unfold save_dependency.
  rewrite run_bind, createTaskDependencyAddedEvent_run.
  match goal with |- context [FileEventStore.saveEvent ?e0 ?w0'] =>
    set (e := e0); set (w0 := w0') end.
  assert (Hr0 : ready w0) by exact Hr.
  assert (Hobj : objects w0 !! e
                 = Some (mkEvent (uuidAt (uuids w)) (eventTypeName TASK_DEPENDENCY_ADDED)
                           (isoStringAt (clock w)) 1
                           (JObj [("taskId"%string, JStr taskId);
                                  ("dependsOnTaskId"%string, JStr dependsOnTaskId)]))).
  { unfold w0. simpl. by rewrite lookup_insert_eq. }
  destruct (saveEvent_ready w0 w0 e a _ (ready_initialize _ Hr0) Hr0 Hmem Hobj)
    as (w' & E & _ & Hm' & Ho' & Hf').
  eexists e, _, w'. split; [exact E|]. split; [exact Hm'|].
  split; [rewrite Ho'; exact Hobj|].
  split; [apply dependency_edge_created|exact Hf'].
Qed.

(** *** The reads *)

Lemma filtered_read_new_array (f : ProgressEvent -> Res bool) (w : World) (a : list loc) :
  ready w ->
  memory w = Some a ->
  returns_new_array
    (FileEventStore.initialize ;;
     let* w0 := get in
     let* a0 := read_array (events w0) in
     let* kept := filter_events f a0 in
     new_array kept) w a.
Proof.
  intros Hr Hmem r w'.
  rewrite (run_bind_ok _ _ _ _ _ (ready_initialize w Hr)), bind_get.
  rewrite (bind_read_array _ _ _ _ Hmem), run_bind.
  destruct (filter_events_state f a w) as [Hs Hk].
  destruct (filter_events f a w) as [[kept|err] w0]; simpl in Hs; subst w0; [|done].
  unfold new_array. intros [= <- <-].
  split; [apply fresh_array|].
  split.
  { exists kept. simpl. rewrite lookup_insert_eq. split; [done|]. by apply Hk. }
  split; [done|].
  intros items. unfold memory, caller_sets_array. simpl.
  rewrite insert_insert_eq, lookup_insert_ne; [done|].
  intros Heq. unfold memory in Hmem. by rewrite <- Heq, fresh_array in Hmem.
Qed.


Lemma filter_events_total (f : ProgressEvent -> Res bool) (a : list loc) (w : World) :
  allocated w a ->
  (exists kept, filter_events f a w = (Ok kept, w))
  \/ (exists err e, filter_events f a w = (Throw err, w) /\ f e = Throw err).
Proof.
  induction 1 as [|l a [e Hl] _ IH]; simpl.
  - left. by exists [].
  - rewrite (bind_read_event _ _ _ _ Hl).
    destruct (f e) as [keep|err] eqn:Hf; [|right; by exists err, e].
    destruct IH as [[kept E]|(err & e' & E & He)].
    + left. rewrite (run_bind_ok _ _ _ _ _ E). by eexists.
    + right. rewrite (run_bind_throw _ _ _ _ _ E). by exists err, e'.
Qed.

Lemma filtered_read_total (f : ProgressEvent -> Res bool) (w : World) (a : list loc) :
  ready w ->
  memory w = Some a ->
  allocated w a ->
  (forall e err, f e = Throw err -> err = TypeError) ->
  returns_or_TypeError
    (FileEventStore.initialize ;;
     let* w0 := get in
     let* a0 := read_array (events w0) in
     let* kept := filter_events f a0 in
     new_array kept) w.
Proof.
  intros Hr Hmem Hall Hf. unfold returns_or_TypeError.
  rewrite (run_bind_ok _ _ _ _ _ (ready_initialize w Hr)), bind_get.
  rewrite (bind_read_array _ _ _ _ Hmem).
  destruct (filter_events_total f a w Hall) as [[kept E]|(err & e & E & He)].
  - left. rewrite (run_bind_ok _ _ _ _ _ E). by eexists _, _.
  - right. rewrite (run_bind_throw _ _ _ _ _ E). by rewrite (Hf e err He).
Qed.

Lemma filtered_read_returns (f : ProgressEvent -> Res bool) (w : World) (a : list loc) :
  ready w ->
  memory w = Some a ->
  allocated w a ->
  (forall e, exists b, f e = Ok b) ->
  exists r w',
    (FileEventStore.initialize ;;
     let* w0 := get in
     let* a0 := read_array (events w0) in
     let* kept := filter_events f a0 in
     new_array kept) w = (Ok r, w').
Proof.
  intros Hr Hmem Hall Hf.
  rewrite (run_bind_ok _ _ _ _ _ (ready_initialize w Hr)), bind_get.
  rewrite (bind_read_array _ _ _ _ Hmem).
  destruct (filter_events_total f a w Hall) as [[kept E]|(err & e & E & He)].
  - rewrite (run_bind_ok _ _ _ _ _ E). by eexists _, _.
  - destruct (Hf e) as [b Hb]. congruence.
Qed.

Lemma own_id_is_error (k : string) (v : jsval) (x : string) (err : Error) :
  FileEventStore.own_id_is k v x = Throw err -> err = TypeError.
Proof.
  unfold FileEventStore.own_id_is, has_property.
  destruct v; intros; simplify_eq; done.
Qed.

Lemma nested_id_is_error (outer inner : string) (v : jsval) (x : string) (err : Error) :
  FileEventStore.nested_id_is outer inner v x = Throw err -> err = TypeError.
Proof.
  unfold FileEventStore.nested_id_is.
  destruct (has_property outer v) as [[]|e] eqn:E.
  - destruct (truthy _); [apply own_id_is_error|done].
  - done.
  - intros [= <-]. unfold has_property in E. destruct v; simplify_eq; done.
Qed.

Lemma first_true_error (tests : list (Res bool)) (err : Error) :
  Forall (fun t => forall e, t = Throw e -> e = TypeError) tests ->
  first_true tests = Throw err -> err = TypeError.
Proof.
  induction 1 as [|t tests Ht _ IH]; simpl; [done|].
  destruct t as [[]|e]; [done|exact IH|]. intros [= <-]. by apply Ht.
Qed.

Lemma relates_to_error (x : string) (e : ProgressEvent) (err : Error) :
  FileEventStore.relates_to x e = Throw err -> err = TypeError.
Proof.
  unfold FileEventStore.relates_to. destruct (negb (truthy (payload e))); [done|].
  apply first_true_error.
  repeat constructor; intros e0;
    first [apply own_id_is_error | apply nested_id_is_error].
Qed.

(** C9 (amended).  The reads that return an array ([getAllEvents],
    [getEventsByEntityId], [getEventsByTimeRange], [getEventsByType])
    return a new array, so that changing the returned array does not change
    the list of the store.  On an initialised store whose list holds
    event objects, [getAllEvents], [getEventsByTimeRange] and
    [getEventsByType] do return, and [getEventsByEntityId] returns unless
    the [in] operator meets a payload that is not an object.  The copy is
    shallow: the array holds the references of the store, [getEventById]
    returns one of them, and a change made to an event object through such
    a reference shows in the list of the store. *)
Theorem reads_copy_the_array_only :
  forall (w : World) (a : list loc),
    ready w ->
    memory w = Some a ->
    allocated w a ->
    (returns_new_array FileEventStore.getAllEvents w a
     /\ exists r w', FileEventStore.getAllEvents w = (Ok r, w'))
    /\ (forall entityId,
          returns_new_array (FileEventStore.getEventsByEntityId entityId) w a
          /\ returns_or_TypeError (FileEventStore.getEventsByEntityId entityId) w)
    /\ (forall startTime endTime,
          returns_new_array (FileEventStore.getEventsByTimeRange startTime endTime) w a
          /\ exists r w',
               FileEventStore.getEventsByTimeRange startTime endTime w = (Ok r, w'))
    /\ (forall eventType,
          returns_new_array (FileEventStore.getEventsByType eventType) w a
          /\ exists r w', FileEventStore.getEventsByType eventType w = (Ok r, w'))
    /\ (forall eventId,
          exists found,
            FileEventStore.getEventById eventId w = (Ok found, w)
            /\ forall l, found = Some l -> In l a)
    /\ (forall l e',
          In l a ->
          memory (caller_sets_event l e' w) = Some a
          /\ In (Some e') (events_of (caller_sets_event l e' w) a)).
Proof.
  intros w a Hr Hmem Hall. split; [|split; [|split; [|split; [|split]]]].
  - split; [|rewrite (getAllEvents_run w w a (ready_initialize w Hr) Hmem);
              by eexists _, _].
    intros r w'. rewrite (getAllEvents_run w w a (ready_initialize w Hr) Hmem).
    intros [= <- <-]. split; [apply fresh_array|]. split.
    { exists a. simpl. by rewrite lookup_insert_eq. }
    split; [done|]. intros items. unfold memory, caller_sets_array. simpl.
    rewrite insert_insert_eq, lookup_insert_ne; [done|].
    intros Heq. unfold memory in Hmem. by rewrite <- Heq, fresh_array in Hmem.
  - intros entityId. split; [by apply filtered_read_new_array|].
    apply (filtered_read_total _ w a Hr Hmem Hall). intros e err.
    apply relates_to_error.
  - intros startTime endTime. split; [by apply filtered_read_new_array|].
    apply (filtered_read_returns _ w a Hr Hmem Hall). intros e. by eexists.
  - intros eventType. split; [by apply filtered_read_new_array|].
    apply (filtered_read_returns _ w a Hr Hmem Hall). intros e. by eexists.
  - intros eventId. unfold FileEventStore.getEventById.
    rewrite (run_bind_ok _ _ _ _ _ (ready_initialize w Hr)), bind_get.
    rewrite (bind_read_array _ _ _ _ Hmem).
    destruct (find_event_state (has_id eventId) a w) as [Hs Hf].
    assert (Hok : exists found, fst (find_event (has_id eventId) a w) = Ok found).
    { clear Hs Hf Hmem. induction Hall as [|l a' [e Hl] _ IH]; simpl; [by eexists|].
      rewrite (bind_read_event _ _ _ _ Hl). destruct (has_id eventId e); [by eexists|].
      exact IH. }
    destruct Hok as [found Hfound].
    destruct (find_event (has_id eventId) a w) as [r w0]. simpl in *. subst.
    exists found. split; [done|]. intros l ->.
    apply list_elem_of_In. by apply (Hf l).
  - intros l e' Hin. split; [done|].
    unfold events_of, caller_sets_event. simpl.
    apply in_map_iff. exists l. split; [|done]. by rewrite lookup_insert_eq.
Qed.

End StoreFacts.

(** *** Instances and counterexamples on the stores *)

Section StoreInstances.
#[local] Existing Instance Demo.platform.
#[local] Existing Instance Demo.json.

Lemma save_then_getAllEvents_witness :
  StoreViews.memory Demo.three_events_store = Some []
  /\ fst ((FileEventStore.saveEvent 1%positive ;;
           FileEventStore.saveEvent 2%positive ;;
           FileEventStore.saveEvent 3%positive ;;
           let* r := FileEventStore.getAllEvents in Store.read_array r)
            Demo.three_events_store)
     = Ok [1%positive; 2%positive; 3%positive]
  /\ fst ((FileEventStore.saveEvents 2%positive ;;
           let* r := FileEventStore.getAllEvents in Store.read_array r)
            Demo.three_events_store)
     = Ok [1%positive; 2%positive; 3%positive].
Proof.
  split; [reflexivity|].
  destruct (save_then_getAllEvents Demo.three_events_store
              1%positive 2%positive 3%positive _ _ _ eq_refl eq_refl eq_refl eq_refl)
    as (_ & _ & Hone & Hall).
  split.
  - apply Hone. by repeat split.
  - apply Hall; [by repeat split|reflexivity].
Defined.

(** C2 (counterexample).  The disk refuses the write: [saveEvent] raises
    the error, and [getAllEvents], which returned no event before the
    call, returns the event after it. *)
Lemma failed_saveEvent_is_not_rolled_back :
  fst ((let* r := FileEventStore.getAllEvents in Store.read_array r)
         Demo.three_events_disk_full) = Ok []
  /\ fst (FileEventStore.saveEvent 1%positive
            Demo.three_events_disk_full) = Throw IOError
  /\ fst ((let* r := FileEventStore.getAllEvents in Store.read_array r)
            (snd (FileEventStore.saveEvent 1%positive
                    Demo.three_events_disk_full)))
     = Ok [1%positive].
Proof. repeat split; vm_compute; reflexivity. Qed.

Lemma failed_append_stays_in_memory_witness :
  Store.write_fails (Store.fs Demo.three_events_disk_full) = true
  /\ exists w2,
       FileEventStore.saveEvent 1%positive Demo.three_events_disk_full
         = (Throw IOError, w2)
       /\ StoreViews.memory w2 = Some [1%positive].
Proof.
  split; [reflexivity|].
  set (w1 := snd (FileEventStore.initialize Demo.three_events_disk_full)).
  destruct (failed_append_stays_in_memory
              Demo.three_events_disk_full w1 [])
    as [Hone _]; [vm_compute; reflexivity..|].
  destruct (Hone 1%positive _ eq_refl) as (w2 & E & Hm & _).
  exists w2. split; [exact E|exact Hm].
Defined.

(** C3 (counterexample).  The events file holds ten valid lines and one
    malformed line: the load reports the error and keeps none of the ten
    valid events. *)
Lemma corrupt_line_loses_the_valid_events :
  length (omap Store.JSON_parse
            (StoreViews.event_lines Demo.log_with_corrupt_line)) = 10
  /\ fst ((let* r := FileEventStore.getAllEvents in Store.read_array r)
            (Demo.store_over Demo.log_with_corrupt_line))
     = Ok []
  /\ Store.console
       (snd (FileEventStore.initialize
               (Demo.store_over Demo.log_with_corrupt_line)))
     = [Store.LoadFailed SyntaxError].
Proof. repeat split; vm_compute; reflexivity. Qed.

Lemma corrupt_line_empties_the_load_witness :
  Store.file (Store.fs (Demo.store_over Demo.log_with_corrupt_line))
    = Some Demo.log_with_corrupt_line
  /\ exists w',
       FileEventStore.initialize (Demo.store_over Demo.log_with_corrupt_line)
         = (Ok tt, w')
       /\ StoreViews.memory w' = Some []
       /\ Store.console w' = [Store.LoadFailed SyntaxError].
Proof.
  split; [reflexivity|].
  destruct (corrupt_line_empties_the_load
              (Demo.store_over Demo.log_with_corrupt_line)
              Demo.log_with_corrupt_line eq_refl eq_refl eq_refl eq_refl eq_refl)
    as [Hbad _].
  destruct Hbad as (w' & E & _ & Hm & Hc).
  - apply List.Exists_exists. exists "{ corrupt"%string. split; [|reflexivity].
    vm_compute. do 4 right. left. reflexivity.
  - exists w'. split; [exact E|]. split; [exact Hm|exact Hc].
Defined.

(** The store after the dependencies T1 on T2 and T2 on T3 were saved. *)
Lemma two_dependencies_saved :
  StoreViews.dependency_edges
    (StoreViews.events_of
       (snd ((StoreViews.save_dependency "T1" "T2" ;;
              StoreViews.save_dependency "T2" "T3") Demo.new_store))
       [1%positive; 2%positive])
  = [("T1", "T2"); ("T2", "T3")]%string.
Proof. vm_compute. reflexivity. Qed.

(** C8 (counterexample).  With the edges from T1 to T2 and from T2 to T3
    in the log, the edge from T3 to T1 closes a cycle; saving it raises no
    error, and the log holds the three events afterwards. *)
Lemma cyclic_dependency_is_saved :
  StoreViews.closes_cycle [("T1", "T2"); ("T2", "T3")]%string "T3" "T1"
  /\ fst ((StoreViews.save_dependency "T1" "T2" ;;
           StoreViews.save_dependency "T2" "T3" ;;
           StoreViews.save_dependency "T3" "T1") Demo.new_store)
     = Ok 3%positive
  /\ fst ((StoreViews.save_dependency "T1" "T2" ;;
           StoreViews.save_dependency "T2" "T3" ;;
           StoreViews.save_dependency "T3" "T1" ;;
           let* r := FileEventStore.getAllEvents in Store.read_array r)
            Demo.new_store)
     = Ok [1%positive; 2%positive; 3%positive].
Proof.
  split.
  - right. apply (StoreViews.reaches_step _ "T1" "T2" "T3")%string.
    + left. reflexivity.
    + apply StoreViews.reaches_edge. right. left. reflexivity.
  - split; vm_compute; reflexivity.
Qed.

Lemma dependency_event_is_appended_witness :
  StoreViews.memory Demo.store_in_use = Some [1%positive]
  /\ exists e ev w',
       StoreViews.save_dependency "T3" "T1" Demo.store_in_use = (Ok e, w')
       /\ StoreViews.memory w' = Some [1%positive; e]
       /\ Store.objects w' !! e = Some ev
       /\ StoreViews.dependency_edge ev = Some ("T3", "T1")%string.
Proof.
  split; [reflexivity|].
  destruct (dependency_event_is_appended Demo.store_in_use [1%positive]
              "T3" "T1")
    as (e & ev & w' & E & Hm & Ho & Hd & _); [by repeat split|reflexivity|].
  exists e, ev, w'. split; [exact E|]. split; [exact Hm|]. split; [exact Ho|exact Hd].
Defined.

(** C9 (counterexample).  The caller changes the identifier of the event
    object that [getAllEvents] handed out: [getEventById], which found the
    event before, does not find it any more. *)
Lemma returned_event_is_the_stored_one :
  fst ((let* r := FileEventStore.getAllEvents in Store.read_array r)
         Demo.store_in_use) = Ok [1%positive]
  /\ fst (FileEventStore.getEventById "a" Demo.store_in_use) = Ok (Some 1%positive)
  /\ fst (FileEventStore.getEventById "a"
            (StoreViews.caller_sets_event 1%positive (Demo.event "z")
               (snd (FileEventStore.getAllEvents Demo.store_in_use))))
     = Ok None.
Proof. repeat split; vm_compute; reflexivity. Qed.

Lemma reads_copy_the_array_only_witness :
  StoreViews.memory Demo.store_in_use = Some [1%positive]
  /\ StoreViews.returns_new_array FileEventStore.getAllEvents
       Demo.store_in_use [1%positive]
  /\ In (Some (Demo.event "z"))
       (StoreViews.events_of
          (StoreViews.caller_sets_event 1%positive (Demo.event "z")
             Demo.store_in_use)
          [1%positive]).
Proof.
  split; [reflexivity|].
  destruct (reads_copy_the_array_only Demo.store_in_use [1%positive])
    as ([Hall _] & _ & _ & _ & _ & Hshared);
    [by repeat split|reflexivity|by repeat econstructor|].
  split; [exact Hall|]. apply Hshared. left. reflexivity.
Defined.

End StoreInstances.

(** * Further properties of the sources *)

(** ** The event emitter: registrations under different names *)

Section EmitterNames.
Import Emitter.
Context {D : Type}.

Lemma indexOf_not_In (l : list EventHandler) (h : EventHandler) :
  ~ In h l -> indexOf l h = None.
Proof.
  induction l as [|x l IH]; simpl; [done|]. intros Hn.
  destruct (Nat.eqb x h) eqn:E.
  - apply Nat.eqb_eq in E. tauto.
  - rewrite IH; [done|tauto].
Qed.

Lemma remove_first_app_new (h : EventHandler) (l : list EventHandler) :
  ~ In h l -> remove_first h (l ++ [h]) = l.
Proof.
  induction l as [|x l IH]; simpl.
  - intros _. by rewrite Nat.eqb_refl.
  - intros Hn. destruct (Nat.eqb x h) eqn:E.
    + apply Nat.eqb_eq in E. tauto.
    + f_equal. apply IH. tauto.
Qed.

Lemma invocations_of_registered (em em' : EventEmitter) (event : string) (d : D) :
  registered em' event = registered em event ->
  invocations em' event d = invocations em event d.
Proof. intros E. by rewrite !invocations_registered, E. Qed.

End EmitterNames.

(** X1.  The registrations are kept per event name: [on] and [off] under
    one name change neither the handlers registered under another name nor
    what [emit] calls for that other name. *)
Theorem other_names_untouched :
  forall (D : Type) (em : Emitter.EventEmitter) (event other : string)
         (h : Emitter.EventHandler) (data : D),
    event <> other ->
    Emitter.registered (Emitter.on event h em) other = Emitter.registered em other
    /\ Emitter.registered (Emitter.off event h em) other = Emitter.registered em other
    /\ Emitter.invocations (Emitter.on event h em) other data
       = Emitter.invocations em other data
    /\ Emitter.invocations (Emitter.off event h em) other data
       = Emitter.invocations em other data.
Proof.
  intros D em event other h data Hne.
  pose proof (registered_on_other em event other h Hne) as Hon.
  pose proof (registered_off_other em event other h Hne) as Hoff.
  split; [exact Hon|]. split; [exact Hoff|].
  split; by apply invocations_of_registered.
Qed.

Lemma other_names_untouched_witness :
  "tick"%string <> "tock"%string
  /\ Emitter.invocations
       (Emitter.off "tick" 7 (Emitter.on "tock" 3 Emitter.empty)) "tock" tt
     = Emitter.invocations (Emitter.on "tock" 3 Emitter.empty) "tock" tt.
Proof.
  split; [discriminate|].
  apply (other_names_untouched unit (Emitter.on "tock" 3 Emitter.empty)
           "tick" "tock" 7 tt).
  discriminate.
Defined.

(** X2.  [off] of a handler that is not registered under the name, which
    includes a name that was never used, returns without changing the
    emitter. *)
Theorem off_of_unregistered_changes_nothing :
  forall (em : Emitter.EventEmitter) (event : string) (h : Emitter.EventHandler),
    ~ In h (Emitter.registered em event) ->
    Emitter.off event h em = em.
Proof.
  intros em event h Hn. unfold Emitter.off, Emitter.registered in *.
  destruct (Emitter.handlers em !! event) as [l|]; simpl in *; [|done].
  by rewrite (indexOf_not_In l h Hn).
Qed.

Lemma off_of_unregistered_changes_nothing_witness :
  ~ In 5 (Emitter.registered (Emitter.on "tick" 7 Emitter.empty) "tick")
  /\ Emitter.off "tick" 5 (Emitter.on "tick" 7 Emitter.empty)
     = Emitter.on "tick" 7 Emitter.empty.
Proof.
  assert (Hn : ~ In 5 (Emitter.registered (Emitter.on "tick" 7 Emitter.empty) "tick")).
  { vm_compute. intros [Heq|[]]. discriminate. }
  split; [exact Hn|].
  exact (off_of_unregistered_changes_nothing _ "tick" 5 Hn).
Defined.

(** X3.  Registering a handler that is not yet registered under the name
    and removing it again gives back the registrations, and the calls of
    [emit], of every name.  When the handler was registered before, it is
    the earlier registration that [off] removes, so the handler moves to
    the end of the order of the calls. *)
Theorem on_then_off :
  forall (D : Type) (em : Emitter.EventEmitter) (event : string)
         (h : Emitter.EventHandler),
    Emitter.registered (Emitter.off event h (Emitter.on event h em)) event
      = Emitter.remove_first h (Emitter.registered em event ++ [h])
    /\ (~ In h (Emitter.registered em event) ->
        forall (name : string) (data : D),
          Emitter.invocations (Emitter.off event h (Emitter.on event h em)) name data
          = Emitter.invocations em name data)
    /\ (forall before after,
          Emitter.registered em event = before ++ h :: after ->
          ~ In h before ->
          Emitter.registered (Emitter.off event h (Emitter.on event h em)) event
          = before ++ after ++ [h]).
Proof.
  intros D em event h.
  assert (Hreg : Emitter.registered (Emitter.off event h (Emitter.on event h em)) event
                 = Emitter.remove_first h (Emitter.registered em event ++ [h])).
  { by rewrite registered_off, registered_on. }
  split; [exact Hreg|]. split.
  - intros Hn name data. apply invocations_of_registered.
    destruct (decide (event = name)) as [<-|Hne].
    + rewrite Hreg. by apply remove_first_app_new.
    + by rewrite registered_off_other, registered_on_other.
  - intros before after Hl Hn. rewrite Hreg, Hl. clear Hreg Hl.
    induction before as [|x before IH]; simpl.
    + by rewrite Nat.eqb_refl.
    + destruct (Nat.eqb x h) eqn:E.
      * apply Nat.eqb_eq in E. simpl in Hn. tauto.
      * f_equal. apply IH. simpl in Hn. tauto.
Qed.

Lemma on_then_off_witness :
  Emitter.registered (Emitter.on "tick" 7 (Emitter.on "tick" 3 Emitter.empty)) "tick"
    = [] ++ 3 :: [7]
  /\ Emitter.registered
       (Emitter.off "tick" 3
          (Emitter.on "tick" 3
             (Emitter.on "tick" 7 (Emitter.on "tick" 3 Emitter.empty)))) "tick"
     = [] ++ [7] ++ [3].
Proof.
  split; [reflexivity|].
  apply (on_then_off unit (Emitter.on "tick" 7 (Emitter.on "tick" 3 Emitter.empty))
           "tick" 3).
  - reflexivity.
  - intros [].
Defined.

(** ** The reads of the event stores *)

Section StoreReadFacts.
Import Store StoreReads StoreViews.
Context `{Platform} `{Json}.

Lemma le_number_of_Z (a b : Z) : le_number (of_Z a) (of_Z b) = (a <=? b)%Z.
Proof.
  unfold le_number, of_Z.
  destruct (Qclt_le_dec (Q2Qc (inject_Z b)) (Q2Qc (inject_Z a))) as [Hlt|Hle].
  - symmetry. apply Z.leb_gt. unfold Qclt in Hlt. simpl in Hlt.
    rewrite !Qred_correct in Hlt. by rewrite <- Zlt_Qlt in Hlt.
  - symmetry. apply Z.leb_le. unfold Qcle in Hle. simpl in Hle.
    rewrite !Qred_correct in Hle. by rewrite <- Zle_Qle in Hle.
Qed.

Lemma le_number_NaN_r (x : number) : le_number x NaN = false.
Proof. by destruct x. Qed.

Lemma in_time_range_within (startTime endTime : string) (e : ProgressEvent) :
  in_time_range startTime endTime e = Ok (within startTime endTime (timestamp e)).
Proof.
  unfold in_time_range, within, getTime. f_equal.
  destruct (parseDate startTime) as [s|], (parseDate endTime) as [x|],
    (parseDate (timestamp e)) as [t|];
    rewrite ?le_number_of_Z, ?le_number_NaN_r, ?andb_false_r; reflexivity.
Qed.

Lemma filter_events_matching (g : ProgressEvent -> bool) (a : list loc) (w : World) :
  allocated w a ->
  filter_events (fun e => Ok (g e)) a w = (Ok (matching w g a), w).
Proof.
  induction 1 as [|l a [e Hl] _ IH]; simpl; [done|].
  rewrite (bind_read_event _ _ _ _ Hl), (run_bind_ok _ _ _ _ _ IH).
  unfold ret, matching, satisfies. simpl. by rewrite Hl.
Qed.

Lemma filtered_read_exact (f : ProgressEvent -> Res bool) (g : ProgressEvent -> bool)
    (w : World) (a : list loc) :
  ready w -> memory w = Some a -> allocated w a ->
  (forall e, f e = Ok (g e)) ->
  (FileEventStore.initialize ;;
   let* w0 := get in
   let* a0 := read_array (events w0) in
   let* kept := filter_events f a0 in
   new_array kept) w
  = (Ok (fresh (dom (arrays w))), handed_out (matching w g a) w).
Proof.
  intros Hr Hmem Hall Hf.
  rewrite (run_bind_ok _ _ _ _ _ (ready_initialize w Hr)), bind_get.
  rewrite (bind_read_array _ _ _ _ Hmem).
  assert (E : filter_events f a w = (Ok (matching w g a), w)).
  { rewrite <- (filter_events_matching g a w Hall). clear Hmem.
    induction Hall as [|l a' [e Hl] _ IH]; simpl; [done|].
    rewrite !(bind_read_event _ _ _ _ Hl), Hf.
    unfold bind. by rewrite IH. }
  by rewrite (run_bind_ok _ _ _ _ _ E).
Qed.

Lemma find_event_first (g : ProgressEvent -> bool) (a : list loc) (w : World) :
  allocated w a ->
  find_event g a w = (Ok (first_matching w g a), w).
Proof.
  induction 1 as [|l a [e Hl] _ IH]; simpl; [done|].
  rewrite (bind_read_event _ _ _ _ Hl). unfold first_matching, satisfies. simpl.
  rewrite Hl. destruct (g e); [done|exact IH].
Qed.

Lemma memory_handed_out (w : World) (a content : list loc) :
  memory w = Some a -> memory (handed_out content w) = Some a.
Proof.
  intros Hmem. unfold memory, handed_out. simpl.
  rewrite lookup_insert_ne; [done|].
  intros Heq. unfold memory in Hmem. by rewrite <- Heq, fresh_array in Hmem.
Qed.

Lemma mem_filtered_read_exact (f : ProgressEvent -> Res bool)
    (g : ProgressEvent -> bool) (w : World) (a : list loc) :
  memory w = Some a -> allocated w a ->
  (forall e, f e = Ok (g e)) ->
  (let* w0 := get in
   let* a0 := read_array (events w0) in
   let* kept := filter_events f a0 in
   new_array kept) w
  = (Ok (fresh (dom (arrays w))), handed_out (matching w g a) w).
Proof.
  intros Hmem Hall Hf. rewrite bind_get, (bind_read_array _ _ _ _ Hmem).
  assert (E : filter_events f a w = (Ok (matching w g a), w)).
  { rewrite <- (filter_events_matching g a w Hall). clear Hmem.
    induction Hall as [|l a' [e Hl] _ IH]; simpl; [done|].
    rewrite !(bind_read_event _ _ _ _ Hl), Hf.
    unfold bind. by rewrite IH. }
  by rewrite (run_bind_ok _ _ _ _ _ E).
Qed.

Lemma matching_none (w : World) (g : ProgressEvent -> bool) (a : list loc) :
  (forall e, g e = false) -> matching w g a = [].
Proof.
  intros Hg. unfold matching, satisfies. induction a as [|l a IH]; simpl; [done|].
  destruct (objects w !! l) as [e|]; [rewrite Hg|]; exact IH.
Qed.

(** X4.  On a store in use, [getEventsByType(eventType)] returns a new
    array that holds the stored events whose [type] is [eventType], all of
    them and no other, in the order of the store; the list of the store,
    the event objects and the file are as before.  The in-memory store
    does the same. *)
Theorem getEventsByType_returns_the_matching_events :
  forall (w : World) (a : list loc) (eventType : string),
    ready w ->
    memory w = Some a ->
    allocated w a ->
    exists r w',
      FileEventStore.getEventsByType eventType w = (Ok r, w')
      /\ InMemoryEventStore.getEventsByType eventType w = (Ok r, w')
      /\ arrays w !! r = None
      /\ arrays w' !! r
         = Some (matching w (fun e => String.eqb (type e) eventType) a)
      /\ memory w' = Some a
      /\ objects w' = objects w
      /\ fs w' = fs w.
Proof.
  intros w a eventType Hr Hmem Hall.
  exists (fresh (dom (arrays w))),
    (handed_out (matching w (fun e => String.eqb (type e) eventType) a) w).
  split; [by apply filtered_read_exact|].
  split; [by apply mem_filtered_read_exact|].
  split; [apply fresh_array|].
  split; [unfold handed_out; simpl; by rewrite lookup_insert_eq|].
  split; [by apply memory_handed_out|]. done.
Qed.

(** X5.  On a store in use, [getEventsByTimeRange(startTime, endTime)]
    returns a new array that holds the stored events whose timestamp is a
    date between the two bounds, bounds included, in the order of the
    store.  When one of the bounds is not a date the array is empty, and an
    event whose timestamp is not a date is never returned.  The in-memory
    store does the same. *)
Theorem getEventsByTimeRange_returns_the_events_within :
  forall (w : World) (a : list loc) (startTime endTime : string),
    ready w ->
    memory w = Some a ->
    allocated w a ->
    exists r w' kept,
      FileEventStore.getEventsByTimeRange startTime endTime w = (Ok r, w')
      /\ InMemoryEventStore.getEventsByTimeRange startTime endTime w = (Ok r, w')
      /\ arrays w !! r = None
      /\ arrays w' !! r = Some kept
      /\ kept = matching w (fun e => within startTime endTime (timestamp e)) a
      /\ (parseDate startTime = None \/ parseDate endTime = None -> kept = [])
      /\ (forall l e, In l kept -> objects w !! l = Some e ->
          exists s x t,
            parseDate startTime = Some s /\ parseDate endTime = Some x
            /\ parseDate (timestamp e) = Some t /\ (s <= t <= x)%Z)
      /\ memory w' = Some a
      /\ objects w' = objects w
      /\ fs w' = fs w.
Proof.
  intros w a startTime endTime Hr Hmem Hall.
  set (g := fun e => within startTime endTime (timestamp e)).
  exists (fresh (dom (arrays w))), (handed_out (matching w g a) w), (matching w g a).
  split.
  { apply filtered_read_exact; [done..|]. intros e. apply in_time_range_within. }
  split.
  { apply mem_filtered_read_exact; [done..|]. intros e. apply in_time_range_within. }
  split; [apply fresh_array|].
  split; [unfold handed_out; simpl; by rewrite lookup_insert_eq|].
  split; [done|]. split.
  { intros Hbad. apply matching_none. intros e. unfold g, within.
    destruct Hbad as [-> | ->]; [done|]. by destruct (parseDate startTime). }
  split.
  { intros l e Hin Hl. unfold matching in Hin. apply filter_In in Hin as [_ Hs].
    unfold satisfies in Hs. rewrite Hl in Hs. unfold g, within in Hs.
    destruct (parseDate startTime) as [s|]; [|done].
    destruct (parseDate endTime) as [x|]; [|done].
    destruct (parseDate (timestamp e)) as [t|]; [|done].
    apply andb_true_iff in Hs as [H1 H2].
    apply Z.leb_le in H1. apply Z.leb_le in H2.
    exists s, x, t. repeat split; done. }
  split; [by apply memory_handed_out|]. done.
Qed.

(** X6.  On a store in use, [getEventById(eventId)] returns the earliest
    stored event whose [id] is [eventId], and [null] exactly when no stored
    event has that [id]; it changes nothing.  The in-memory store does the
    same. *)
Theorem getEventById_returns_the_first_match :
  forall (w : World) (a : list loc) (eventId : string),
    ready w ->
    memory w = Some a ->
    allocated w a ->
    exists found,
      FileEventStore.getEventById eventId w = (Ok found, w)
      /\ InMemoryEventStore.getEventById eventId w = (Ok found, w)
      /\ found = first_matching w (has_id eventId) a
      /\ (found = None <->
          forall l e, In l a -> objects w !! l = Some e -> id e <> eventId)
      /\ (forall l, found = Some l ->
          exists before after e,
            a = before ++ l :: after
            /\ objects w !! l = Some e /\ id e = eventId
            /\ forall l' e', In l' before -> objects w !! l' = Some e' ->
                 id e' <> eventId).
Proof.
  intros w a eventId Hr Hmem Hall.
  exists (first_matching w (has_id eventId) a).
  split.
  { unfold FileEventStore.getEventById.
    rewrite (run_bind_ok _ _ _ _ _ (ready_initialize w Hr)), bind_get.
    rewrite (bind_read_array _ _ _ _ Hmem). by apply find_event_first. }
  split.
  { unfold InMemoryEventStore.getEventById.
    rewrite bind_get, (bind_read_array _ _ _ _ Hmem). by apply find_event_first. }
  split; [done|]. clear Hmem Hr. unfold first_matching. split.
  - split.
    + intros Hnone l e Hin Hl Hid.
      pose proof (find_none _ _ Hnone l Hin) as Hs.
      unfold satisfies, has_id in Hs. rewrite Hl in Hs.
      apply String.eqb_neq in Hs. done.
    + intros Hno. induction Hall as [|l a' [e Hl] _ IH]; simpl; [done|].
      unfold satisfies at 1. rewrite Hl. unfold has_id.
      destruct (String.eqb (id e) eventId) eqn:E.
      * apply String.eqb_eq in E. exfalso. apply (Hno l e); [by left|done|done].
      * apply IH. intros l' e' Hin. apply Hno. by right.
  - induction Hall as [|l0 a' [e Hl] _ IH]; simpl; [done|].
    intros l. unfold satisfies at 1. rewrite Hl. unfold has_id at 1.
    destruct (String.eqb (id e) eventId) eqn:E.
    + intros [= <-]. apply String.eqb_eq in E.
      exists [], a', e. repeat split; [done..|]. intros l' e' [].
    + intros Hf. destruct (IH l Hf) as (before & after & e1 & -> & Hl1 & Hid & Hb).
      exists (l0 :: before), after, e1. repeat split; [done..|].
      intros l' e' [<-|Hin] Hl'.
      * rewrite Hl in Hl'. injection Hl' as <-. by apply String.eqb_neq.
      * by apply (Hb l' e').
Qed.

Lemma own_id_is_answer (k : string) (v : jsval) (x : string) (b : bool) :
  FileEventStore.own_id_is k v x = Ok b -> b = InMemoryEventStore.id_is k v x.
Proof.
  unfold FileEventStore.own_id_is, InMemoryEventStore.id_is, has_property, get_property.
  destruct v as [| | | | |items|fields]; try discriminate.
  - by intros [= <-].
  - intros [= <-]. by destruct (assoc k fields).
Qed.

Lemma nested_id_is_answer (outer inner : string) (v : jsval) (x : string) (b : bool) :
  FileEventStore.nested_id_is outer inner v x = Ok b ->
  b = InMemoryEventStore.nested_is outer inner v x.
Proof.
  unfold FileEventStore.nested_id_is, InMemoryEventStore.nested_is.
  destruct (has_property outer v) as [[|]|err] eqn:E; [| |done].
  - destruct (truthy (get_property outer v)); [apply own_id_is_answer|].
    by intros [= <-].
  - intros [= <-]. unfold has_property in E. unfold get_property.
    destruct v as [| | | | |items|fields]; try discriminate; [done|].
    by destruct (assoc outer fields).
Qed.

Lemma first_true_cons (t : Res bool) (tests : list (Res bool)) (b c : bool) :
  (forall b', t = Ok b' -> b' = c) ->
  first_true (t :: tests) = Ok b ->
  (c = true /\ b = true) \/ (c = false /\ first_true tests = Ok b).
Proof.
  intros Ht. simpl. destruct t as [[|]|err]; [| |done].
  - intros [= <-]. left. by rewrite <- (Ht true).
  - intros Hrest. right. by rewrite <- (Ht false).
Qed.

(** X7.  The callbacks of [getEventsByEntityId] of the two stores give the
    same answer for an event, except that the one of the file store, which
    tests the properties with [in], throws a [TypeError] for some events
    whose payload, or whose nested [project], [milestone] or [task], is a
    primitive value; the one of the in-memory store always answers. *)
Theorem entity_filters_agree :
  forall (entityId : string) (e : ProgressEvent),
    exists b,
      memory_answer entityId e = Ok b
      /\ (file_answer entityId e = Ok b \/ file_answer entityId e = Throw TypeError).
Proof.
  intros x e. unfold memory_answer, file_answer.
  assert (Hmem : exists b, InMemoryEventStore.relates_to x e = Ok b).
  { unfold InMemoryEventStore.relates_to. destruct (negb (truthy (payload e))); by eexists. }
  destruct Hmem as [b Hb]. exists b. split; [exact Hb|].
  destruct (FileEventStore.relates_to x e) as [b'|err] eqn:Hfile.
  - left. f_equal. revert Hb Hfile.
    unfold InMemoryEventStore.relates_to, FileEventStore.relates_to.
    destruct (negb (truthy (payload e))); [congruence|].
    intros [= <-] Hfile.
    apply (first_true_cons _ _ _ _ (own_id_is_answer _ _ _)) in Hfile
      as [[-> ->]|[-> Hfile]]; [done|].
    apply (first_true_cons _ _ _ _ (own_id_is_answer _ _ _)) in Hfile
      as [[-> ->]|[-> Hfile]]; [done|].
    apply (first_true_cons _ _ _ _ (own_id_is_answer _ _ _)) in Hfile
      as [[-> ->]|[-> Hfile]]; [done|].
    apply (first_true_cons _ _ _ _ (nested_id_is_answer _ _ _ _)) in Hfile
      as [[-> ->]|[-> Hfile]]; [done|].
    apply (first_true_cons _ _ _ _ (nested_id_is_answer _ _ _ _)) in Hfile
      as [[-> ->]|[-> Hfile]]; [by rewrite orb_true_r|].
    apply (first_true_cons _ _ _ _ (nested_id_is_answer _ _ _ _)) in Hfile
      as [[-> ->]|[-> Hfile]]; [by rewrite orb_true_r|].
    simpl in Hfile. by injection Hfile as <-.
  - right. by rewrite (relates_to_error x e err Hfile).
Qed.

Lemma createEvent_built (t : EventType) (pl : jsval) (w : World) :
  built (EventDefinitions.createEvent t pl) w
  = Some (mkEvent (uuidAt (uuids w)) (eventTypeName t) (isoStringAt (clock w)) 1 pl).
Proof.
  unfold built, EventDefinitions.createEvent, new_event, bind, get, modify. simpl.
  by rewrite lookup_insert_eq.
Qed.

Lemma or_now_built (v : option string) (t : EventType) (pl : string -> jsval)
    (w : World) :
  exists i ts,
    built (let* x := EventDefinitions.or_now v in
           EventDefinitions.createEvent t (pl x)) w
    = Some (mkEvent i (eventTypeName t) ts 1
              (pl (default (isoStringAt (clock w)) v))).
Proof.
  destruct v as [x|];
    unfold built, EventDefinitions.or_now, EventDefinitions.getCurrentISOString,
      EventDefinitions.createEvent, new_event, bind, ret, get, modify; simpl;
    rewrite lookup_insert_eq; by eexists _, _.
Qed.

Ltac found_here :=
  split; unfold file_answer, memory_answer, FileEventStore.relates_to,
    InMemoryEventStore.relates_to, FileEventStore.own_id_is,
    FileEventStore.nested_id_is, InMemoryEventStore.id_is,
    InMemoryEventStore.nested_is;
  simpl; rewrite ?String.eqb_refl;
  repeat match goal with
         | |- context [String.eqb ?a ?b] => destruct (String.eqb a b)
         end;
  reflexivity.

(** X8.  An event built by one of the nineteen factories that put the
    identifiers they are given into the payload as they are is returned by
    [getEventsByEntityId], of both stores, for each project, milestone or
    task identifier it was built with: the project factories for the
    project, the milestone factories for the milestone (and the project it
    is added to or removed from), the task factories for the task (and the
    milestone it is added to or removed from).  The factories are the ones
    listed in the statement: the three [create...CreatedEvent], which take
    an object, and the three [create...UpdatedEvent], which spread
    [updates] over the identifier, are not among them. *)
Theorem factory_events_are_found_under_their_ids :
  forall (w : World) (projectId milestoneId taskId other reason : string)
         (old new : Progress.Status) (time description : option string)
         (minutes : number),
    (forall c,
        In c [EventDefinitions.createProjectDeletedEvent projectId;
              EventDefinitions.createProjectStatusChangedEvent projectId old new;
              EventDefinitions.createMilestoneAddedToProjectEvent projectId milestoneId;
              EventDefinitions.createMilestoneRemovedFromProjectEvent
                projectId milestoneId] ->
        exists e, built c w = Some e /\ found_under projectId e)
    /\ (forall c,
          In c [EventDefinitions.createMilestoneDeletedEvent milestoneId;
                EventDefinitions.createMilestoneStatusChangedEvent milestoneId old new;
                EventDefinitions.createMilestoneAddedToProjectEvent
                  projectId milestoneId;
                EventDefinitions.createMilestoneRemovedFromProjectEvent
                  projectId milestoneId;
                EventDefinitions.createMilestoneDependencyAddedEvent milestoneId other;
                EventDefinitions.createMilestoneDependencyRemovedEvent
                  milestoneId other;
                EventDefinitions.createTaskAddedToMilestoneEvent milestoneId taskId;
                EventDefinitions.createTaskRemovedFromMilestoneEvent
                  milestoneId taskId] ->
          exists e, built c w = Some e /\ found_under milestoneId e)
    /\ (forall c,
          In c [EventDefinitions.createTaskDeletedEvent taskId;
                EventDefinitions.createTaskStatusChangedEvent taskId old new;
                EventDefinitions.createTaskAddedToMilestoneEvent milestoneId taskId;
                EventDefinitions.createTaskRemovedFromMilestoneEvent milestoneId taskId;
                EventDefinitions.createTaskDependencyAddedEvent taskId other;
                EventDefinitions.createTaskDependencyRemovedEvent taskId other;
                EventDefinitions.createTaskStartedEvent taskId time;
                EventDefinitions.createTaskCompletedEvent taskId time minutes;
                EventDefinitions.createTaskBlockedEvent taskId reason;
                EventDefinitions.createTaskUnblockedEvent taskId;
                EventDefinitions.createTaskTimeLoggedEvent taskId minutes description] ->
          exists e, built c w = Some e /\ found_under taskId e).
Proof.
  intros w projectId milestoneId taskId other reason old new time description minutes.
  split; [|split]; intros c Hin; simpl in Hin;
    repeat (destruct Hin as [<-|Hin]); try destruct Hin;
    try (eexists; split; [apply createEvent_built|found_here]).
  - destruct (or_now_built time TASK_STARTED
                (fun x => JObj [("taskId"%string, JStr taskId);
                                ("startTime"%string, JStr x)]) w) as (i & ts & E).
    eexists. split; [exact E|found_here].
  - destruct (or_now_built time TASK_COMPLETED
                (fun x => JObj [("taskId"%string, JStr taskId);
                                ("endTime"%string, JStr x);
                                ("elapsedTimeMinute"%string, JNum minutes)]) w)
      as (i & ts & E).
    eexists. split; [exact E|found_here].
Qed.

(** X9.  A dependency event is returned by [getEventsByEntityId] for the
    task (or milestone) that depends, and for no other identifier: asking
    for the task (or milestone) depended on does not return it, unless the
    two are the same. *)
Theorem dependency_events_are_found_under_the_dependent_only :
  forall (w : World) (subject dependsOn entityId : string),
    (forall c,
        In c [EventDefinitions.createTaskDependencyAddedEvent subject dependsOn;
              EventDefinitions.createTaskDependencyRemovedEvent subject dependsOn;
              EventDefinitions.createMilestoneDependencyAddedEvent subject dependsOn;
              EventDefinitions.createMilestoneDependencyRemovedEvent
                subject dependsOn] ->
        exists e,
          built c w = Some e
          /\ file_answer entityId e = Ok (String.eqb subject entityId)
          /\ memory_answer entityId e = Ok (String.eqb subject entityId)).
Proof.
  intros w subject dependsOn entityId c Hin. simpl in Hin.
  repeat (destruct Hin as [<-|Hin]); try destruct Hin;
    (eexists; split; [apply createEvent_built|]);
    split; unfold file_answer, memory_answer, FileEventStore.relates_to,
      InMemoryEventStore.relates_to, FileEventStore.own_id_is,
      FileEventStore.nested_id_is, InMemoryEventStore.id_is,
      InMemoryEventStore.nested_is; simpl;
    destruct (String.eqb subject entityId); reflexivity.
Qed.

(** ** Failures of the file store *)

Ltac run_file_store :=
  unfold FileEventStore.initialize, FileEventStore.loadEvents,
    FileEventStore.appendEventToFile, FileEventStore.appendEventsToFile,
    stat_dir, mkdir, stat_file, readTextFile, appendTextFile, writeTextFile,
    new_array, new_event, push, read_array, read_event, console_error,
    try_catch, bind, ret, throw, get, modify;
  simpl.

Lemma initialize_fails (w : World) :
  initialized w = false ->
  cannot_initialize (fs w) ->
  FileEventStore.initialize w = (Throw IOError, logged (InitializeFailed IOError) w).
Proof.
  intros Hi Hc. destruct w as [o ar [d f sf mf rf wf] ev i c cl u].
  simpl in Hi. subst i. unfold cannot_initialize in Hc. simpl in Hc.
  destruct Hc as [->|[-> ->]]; [reflexivity|].
  unfold logged. run_file_store. by destruct sf.
Qed.

(** X10.  When the store cannot initialise, because the platform refuses
    [Deno.stat], or the directory is missing and cannot be created, every
    operation that initialises first reports the failure on the console
    and throws the error; nothing else changes: the event is not added to
    the list, the file is untouched, and the store stays uninitialised, so
    the next call tries again. *)
Theorem operations_fail_when_initialize_fails :
  forall (w : World),
    initialized w = false ->
    cannot_initialize (fs w) ->
    let failed := logged (InitializeFailed IOError) w in
    (forall e, FileEventStore.saveEvent e w = (Throw IOError, failed))
    /\ (forall evs, FileEventStore.saveEvents evs w = (Throw IOError, failed))
    /\ FileEventStore.getAllEvents w = (Throw IOError, failed)
    /\ (forall i, FileEventStore.getEventById i w = (Throw IOError, failed))
    /\ (forall x, FileEventStore.getEventsByEntityId x w = (Throw IOError, failed))
    /\ (forall s e, FileEventStore.getEventsByTimeRange s e w = (Throw IOError, failed))
    /\ (forall t, FileEventStore.getEventsByType t w = (Throw IOError, failed))
    /\ memory failed = memory w
    /\ fs failed = fs w
    /\ initialized failed = false.
Proof.
  intros w Hi Hc failed. pose proof (initialize_fails w Hi Hc) as E.
  repeat split; try (intros; apply (run_bind_throw _ _ _ _ _ E)); done.
Qed.

Lemma clear_run (w : World) :
  FileEventStore.clear w =
    if write_fails (fs w)
    then (Throw IOError, logged (ClearFailed IOError) (emptied w))
    else if dir_exists (fs w)
    then (Ok tt, with_fs (with_file (Some EmptyString)) (emptied w))
    else (Throw NotFound, logged (ClearFailed NotFound) (emptied w)).
Proof.
  destruct w as [o ar [d f sf mf rf wf] ev i c cl u].
  unfold FileEventStore.clear, logged, emptied. run_file_store. by destruct wf, d.
Qed.

Lemma memory_emptied (w : World) : memory (emptied w) = Some [].
Proof. unfold memory, emptied. simpl. by rewrite lookup_insert_eq. Qed.

(** X11.  [clear()] of the file store replaces the list by a new empty
    array and then truncates the file.  It does not initialise the store.
    When the write succeeds the file is empty afterwards; when it is
    refused, or the directory is missing, the error is reported and thrown,
    the file is as before, and the list has been emptied all the same.  In
    both cases every array handed out earlier keeps its content. *)
Theorem clear_empties_the_list_first :
  forall (w : World),
    exists w0,
      memory w0 = Some []
      /\ arrays_kept w w0
      /\ objects w0 = objects w
      /\ initialized w0 = initialized w
      /\ fs w0 = fs w
      /\ console w0 = console w
      /\ FileEventStore.clear w =
           if write_fails (fs w)
           then (Throw IOError, logged (ClearFailed IOError) w0)
           else if dir_exists (fs w)
           then (Ok tt, with_fs (with_file (Some EmptyString)) w0)
           else (Throw NotFound, logged (ClearFailed NotFound) w0).
Proof.
  intros w. exists (emptied w).
  split; [apply memory_emptied|].
  split.
  { intros r a Hr. unfold emptied. simpl. rewrite lookup_insert_ne; [done|].
    intros Heq. by rewrite <- Heq, fresh_array in Hr. }
  repeat (split; [done|]).
  apply clear_run.
Qed.

Lemma event_lines_empty : trim EmptyString = EmptyString -> event_lines EmptyString = [].
Proof. intros E. unfold event_lines. rewrite E. simpl. by rewrite E. Qed.

(** X12.  After [clear()] the next read finds no event: [getAllEvents]
    returns an empty array, whether the store was initialised before or is
    initialised by that read, which then loads the truncated file.  This
    holds when the directory exists and no file operation is refused, for a
    [trim] that leaves the empty string empty. *)
Theorem clear_then_getAllEvents :
  forall (w : World),
    dir_exists (fs w) = true ->
    healthy (fs w) ->
    trim EmptyString = EmptyString ->
    fst ((FileEventStore.clear ;;
          let* r := FileEventStore.getAllEvents in read_array r) w) = Ok [].
Proof.
  intros w Hd (Hsf & Hmf & Hrf & Hwf) Htrim.
  pose proof (clear_run w) as E. pose proof (memory_emptied w) as Hmem.
  assert (Hfs : fs (emptied w) = fs w) by done.
  set (w0 := emptied w) in *.
  rewrite Hwf, Hd in E. rewrite (run_bind_ok _ _ _ _ _ E). clear E.
  set (w1 := with_fs (with_file (Some EmptyString)) w0).
  assert (Hd1 : dir_exists (fs w1) = true) by (simpl; rewrite ?Hfs; done).
  assert (Hw1 : write_fails (fs w1) = false) by (simpl; rewrite ?Hfs; done).
  destruct (initialized w1) eqn:Hi1.
  - assert (Hr : ready w1) by done.
    by rewrite (getAllEvents_content w1 [] Hr Hmem).
  - assert (Hs1 : stat_fails (fs w1) = false) by (simpl; rewrite ?Hfs; done).
    assert (Hr1 : read_fails (fs w1) = false) by (simpl; rewrite ?Hfs; done).
    pose proof (initialize_loads w1 EmptyString Hi1 Hd1 eq_refl Hs1) as Hinit.
    destruct (loadEvents_run w1 EmptyString eq_refl Hr1) as [_ Hload].
    destruct (Hload []) as (w2 & a & Hl & Hm2 & Hev & _ & Hfs2 & _).
    { rewrite (event_lines_empty Htrim). constructor. }
    rewrite Hl in Hinit. destruct a; [|done].
    set (w3 := with_initialized true w2) in *.
    rewrite (run_bind_ok _ _ _ _ _ (getAllEvents_run w1 w3 [] Hinit Hm2)).
    unfold read_array. simpl. by rewrite lookup_insert_eq.
Qed.

(** X13.  [saveEvents] of an empty array leaves the list of the store as
    it is and returns the array, but it still appends a line feed to the
    events file. *)
Theorem saveEvents_of_no_event :
  forall (w : World) (a : list loc) (evs : loc),
    ready w ->
    memory w = Some a ->
    arrays w !! evs = Some [] ->
    evs <> events w ->
    exists w',
      FileEventStore.saveEvents evs w = (Ok evs, w')
      /\ memory w' = Some a
      /\ objects w' = objects w
      /\ file (fs w')
         = Some (default EmptyString (file (fs w)) ++ String "010"%char EmptyString)%string.
Proof.
  intros w a evs Hr Hmem Hevs Hne.
  pose proof (saveEvents_run w w evs a [] [] (ready_initialize w Hr) Hmem Hevs Hne
                (List.Forall2_nil _)) as E.
  destruct Hr as (_ & Hd & Hw). rewrite Hw, Hd in E.
  eexists. split; [exact E|]. split.
  - change (memory (pushed [] w) = Some a).
    rewrite (memory_pushed w a [] Hmem). by rewrite app_nil_r.
  - done.
Qed.

(** X14.  An events file that cannot be read does not stop the store:
    [initialize] reports the error of the read, starts with an empty list
    and marks the store initialised; the file is left as it is. *)
Theorem unreadable_file_starts_empty :
  forall (w : World) (content : string),
    initialized w = false ->
    dir_exists (fs w) = true ->
    file (fs w) = Some content ->
    stat_fails (fs w) = false ->
    read_fails (fs w) = true ->
    exists w',
      FileEventStore.initialize w = (Ok tt, w')
      /\ initialized w' = true
      /\ memory w' = Some []
      /\ console w' = console w ++ [LoadFailed IOError]
      /\ fs w' = fs w
      /\ objects w' = objects w.
Proof.
  intros w content Hi Hd Hf Hs Hr.
  destruct w as [o ar [d f sf mf rf wf] ev i c cl u]. simpl in *. subst.
  eexists. split; [reflexivity|].
  split; [done|]. split; [|done].
  unfold memory. simpl. by rewrite lookup_insert_eq.
Qed.

(** ** Saving, and opening the directory again *)

Lemma split_lines_not_nil (s : string) : split_lines s <> [].
Proof.
  induction s as [|c s IH]; simpl; [done|].
  destruct (Ascii.eqb c "010"); [done|]. by destruct (split_lines s).
Qed.

Lemma split_lines_app (s t : string) :
  split_lines s = [s] ->
  split_lines (s ++ String "010" t) = s :: split_lines t.
Proof.
  induction s as [|c s IH]; simpl; [done|].
  destruct (Ascii.eqb c "010"); [discriminate|].
  destruct (split_lines s) as [|line rest] eqn:E.
  - by destruct (split_lines_not_nil s).
  - intros [= -> ->]. by rewrite IH.
Qed.

Lemma split_lines_join (js : list string) :
  js <> [] ->
  Forall (fun j => split_lines j = [j]) js ->
  split_lines (join_lines js) = js.
Proof.
  intros Hne Hall. induction Hall as [|j js Hj Hjs IH]; [done|].
  destruct js as [|j' js']; [exact Hj|].
  change (join_lines (j :: j' :: js'))
    with (j ++ String "010" (join_lines (j' :: js')))%string.
  rewrite (split_lines_app _ _ Hj). f_equal. by apply IH.
Qed.

Lemma append_empty_r (s : string) : (s ++ "")%string = s.
Proof.
  induction s as [|c s IH]; [done|].
  change (String c (s ++ "")%string = String c s). by rewrite IH.
Qed.

Lemma append_append (s t u : string) : ((s ++ t) ++ u)%string = (s ++ (t ++ u))%string.
Proof.
  induction s as [|c s IH]; [done|].
  change (String c ((s ++ t) ++ u)%string = String c (s ++ (t ++ u))%string).
  by rewrite IH.
Qed.

Lemma lines_one_by_one_lines_of (es : list ProgressEvent) :
  es <> [] -> lines_one_by_one es = lines_of es.
Proof.
  induction es as [|e es IH]; [done|]. intros _. simpl.
  destruct es as [|e' es']; [by rewrite append_empty_r|].
  rewrite IH; [|done]. unfold line_of, lines_of.
  change (map JSON_stringify (e :: e' :: es'))
    with (JSON_stringify e :: map JSON_stringify (e' :: es')).
  change (join_lines (JSON_stringify e :: map JSON_stringify (e' :: es')))
    with (JSON_stringify e
          ++ String "010" (join_lines (map JSON_stringify (e' :: es'))))%string.
  by rewrite !append_append.
Qed.

Lemma event_lines_written (es : list ProgressEvent) :
  es <> [] ->
  Forall written_and_read_back es ->
  trim (lines_of es) = join_lines (map JSON_stringify es) ->
  event_lines (lines_of es) = map JSON_stringify es.
Proof.
  intros Hne Hall Htrim. unfold event_lines. rewrite Htrim.
  rewrite split_lines_join.
  - clear Hne Htrim. induction Hall as [|e es [_ [_ Hb]] _ IH]; simpl; [done|].
    apply String.eqb_neq in Hb. rewrite Hb. simpl. by rewrite IH.
  - by destruct es.
  - apply List.Forall_map. eapply List.Forall_impl; [|exact Hall].
    by intros e [_ [Hs _]].
Qed.

Lemma saveEvent_in_use (w : World) (e : loc) (a : list loc) (ev : ProgressEvent) :
  ready w -> healthy (fs w) -> memory w = Some a -> objects w !! e = Some ev ->
  exists w1,
    FileEventStore.saveEvent e w = (Ok e, w1)
    /\ ready w1 /\ healthy (fs w1)
    /\ memory w1 = Some (a ++ [e])
    /\ objects w1 = objects w
    /\ console w1 = console w
    /\ file (fs w1) = Some (default EmptyString (file (fs w)) ++ line_of ev)%string.
Proof.
  intros Hr Hh Hmem He.
  pose proof (saveEvent_run w w e a ev (ready_initialize w Hr) Hmem He) as E.
  destruct Hr as (Hi & Hd & Hw). rewrite Hw, Hd in E.
  eexists. split; [exact E|]. split; [done|]. split; [exact Hh|].
  split; [|done]. change (memory (pushed [e] w) = Some (a ++ [e])).
  by apply memory_pushed.
Qed.

Lemma save_each_in_use (ls : list loc) :
  forall (es : list ProgressEvent) (w : World) (a : list loc),
    ready w -> healthy (fs w) -> memory w = Some a ->
    Forall2 (fun l e => objects w !! l = Some e) ls es ->
    exists w1,
      save_each ls w = (Ok tt, w1)
      /\ ready w1 /\ healthy (fs w1)
      /\ memory w1 = Some (a ++ ls)
      /\ objects w1 = objects w
      /\ console w1 = console w
      /\ file (fs w1)
         = match ls with
           | [] => file (fs w)
           | _ => Some (default EmptyString (file (fs w)) ++ lines_one_by_one es)%string
           end.
Proof.
  induction ls as [|l ls IH]; intros es w a Hr Hh Hmem Hall.
  - inversion Hall; subst. exists w. simpl. by rewrite app_nil_r.
  - inversion Hall as [|? ev ? es' Hl Hrest]; subst.
    destruct (saveEvent_in_use w l a ev Hr Hh Hmem Hl)
      as (w1 & E1 & Hr1 & Hh1 & Hm1 & Ho1 & Hc1 & Hf1).
    rewrite <- Ho1 in Hrest.
    destruct (IH es' w1 (a ++ [l]) Hr1 Hh1 Hm1 Hrest)
      as (w2 & E2 & Hr2 & Hh2 & Hm2 & Ho2 & Hc2 & Hf2).
    exists w2. simpl. rewrite (run_bind_ok _ _ _ _ _ E1).
    split; [exact E2|]. split; [exact Hr2|]. split; [exact Hh2|].
    split; [by rewrite Hm2, <- app_assoc|]. split; [congruence|].
    split; [congruence|].
    rewrite Hf2, Hf1. destruct ls as [|l' ls'].
    + inversion Hrest; subst. simpl. by rewrite append_empty_r.
    + simpl. by rewrite append_append.
Qed.

(** X15.  What one instance of the file store saved, a second instance
    over the same directory loads: after the events of a list were saved
    one by one by a store that was just constructed over an empty
    directory, the file holds one line for each, and a new store
    initialises with a list of events equal to the saved ones, in the same
    order, and reports nothing.  This is for events that [JSON.parse]
    reads back from the single line that [JSON.stringify] writes, and a
    [trim] that takes off the final line feed of the file only. *)
Theorem saved_events_are_loaded_again :
  forall (w : World) (ls : list loc) (es : list ProgressEvent),
    fresh_store w ->
    ls <> [] ->
    Forall2 (fun l e => objects w !! l = Some e) ls es ->
    Forall written_and_read_back es ->
    trim (lines_of es) = join_lines (map JSON_stringify es) ->
    exists w1,
      save_each ls w = (Ok tt, w1)
      /\ memory w1 = Some ls
      /\ file (fs w1) = Some (lines_of es)
      /\ exists w2 a,
           FileEventStore.initialize (reopen w1) = (Ok tt, w2)
           /\ memory w2 = Some a
           /\ events_of w2 a = map Some es
           /\ console w2 = console w1
           /\ fs w2 = fs w1.
Proof.
  intros w ls es Hfresh Hne Hall Hjson Htrim.
  destruct ls as [|l ls]; [done|]. clear Hne.
  inversion Hall as [|? ev ? es' Hl Hrest]; subst.
  destruct (initialize_fresh w Hfresh)
    as (w0 & E0 & Hi0 & Hm0 & Ho0 & _ & Hd0 & Hf0 & Hh0 & Hc0 & _).
  assert (Hr0 : ready w0).
  { split; [done|]. split; [done|]. by destruct Hh0 as (_ & _ & _ & ?). }
  rewrite <- Ho0 in Hl, Hrest.
  pose proof (saveEvent_run w w0 l [] ev E0 Hm0 Hl) as E1.
  destruct Hr0 as (_ & _ & Hw0). rewrite Hw0, Hd0 in E1.
  set (w1 := appended (line_of ev) (pushed [l] w0)) in *.
  assert (Hr1 : ready w1) by done.
  assert (Hh1 : healthy (fs w1)) by exact Hh0.
  assert (Hm1 : memory w1 = Some [l]).
  { change (memory (pushed [l] w0) = Some ([] ++ [l])). by apply memory_pushed. }
  destruct (save_each_in_use ls es' w1 [l] Hr1 Hh1 Hm1 Hrest)
    as (w2 & E2 & Hr2 & Hh2 & Hm2 & Ho2 & Hc2 & Hf2).
  assert (Hfile : file (fs w2) = Some (lines_of (ev :: es'))).
  { rewrite <- lines_one_by_one_lines_of; [|done]. rewrite Hf2.
    change (file (fs w1)) with (Some (default EmptyString (file (fs w0)) ++ line_of ev)%string).
    rewrite Hf0. simpl. destruct ls as [|l' ls'].
    - inversion Hrest; subst. simpl. by rewrite append_empty_r.
    - done. }
  exists w2. split.
  { simpl. by rewrite (run_bind_ok _ _ _ _ _ E1). }
  split; [exact Hm2|]. split; [exact Hfile|].
  destruct Hr2 as (_ & Hd2 & _). destruct Hh2 as (Hs2 & _ & Hrd2 & _).
  pose proof (initialize_loads (reopen w2) (lines_of (ev :: es'))
                eq_refl Hd2 Hfile Hs2) as Hinit.
  destruct (loadEvents_run (reopen w2) (lines_of (ev :: es')) Hfile Hrd2) as [_ Hload].
  destruct (Hload (ev :: es')) as (w3 & a & Hl3 & Hm3 & Hev3 & Hc3 & Hfs3 & _).
  { rewrite (event_lines_written (ev :: es')); [|done|exact Hjson|exact Htrim].
    clear -Hjson. induction Hjson as [|e es [Hp _] _ IH]; simpl; constructor; done. }
  rewrite Hl3 in Hinit. exists (with_initialized true w3), a.
  split; [exact Hinit|]. split; [exact Hm3|]. split; [exact Hev3|].
  split; [exact Hc3|exact Hfs3].
Qed.

Lemma fresh_not_here (m : gmap loc (list loc)) (r : loc) (x : list loc) :
  m !! r = Some x -> fresh (dom m) <> r.
Proof.
  intros Hr Heq. assert (Hn : m !! fresh (dom m) = None) by apply not_elem_of_dom, is_fresh.
  rewrite Heq in Hn. congruence.
Qed.

(** X26.  [saveEvents] of an array that holds at least one event leaves
    the list of the store and the events file as [saveEvent] does when it
    is called for each of the events in turn: the same events are appended
    to the list, and the same text to the file. *)
Theorem saveEvents_as_saveEvent_for_each :
  forall (w : World) (a : list loc) (evs : loc) (items : list loc)
         (es : list ProgressEvent),
    ready w ->
    healthy (fs w) ->
    memory w = Some a ->
    arrays w !! evs = Some items ->
    evs <> events w ->
    items <> [] ->
    Forall2 (fun l e => objects w !! l = Some e) items es ->
    exists w1 w2,
      FileEventStore.saveEvents evs w = (Ok evs, w1)
      /\ save_each items w = (Ok tt, w2)
      /\ memory w1 = Some (a ++ items)
      /\ memory w2 = Some (a ++ items)
      /\ file (fs w1) = Some (default EmptyString (file (fs w)) ++ lines_of es)%string
      /\ file (fs w2) = file (fs w1)
      /\ objects w1 = objects w2
      /\ console w1 = console w2.
Proof.
  intros w a evs items es Hr Hh Hmem Hevs Hne Hitems Hall.
  pose proof (saveEvents_run w w evs a items es (ready_initialize w Hr) Hmem Hevs Hne Hall)
    as E1.
  destruct (save_each_in_use items es w a Hr Hh Hmem Hall)
    as (w2 & E2 & _ & _ & Hm2 & Ho2 & Hc2 & Hf2).
  destruct Hr as (_ & Hd & Hw). rewrite Hw, Hd in E1.
  eexists _, w2. split; [exact E1|]. split; [exact E2|].
  split.
  { change (memory (pushed items w) = Some (a ++ items)). by apply memory_pushed. }
  split; [exact Hm2|]. split; [done|]. split.
  { rewrite Hf2. destruct items as [|l items]; [done|].
    rewrite lines_one_by_one_lines_of; [done|]. inversion Hall; subst. done. }
  split; [by rewrite Ho2|by rewrite Hc2].
Qed.

(** X27.  [clear()] of the in-memory store puts a new empty array in the
    place of the list: the next [getAllEvents] returns an empty array, and
    an array that [getAllEvents] returned before still holds the events it
    held. *)
Theorem memory_store_clear :
  forall (w : World) (a : list loc),
    memory w = Some a ->
    fst ((InMemoryEventStore.clear ;;
          let* r := InMemoryEventStore.getAllEvents in read_array r) w) = Ok []
    /\ fst ((let* r := InMemoryEventStore.getAllEvents in
             InMemoryEventStore.clear ;; read_array r) w) = Ok a
    /\ exists w',
         InMemoryEventStore.clear w = (Ok tt, w')
         /\ memory w' = Some []
         /\ arrays_kept w w'
         /\ objects w' = objects w
         /\ fs w' = fs w.
Proof.
  intros w a Hmem. split; [|split].
  - unfold InMemoryEventStore.clear, InMemoryEventStore.getAllEvents.
    rewrite !bind_assoc, bind_new_array, bind_modify, ?bind_assoc, bind_get, ?bind_assoc.
    rewrite (bind_read_array _ _ _ []); [|simpl; apply lookup_insert_eq].
    rewrite bind_new_array. unfold read_array. simpl. by rewrite lookup_insert_eq.
  - unfold InMemoryEventStore.clear, InMemoryEventStore.getAllEvents.
    rewrite !bind_assoc, bind_get, ?bind_assoc, (bind_read_array _ _ _ _ Hmem).
    rewrite bind_new_array, ?bind_assoc, bind_new_array, bind_modify.
    unfold read_array. simpl.
    rewrite lookup_insert_ne, lookup_insert_eq; [done|].
    eapply fresh_not_here. apply lookup_insert_eq.
  - eexists. split; [reflexivity|].
    split; [unfold memory; simpl; apply lookup_insert_eq|].
    split; [|done]. intros r x Hr. simpl. rewrite lookup_insert_ne; [done|].
    eapply fresh_not_here. exact Hr.
Qed.

End StoreReadFacts.

Section StoreReadInstances.
#[local] Existing Instance Demo.platform.
#[local] Existing Instance Demo.json.

Lemma store_in_use_ready :
  StoreViews.ready Demo.store_in_use
  /\ StoreViews.memory Demo.store_in_use = Some [1%positive]
  /\ StoreViews.allocated Demo.store_in_use [1%positive].
Proof. split; [by repeat split|]. split; [reflexivity|]. by repeat econstructor. Qed.

Lemma getEventsByType_returns_the_matching_events_witness :
  StoreViews.ready Demo.store_in_use
  /\ exists r w',
       FileEventStore.getEventsByType "task_created" Demo.store_in_use = (Ok r, w')
       /\ Store.arrays w' !! r = Some [1%positive].
Proof.
  destruct store_in_use_ready as (Hr & Hmem & Hall). split; [exact Hr|].
  destruct (getEventsByType_returns_the_matching_events Demo.store_in_use
              [1%positive] "task_created" Hr Hmem Hall)
    as (r & w' & H1 & _ & _ & H2 & _).
  exists r, w'. split; [exact H1|exact H2].
Defined.

Lemma getEventsByTimeRange_returns_the_events_within_witness :
  StoreViews.ready Demo.store_in_use
  /\ exists r w',
       FileEventStore.getEventsByTimeRange "0" "10" Demo.store_in_use = (Ok r, w')
       /\ Store.arrays w' !! r = Some [1%positive].
Proof.
  destruct store_in_use_ready as (Hr & Hmem & Hall). split; [exact Hr|].
  destruct (getEventsByTimeRange_returns_the_events_within Demo.store_in_use
              [1%positive] "0" "10" Hr Hmem Hall)
    as (r & w' & kept & H1 & _ & _ & H2 & -> & _).
  exists r, w'. split; [exact H1|exact H2].
Defined.

Lemma getEventById_returns_the_first_match_witness :
  StoreViews.ready Demo.store_in_use
  /\ FileEventStore.getEventById "a" Demo.store_in_use
     = (Ok (Some 1%positive), Demo.store_in_use).
Proof.
  destruct store_in_use_ready as (Hr & Hmem & Hall). split; [exact Hr|].
  destruct (getEventById_returns_the_first_match Demo.store_in_use
              [1%positive] "a" Hr Hmem Hall) as (found & H1 & _ & -> & _).
  exact H1.
Defined.

Lemma operations_fail_when_initialize_fails_witness :
  StoreViews.cannot_initialize (Store.fs Demo.store_stat_refused)
  /\ FileEventStore.saveEvent 1%positive Demo.store_stat_refused
     = (Throw IOError,
        StoreViews.logged (Store.InitializeFailed IOError) Demo.store_stat_refused).
Proof.
  assert (Hc : StoreViews.cannot_initialize (Store.fs Demo.store_stat_refused))
    by (left; reflexivity).
  split; [exact Hc|].
  apply (operations_fail_when_initialize_fails Demo.store_stat_refused eq_refl Hc).
Defined.

Lemma clear_then_getAllEvents_witness :
  StoreViews.healthy (Store.fs Demo.store_in_use)
  /\ fst ((FileEventStore.clear ;;
           let* r := FileEventStore.getAllEvents in Store.read_array r)
            Demo.store_in_use) = Ok [].
Proof.
  assert (Hh : StoreViews.healthy (Store.fs Demo.store_in_use)) by (by repeat split).
  split; [exact Hh|].
  exact (clear_then_getAllEvents Demo.store_in_use eq_refl Hh eq_refl).
Defined.

Lemma saveEvents_of_no_event_witness :
  Store.arrays Demo.store_and_empty_batch !! 2%positive = Some []
  /\ exists w',
       FileEventStore.saveEvents 2%positive Demo.store_and_empty_batch
         = (Ok 2%positive, w')
       /\ StoreViews.memory w' = Some [1%positive].
Proof.
  split; [reflexivity|].
  destruct (saveEvents_of_no_event Demo.store_and_empty_batch [1%positive] 2%positive)
    as (w' & E & Hm & _); [by repeat split|reflexivity|reflexivity|discriminate|].
  exists w'. split; [exact E|exact Hm].
Defined.

Lemma unreadable_file_starts_empty_witness :
  Store.read_fails (Store.fs Demo.store_unreadable) = true
  /\ exists w',
       FileEventStore.initialize Demo.store_unreadable = (Ok tt, w')
       /\ StoreViews.memory w' = Some []
       /\ Store.console w' = [Store.LoadFailed IOError].
Proof.
  split; [reflexivity|].
  destruct (unreadable_file_starts_empty Demo.store_unreadable _
              eq_refl eq_refl eq_refl eq_refl eq_refl)
    as (w' & E & _ & Hm & Hc & _).
  exists w'. split; [exact E|]. split; [exact Hm|exact Hc].
Defined.

Lemma saved_events_are_loaded_again_witness :
  StoreViews.fresh_store Demo.two_events_new_store
  /\ exists w1 w2 a,
       StoreViews.save_each [1%positive; 2%positive] Demo.two_events_new_store
         = (Ok tt, w1)
       /\ FileEventStore.initialize (StoreViews.reopen w1) = (Ok tt, w2)
       /\ StoreViews.memory w2 = Some a
       /\ StoreViews.events_of w2 a = [Some (Demo.event "a"); Some (Demo.event "b")].
Proof.
  assert (Hf : StoreViews.fresh_store Demo.two_events_new_store) by (by repeat split).
  split; [exact Hf|].
  destruct (saved_events_are_loaded_again Demo.two_events_new_store
              [1%positive; 2%positive] [Demo.event "a"; Demo.event "b"] Hf)
    as (w1 & E1 & _ & _ & w2 & a & E2 & Hm & He & _).
  - discriminate.
  - repeat constructor.
  - repeat constructor; vm_compute; discriminate.
  - reflexivity.
  - exists w1, w2, a. split; [exact E1|]. split; [exact E2|]. split; [exact Hm|exact He].
Defined.

Lemma factory_events_are_found_under_their_ids_witness :
  exists e,
    StoreViews.built (EventDefinitions.createTaskBlockedEvent "t1" "waiting")
      Demo.new_store = Some e
    /\ StoreViews.found_under "t1" e.
Proof.
  destruct (factory_events_are_found_under_their_ids Demo.new_store
              "p1" "m1" "t1" "t2" "waiting" Progress.NOT_STARTED Progress.IN_PROGRESS
              None None (of_Z 5)) as (_ & _ & Htask).
  apply Htask. do 8 right. left. reflexivity.
Defined.

Lemma dependency_events_are_found_under_the_dependent_only_witness :
  exists e,
    StoreViews.built (EventDefinitions.createTaskDependencyAddedEvent "t1" "t2")
      Demo.new_store = Some e
    /\ StoreViews.file_answer "t2" e = Ok false
    /\ StoreViews.memory_answer "t2" e = Ok false.
Proof.
  apply (dependency_events_are_found_under_the_dependent_only Demo.new_store
           "t1" "t2" "t2").
  left. reflexivity.
Defined.

Lemma saveEvents_as_saveEvent_for_each_witness :
  Store.arrays Demo.store_and_batch !! 2%positive = Some [2%positive; 3%positive]
  /\ exists w1 w2,
       FileEventStore.saveEvents 2%positive Demo.store_and_batch = (Ok 2%positive, w1)
       /\ StoreViews.save_each [2%positive; 3%positive] Demo.store_and_batch = (Ok tt, w2)
       /\ Store.file (Store.fs w2) = Store.file (Store.fs w1).
Proof.
  split; [reflexivity|].
  destruct (saveEvents_as_saveEvent_for_each Demo.store_and_batch [1%positive]
              2%positive [2%positive; 3%positive] [Demo.event "b"; Demo.event "c"])
    as (w1 & w2 & E1 & E2 & _ & _ & _ & Hf & _);
    [by repeat split|by repeat split|reflexivity|reflexivity|discriminate|discriminate
    |by repeat constructor|].
  exists w1, w2. split; [exact E1|]. split; [exact E2|exact Hf].
Defined.

Lemma memory_store_clear_witness :
  StoreViews.memory Demo.store_in_use = Some [1%positive]
  /\ fst ((let* r := InMemoryEventStore.getAllEvents in
           InMemoryEventStore.clear ;; Store.read_array r) Demo.store_in_use)
     = Ok [1%positive].
Proof.
  split; [reflexivity|].
  apply (memory_store_clear Demo.store_in_use [1%positive] eq_refl).
Defined.

End StoreReadInstances.

(** ** The progress manager: lookups, creation and what follows a mutation *)

Section ManagerLookups.
Import Progress Views Manager.
Context `{Platform}.

Lemma findi_find {A} (f : A -> bool) (l : list A) :
  List.find f l = snd <$> findi f l.
Proof.
  induction l as [|x l IH]; simpl; [done|].
  destruct (f x); [done|]. rewrite IH. by destruct (findi f l) as [[i y]|].
Qed.

Lemma findi_None_find {A} (f : A -> bool) (l : list A) :
  findi f l = None -> List.find f l = None.
Proof. intros E. by rewrite findi_find, E. Qed.


(** X17.  In a project that is found, a milestone identifier that none of
    its milestones has, or a task identifier that none of the tasks of the
    milestone has, is reported in the same way: [updateTaskStatus] and
    [addTask] write one line on the console and return [null], the lookups
    return [null], and nothing else changes. *)
Theorem unknown_milestone_or_task_is_reported :
  forall (w : World) (pd : ProgressData) (pid : string) (l : loc) (p : Project)
         (ms : list Milestone),
    progressData (storage w) = Some pd ->
    List.find (has_projectId (heap w) pid) (projects pd) = Some l ->
    heap w !! l = Some p ->
    milestones p = Some ms ->
    (forall mid,
        findi (has_milestoneId mid) ms = None ->
        let reported := with_console (fun c => c ++ [MilestoneNotFound mid]) w in
        (forall tid s, updateTaskStatus pid mid tid s w = (Ok None, reported))
        /\ (forall u t d e pr, addTask u pid mid t d e pr w = (Ok None, reported))
        /\ getMilestone pid mid w = (Ok None, w)
        /\ (forall tid, getTask pid mid tid w = (Ok None, w))
        /\ updateMilestoneStatus pid mid w = (Ok None, w))
    /\ (forall mid j m tid,
          findi (has_milestoneId mid) ms = Some (j, m) ->
          findi (has_taskId tid) (tasks m) = None ->
          (forall s,
              updateTaskStatus pid mid tid s w
              = (Ok None, with_console (fun c => c ++ [TaskNotFound tid]) w))
          /\ getMilestone pid mid w = (Ok (Some m), w)
          /\ getTask pid mid tid w = (Ok None, w)).
Proof.
  intros w pd pid l p ms Hpd Hfind Hl Hms.
  assert (Hget : getProject pid w = (Ok (Some l), w)).
  { unfold getProject. rewrite (bind_getProgressData _ _ _ Hpd), bind_get.
    by rewrite Hfind. }
  assert (Hgm : forall mid,
             getMilestone pid mid w = (Ok (List.find (has_milestoneId mid) ms), w)).
  { intros mid. unfold getMilestone.
    rewrite (run_bind_ok _ _ _ _ _ Hget), (bind_deref _ _ _ _ Hl). by rewrite Hms. }
  split.
  - intros mid Hno reported.
    assert (Hgm' : getMilestone pid mid w = (Ok None, w)).
    { by rewrite Hgm, (findi_None_find _ _ Hno). }
    repeat split; intros;
      try (unfold updateTaskStatus, addTask, updateMilestoneStatus;
           rewrite (bind_getProgressData _ _ _ Hpd), bind_get, Hfind,
             (bind_deref _ _ _ _ Hl), Hms, Hno; reflexivity).
    + exact Hgm'.
    + unfold getTask. by rewrite (run_bind_ok _ _ _ _ _ Hgm').
  - intros mid j m tid Hm Hno.
    assert (Hgm' : getMilestone pid mid w = (Ok (Some m), w)).
    { by rewrite Hgm, findi_find, Hm. }
    repeat split.
    + intros s. unfold updateTaskStatus.
      rewrite (bind_getProgressData _ _ _ Hpd), bind_get, Hfind,
        (bind_deref _ _ _ _ Hl), Hms, Hm, Hno. reflexivity.
    + exact Hgm'.
    + unfold getTask. rewrite (run_bind_ok _ _ _ _ _ Hgm').
      by rewrite (findi_None_find _ _ Hno).
Qed.

Lemma bind_alloc {A} (K : loc -> M World A) (p : Project) (w : World) :
  bind (alloc p) K w
  = K (fresh (dom (heap w))) (with_heap (insert (fresh (dom (heap w))) p) w).
Proof. reflexivity. Qed.

Lemma fresh_heap (w : World) : heap w !! fresh (dom (heap w)) = None.
Proof. apply not_elem_of_dom, is_fresh. Qed.

Lemma emit_record_call {D} (em : Emitter.EventEmitter) (event : string) (d : D)
    (log : list (Emitter.EventHandler * D)) :
  Emitter.emit Emitter.record_call event d em log
  = log ++ Emitter.invocations em event d.
Proof.
  unfold Emitter.invocations, Emitter.emit.
  destruct (Emitter.handlers em !! event) as [l|]; [|by rewrite app_nil_r].
  by rewrite !fold_record_call.
Qed.

Lemma bind_emitM {A} (K : unit -> M World A) (t : ProgressEventType)
    (d : ProgressEventData) (w : World) :
  bind (emitM t d) K w
  = K tt (with_invoked
            (fun log => log ++ Emitter.invocations (events w) (eventName t) d) w).
Proof.
  unfold emitM. rewrite bind_modify. f_equal.
  destruct w as [h st em inv c con]. unfold with_invoked. simpl.
  by rewrite emit_record_call.
Qed.

Lemma addProject_run (w : World) (l : loc) (p : Project) :
  heap w !! l = Some p ->
  exists w',
    addProject l w = (Ok tt, w')
    /\ heap w' = <[fresh (dom (heap w)) := projectBase p]> (heap w)
    /\ progressData (storage w')
       = Some (with_added (projectId p) (fresh (dom (heap w))) (Spec.current_data w))
    /\ projectMap (storage w') = <[projectId p := l]> (projectMap (storage w))
    /\ same_but_projects w w'.
Proof.
  intros Hl. destruct w as [h [pph [pd|] pm mm tm] em inv c con]; simpl in Hl;
    unfold addProject, alloc, deref, modify_progressData, bind, ret, get, modify;
    simpl; rewrite Hl; simpl; eexists; (split; [reflexivity|]);
    repeat split;
    unfold with_added, Spec.current_data; simpl;
    try destruct pd as [ps ids stats]; simpl;
    try destruct (existsb _ _); reflexivity.
Qed.

Lemma createProject_run :
  forall (w : World) (uuid title : string) (description : option string),
    let now := isoStringAt (clock w) in
    let project := mkProject uuid NOT_STARTED title description now now (Some []) in
    exists l base w',
      createProject uuid title description w = (Ok l, w')
      /\ heap w !! l = None
      /\ heap w !! base = None
      /\ l <> base
      /\ heap w' = <[base := projectBase project]> (<[l := project]> (heap w))
      /\ progressData (storage w') = Some (with_added uuid base (Spec.current_data w))
      /\ projectMap (storage w') = <[uuid := l]> (projectMap (storage w))
      /\ invoked w'
         = invoked w
           ++ Emitter.invocations (events w) (eventName PROJECT_CREATED)
                (ProjectData PROJECT_CREATED project)
      /\ clock w' = S (clock w)
      /\ console w' = console w.
Proof.
  intros w uuid title description now project.
  unfold createProject. rewrite bind_getCurrentISOString, bind_alloc.
  fold now. fold project.
  set (l := fresh (dom (heap (with_clock S w)))).
  set (w1 := with_heap (insert l project) (with_clock S w)).
  assert (Hl : heap w !! l = None) by exact (fresh_heap (with_clock S w)).
  assert (Hl1 : heap w1 !! l = Some project).
  { unfold w1. simpl. apply lookup_insert_eq. }
  destruct (addProject_run w1 l project Hl1)
    as (w2 & E & Hh & Hpd & Hpm & _ & _ & _ & Hev & Hinv & Hc & Hcon).
  set (b := fresh (dom (heap w1))) in Hh, Hpd |- *.
  assert (Hb1 : heap w1 !! b = None) by apply fresh_heap.
  assert (Hne : l <> b).
  { intros Heq. rewrite Heq in Hl1. by rewrite Hb1 in Hl1. }
  assert (Hl2 : heap w2 !! l = Some project).
  { rewrite Hh, lookup_insert_ne; [exact Hl1|]. by intros Heq; apply Hne. }
  exists l, b.
  rewrite (run_bind_ok _ _ _ _ _ E), bind_save, (bind_deref _ _ _ _ Hl2), bind_emitM.
  eexists. split; [reflexivity|]. split; [exact Hl|]. split.
  { unfold w1 in Hb1. simpl in Hb1. rewrite lookup_insert_ne in Hb1; done. }
  split; [exact Hne|]. split; [exact Hh|]. split; [exact Hpd|].
  split; [exact Hpm|]. simpl. split; [by rewrite Hinv, Hev|].
  split; [by rewrite Hc|by rewrite Hcon].
Qed.

(** X18.  [createProject] builds two objects: the project it returns,
    which has an empty [milestones] array and goes into [projectMap], and a
    [ProjectBase] without [milestones], which is what it appends to
    [progressData.projects].  The identifier is appended to [projectIds]
    unless it is there already, the statistics are untouched, the clock is
    read once for both dates, and the handlers of [PROJECT_CREATED] are
    called with the project. *)
Theorem createProject_adds_a_separate_entry :
  forall (w : World) (uuid title : string) (description : option string),
    let now := isoStringAt (clock w) in
    let project := mkProject uuid NOT_STARTED title description now now (Some []) in
    let pd := Spec.current_data w in
    exists l b w' pd',
      createProject uuid title description w = (Ok l, w')
      /\ l <> b
      /\ heap w' !! l = Some project
      /\ heap w' !! b = Some (projectBase project)
      /\ heap_extends w w'
      /\ progressData (storage w') = Some pd'
      /\ projects pd' = projects pd ++ [b]
      /\ In uuid (projectIds pd')
      /\ (In uuid (projectIds pd) -> projectIds pd' = projectIds pd)
      /\ (~ In uuid (projectIds pd) -> projectIds pd' = projectIds pd ++ [uuid])
      /\ statistics pd' = statistics pd
      /\ projectMap (storage w') !! uuid = Some l
      /\ invoked w'
         = invoked w
           ++ Emitter.invocations (events w) (eventName PROJECT_CREATED)
                (ProjectData PROJECT_CREATED project)
      /\ clock w' = S (clock w)
      /\ console w' = console w.
Proof.
  intros w uuid title description now project pd.
  destruct (createProject_run w uuid title description)
    as (l & b & w' & E & Hl & Hb & Hne & Hh & Hpd & Hpm & Hinv & Hc & Hcon).
  exists l, b, w', (with_added uuid b pd).
  split; [exact E|]. split; [exact Hne|].
  split; [rewrite Hh, lookup_insert_ne; [apply lookup_insert_eq|by intros ->]|].
  split; [rewrite Hh; apply lookup_insert_eq|].
  split.
  { intros x q Hx. rewrite Hh, !lookup_insert_ne; [done|congruence..]. }
  split; [exact Hpd|]. split; [done|].
  assert (Hex : existsb (String.eqb uuid) (projectIds pd) = true
                <-> In uuid (projectIds pd)).
  { rewrite existsb_exists. split.
    - intros (x & Hin & Heq). apply String.eqb_eq in Heq. by subst.
    - intros Hin. exists uuid. split; [done|apply String.eqb_refl]. }
  unfold with_added. simpl.
  destruct (existsb (String.eqb uuid) (projectIds pd)) eqn:Ex.
  - split; [by apply Hex|]. split; [done|].
    split; [intros Hn; exfalso; by apply Hn, Hex|].
    split; [done|]. split; [rewrite Hpm; apply lookup_insert_eq|]. done.
  - split; [apply in_or_app; right; by left|].
    split; [intros Hin; apply Hex in Hin; discriminate|]. split; [done|].
    split; [done|]. split; [rewrite Hpm; apply lookup_insert_eq|]. done.
Qed.

Lemma has_projectId_extends (w w' : World) (pid : string) (ps : list loc) :
  allocated w ps ->
  heap_extends w w' ->
  Forall (fun x => has_projectId (heap w') pid x = has_projectId (heap w) pid x) ps.
Proof.
  intros Hall Hext. eapply List.Forall_impl; [|exact Hall].
  intros x [q Hq]. unfold has_projectId. by rewrite (Hext x q Hq), Hq.
Qed.

Lemma find_same {A} (f g : A -> bool) (l : list A) :
  Forall (fun x => f x = g x) l -> List.find f l = List.find g l.
Proof.
  induction 1 as [|x l Hx _ IH]; simpl; [done|]. by rewrite Hx, IH.
Qed.

Lemma find_app_not_found {A} (f : A -> bool) (l : list A) (x : A) :
  List.find f l = None -> f x = true -> List.find f (l ++ [x]) = Some x.
Proof.
  induction l as [|y l IH]; simpl.
  - intros _ ->. done.
  - destruct (f y); [done|]. exact IH.
Qed.

(** The lookups of the manager on a project whose entry in
    [progressData.projects] is an object without [milestones]. *)
Lemma lookups_on_projectBase (w : World) (pd : ProgressData) (pid : string)
    (b : loc) (q : Project) :
  progressData (storage w) = Some pd ->
  List.find (has_projectId (heap w) pid) (projects pd) = Some b ->
  heap w !! b = Some q ->
  milestones q = None ->
  getProject pid w = (Ok (Some b), w)
  /\ (forall mid, getMilestone pid mid w = (Throw TypeError, w))
  /\ (forall mid tid, getTask pid mid tid w = (Throw TypeError, w))
  /\ (forall u t d dd, addMilestone u pid t d dd w = (Throw TypeError, w))
  /\ (forall u mid t d e p, addTask u pid mid t d e p w = (Throw TypeError, w))
  /\ (forall mid tid s, updateTaskStatus pid mid tid s w = (Throw TypeError, w))
  /\ (forall mid, updateMilestoneStatus pid mid w = (Throw TypeError, w))
  /\ updateProjectStatus pid w = (Throw TypeError, w).
Proof.
  intros Hpd Hfind Hb Hq.
  assert (Hget : getProject pid w = (Ok (Some b), w)).
  { unfold getProject. rewrite (bind_getProgressData _ _ _ Hpd), bind_get.
    by rewrite Hfind. }
  assert (Hgm : forall mid, getMilestone pid mid w = (Throw TypeError, w)).
  { intros mid. unfold getMilestone.
    rewrite (run_bind_ok _ _ _ _ _ Hget), (bind_deref _ _ _ _ Hb). by rewrite Hq. }
  split; [exact Hget|]. split; [exact Hgm|]. split.
  { intros mid tid. unfold getTask. by rewrite (run_bind_throw _ _ _ _ _ (Hgm mid)). }
  repeat split; intros;
    unfold addMilestone, addTask, updateTaskStatus, updateMilestoneStatus,
      updateProjectStatus;
    rewrite (bind_getProgressData _ _ _ Hpd), bind_get, Hfind,
      (bind_deref _ _ _ _ Hb), Hq; reflexivity.
Qed.

(** X19.  The manager cannot give milestones to a project that
    [createProject] made.  When no earlier project has the identifier,
    [getProject] then returns the [ProjectBase] of the storage, an object
    other than the one [createProject] returned and without [milestones];
    so [addMilestone], [addTask], [getMilestone], [getTask] and the status
    updates throw a [TypeError] on that identifier, and change nothing. *)
Theorem created_project_has_no_milestones_array :
  forall (w : World) (uuid title : string) (description : option string),
    allocated w (projects (Spec.current_data w)) ->
    List.find (has_projectId (heap w) uuid) (projects (Spec.current_data w)) = None ->
    exists l b w',
      createProject uuid title description w = (Ok l, w')
      /\ b <> l
      /\ (exists p, heap w' !! l = Some p /\ milestones p = Some [])
      /\ (exists q, heap w' !! b = Some q /\ milestones q = None)
      /\ getProject uuid w' = (Ok (Some b), w')
      /\ (forall mid, getMilestone uuid mid w' = (Throw TypeError, w'))
      /\ (forall mid tid, getTask uuid mid tid w' = (Throw TypeError, w'))
      /\ (forall u t d dd, addMilestone u uuid t d dd w' = (Throw TypeError, w'))
      /\ (forall u mid t d e p, addTask u uuid mid t d e p w' = (Throw TypeError, w'))
      /\ (forall mid tid s, updateTaskStatus uuid mid tid s w' = (Throw TypeError, w'))
      /\ (forall mid, updateMilestoneStatus uuid mid w' = (Throw TypeError, w'))
      /\ updateProjectStatus uuid w' = (Throw TypeError, w').
Proof.
  intros w uuid title description Hall Hfind.
  destruct (createProject_run w uuid title description)
    as (l & b & w' & E & Hl & Hb & Hne & Hh & Hpd & _).
  set (project := mkProject uuid NOT_STARTED title description
                    (isoStringAt (clock w)) (isoStringAt (clock w)) (Some [])) in *.
  assert (Hext : heap_extends w w').
  { intros x q Hx. rewrite Hh, !lookup_insert_ne; [done|congruence..]. }
  assert (Hb' : heap w' !! b = Some (projectBase project)).
  { rewrite Hh. apply lookup_insert_eq. }
  assert (Hfind' : List.find (has_projectId (heap w') uuid)
                     (projects (with_added uuid b (Spec.current_data w))) = Some b).
  { simpl. apply find_app_not_found.
    - rewrite <- Hfind. apply find_same. by apply has_projectId_extends.
    - unfold has_projectId. rewrite Hb'. simpl. apply String.eqb_refl. }
  exists l, b, w'. split; [exact E|]. split; [congruence|]. split.
  { exists project. split; [|done].
    rewrite Hh, lookup_insert_ne; [apply lookup_insert_eq|congruence]. }
  split; [by exists (projectBase project)|].
  exact (lookups_on_projectBase w' _ uuid b _ Hpd Hfind' Hb' eq_refl).
Qed.

(** *** What [updateProject] leaves in [progressData.projects] *)

Lemma find_findIndex {A} (f : A -> bool) (l : list A) (x : A) :
  List.find f l = Some x -> exists i, findIndex f l = Some i.
Proof.
  induction l as [|y l IH]; simpl; [done|].
  destruct (f y); [by eexists|]. intros Hx. destruct (IH Hx) as [i ->]. by eexists.
Qed.

Lemma find_replaced {A} (f g : A -> bool) (l : list A) (i : nat) (b : A) :
  findIndex f l = Some i ->
  Forall (fun x => g x = f x) l ->
  g b = true ->
  List.find g (<[i := b]> l) = Some b.
Proof.
  intros Hi Hall Hb. revert i Hi.
  induction Hall as [|x l Hx _ IH]; intros i; simpl; [done|].
  destruct (f x) eqn:Hf.
  - intros [= <-]. simpl. by rewrite Hb.
  - destruct (findIndex f l) as [i'|]; [|done]. intros [= <-]. simpl.
    rewrite Hx. by apply IH.
Qed.

Lemma find_projectId (w : World) (pid : string) (ps : list loc) (l : loc) (p : Project) :
  List.find (has_projectId (heap w) pid) ps = Some l ->
  heap w !! l = Some p ->
  projectId p = pid.
Proof.
  intros Hfind Hl. apply find_some in Hfind as [_ Hid].
  unfold has_projectId in Hid. rewrite Hl in Hid. by apply String.eqb_eq.
Qed.

Lemma updateProject_detaches (w : World) (pd : ProgressData) (pid : string)
    (l : loc) (p : Project) :
  progressData (storage w) = Some pd ->
  allocated w (projects pd) ->
  List.find (has_projectId (heap w) pid) (projects pd) = Some l ->
  heap w !! l = Some p ->
  exists w' b pd',
    updateProject l w = (Ok tt, w')
    /\ heap w !! b = None
    /\ heap w' = <[b := projectBase p]> (heap w)
    /\ progressData (storage w') = Some pd'
    /\ List.find (has_projectId (heap w') pid) (projects pd') = Some b
    /\ projectIds pd' = projectIds pd
    /\ statistics pd' = statistics pd
    /\ same_but_projects w w'.
Proof.
  intros Hpd Hall Hfind Hl.
  pose proof (find_projectId w pid _ l p Hfind Hl) as Hid.
  destruct (find_findIndex _ _ _ Hfind) as [i Hi].
  set (b := fresh (dom (heap w))).
  assert (Hb : heap w !! b = None) by apply fresh_heap.
  exists (with_storage
            (fun st => with_progressData
                         (Some (with_projects (<[i := b]> (projects pd)) pd))
                         (with_projectMap (insert (projectId p) l) st))
            (with_heap (insert b (projectBase p)) w)),
    b, (with_projects (<[i := b]> (projects pd)) pd).
  split.
  { unfold updateProject. rewrite bind_get, Hpd, (bind_deref _ _ _ _ Hl), bind_modify.
    rewrite Hid, Hi. unfold alloc, bind, modify. simpl. fold b.
    destruct w as [h [pph pdo pm mm tm] em inv c con]. simpl in *. subst pdo.
    reflexivity. }
  split; [exact Hb|]. split; [done|].
  split; [by destruct w as [h [pph pdo pm mm tm] em inv c con]|].
  split.
  { simpl. apply (find_replaced (has_projectId (heap w) pid)); [exact Hi| |].
    - eapply List.Forall_impl; [|exact Hall].
      intros x [q Hq]. unfold has_projectId. rewrite lookup_insert_ne, Hq; [done|].
      intros <-. by rewrite Hb in Hq.
    - unfold has_projectId. rewrite lookup_insert_eq. simpl. rewrite Hid.
      apply String.eqb_refl. }
  split; [done|]. split; [done|].
  by destruct w as [h [pph pdo pm mm tm] em inv c con].
Qed.

(** Changing the project object behind [l] in place, with its identifier
    kept. *)
Lemma has_projectId_alter (h : gmap loc Project) (F : Project -> Project)
    (l : loc) (pid : string) (x : loc) :
  (forall q, projectId (F q) = projectId q) ->
  has_projectId (alter F l h) pid x = has_projectId h pid x.
Proof.
  intros HF. unfold has_projectId. destruct (decide (x = l)) as [->|Hne].
  - rewrite lookup_alter_eq. destruct (h !! l); simpl; [by rewrite HF|done].
  - by rewrite lookup_alter_ne.
Qed.

Lemma find_alter (h : gmap loc Project) (F : Project -> Project) (l : loc)
    (pid : string) (ps : list loc) :
  (forall q, projectId (F q) = projectId q) ->
  List.find (has_projectId (alter F l h) pid) ps = List.find (has_projectId h pid) ps.
Proof.
  intros HF. apply find_same, List.Forall_forall. intros x _.
  by apply has_projectId_alter.
Qed.

Lemma allocated_alter (w : World) (F : Project -> Project) (l : loc) (ps : list loc) :
  allocated w ps -> allocated (with_heap (alter F l) w) ps.
Proof.
  intros Hall. eapply List.Forall_impl; [|exact Hall]. intros x [q Hq]. simpl.
  destruct (decide (x = l)) as [->|Hne].
  - rewrite lookup_alter_eq, Hq. by eexists.
  - rewrite lookup_alter_ne; [by eexists|done].
Qed.

Lemma allocated_with_clock (w : World) (f : nat -> nat) (ps : list loc) :
  allocated w ps -> allocated (with_clock f w) ps.
Proof. done. Qed.

(** The state in which [addMilestone], [addTask] and [updateTaskStatus]
    call [updateProject]: the project object behind [l] was changed in
    place by [F], and the clock was read [n] times. *)
Lemma changed_then_detached (w : World) (pd : ProgressData) (pid : string)
    (l : loc) (p : Project) (F : Project -> Project) (n : nat) :
  progressData (storage w) = Some pd ->
  allocated w (projects pd) ->
  List.find (has_projectId (heap w) pid) (projects pd) = Some l ->
  heap w !! l = Some p ->
  (forall q, projectId (F q) = projectId q) ->
  exists w' b pd',
    updateProject l (with_clock (Nat.add n) (with_heap (alter F l) w)) = (Ok tt, w')
    /\ b <> l
    /\ heap w !! b = None
    /\ heap w' = <[b := projectBase (F p)]> (alter F l (heap w))
    /\ progressData (storage w') = Some pd'
    /\ List.find (has_projectId (heap w') pid) (projects pd') = Some b
    /\ projectIds pd' = projectIds pd
    /\ statistics pd' = statistics pd
    /\ events w' = events w
    /\ invoked w' = invoked w
    /\ clock w' = n + clock w
    /\ console w' = console w.
Proof.
  intros Hpd Hall Hfind Hl HF.
  set (w1 := with_clock (Nat.add n) (with_heap (alter F l) w)).
  assert (Hl1 : heap w1 !! l = Some (F p)).
  { unfold w1. simpl. by rewrite lookup_alter_eq, Hl. }
  destruct (updateProject_detaches w1 pd pid l (F p))
    as (w' & b & pd' & E & Hb & Hh & Hpd' & Hfind' & Hids & Hst & Hsame).
  - exact Hpd.
  - by apply allocated_with_clock, allocated_alter.
  - unfold w1. simpl. by rewrite find_alter.
  - exact Hl1.
  - destruct Hsame as (_ & _ & _ & Hev & Hinv & Hc & Hcon).
    exists w', b, pd'. split; [exact E|]. split.
    { intros ->. by rewrite Hl1 in Hb. }
    split.
    { unfold w1 in Hb. simpl in Hb. destruct (decide (b = l)) as [->|Hne].
      - by rewrite lookup_alter_eq, Hl in Hb.
      - by rewrite lookup_alter_ne in Hb. }
    repeat (split; [done|]). done.
Qed.

Lemma two_changes (w : World) (l : loc) (F U : Project -> Project) :
  with_heap (alter U l) (with_clock S (with_heap (alter F l) w))
  = with_clock (Nat.add 1) (with_heap (alter (U ∘ F) l) w).
Proof.
  destruct w as [h st em inv c con]. unfold with_heap, with_clock. simpl.
  f_equal. apply alter_alter_eq.
Qed.

Lemma bind_read_task {A} (K : Task -> M World A) (w : World) (l : loc) (j k : nat)
    (p : Project) (t : Task) :
  heap w !! l = Some p -> task_at p j k = Some t ->
  bind (read_task l j k) K w = K t w.
Proof.
  intros Hl Ht. unfold read_task. rewrite bind_assoc, (bind_deref _ _ _ _ Hl), Ht.
  by rewrite bind_ret.
Qed.

Lemma bind_read_milestone {A} (K : Milestone -> M World A) (w : World) (l : loc)
    (j : nat) (p : Project) (m : Milestone) :
  heap w !! l = Some p -> milestone_at p j = Some m ->
  bind (read_milestone l j) K w = K m w.
Proof.
  intros Hl Hm. unfold read_milestone. rewrite bind_assoc, (bind_deref _ _ _ _ Hl), Hm.
  by rewrite bind_ret.
Qed.

(** X20.  [addTask] on a project and a milestone that are found appends
    the new task to the [tasks] of that milestone, with status NotStarted,
    one estimated point unless the caller gives a number, and priority
    [MUST] unless the caller gives one; it stamps [updatedAt], calls the
    handlers of [TASK_CREATED] with the task and returns it; the other
    milestones and the statuses are as before.  After that the entry of the
    project in [progressData.projects] is a [ProjectBase]: [getProject]
    returns an object other than the one that holds the task, and [getTask]
    for the new task throws a [TypeError]. *)
Theorem addTask_appends_the_task :
  forall (w : World) (pd : ProgressData) (pid mid : string) (l : loc) (p : Project)
         (ms : list Milestone) (j : nat) (m : Milestone)
         (uuid title : string) (description : option string)
         (points : option number) (priority : option TaskPriority),
    progressData (storage w) = Some pd ->
    allocated w (projects pd) ->
    List.find (has_projectId (heap w) pid) (projects pd) = Some l ->
    heap w !! l = Some p ->
    milestones p = Some ms ->
    findi (has_milestoneId mid) ms = Some (j, m) ->
    let task :=
      mkTask uuid title description NOT_STARTED (default MUST priority)
        (default (of_Z 1) points) None None None in
    exists w' b,
      addTask uuid pid mid title description points priority w = (Ok (Some task), w')
      /\ heap w' !! l
         = Some (set_updatedAt (isoStringAt (clock w))
                   (set_milestones
                      (Some (alter (fun m0 => set_tasks (tasks m0 ++ [task]) m0) j ms))
                      p))
      /\ (heap w' !! l) ≫= (fun p' => milestone_at p' j)
         = Some (set_tasks (tasks m ++ [task]) m)
      /\ (forall j', j' <> j ->
            (heap w' !! l) ≫= (fun p' => milestone_at p' j') = milestone_at p j')
      /\ invoked w'
         = invoked w
           ++ Emitter.invocations (events w) (eventName TASK_CREATED)
                (TaskData TASK_CREATED task pid)
      /\ console w' = console w
      /\ b <> l
      /\ getProject pid w' = (Ok (Some b), w')
      /\ getTask pid mid uuid w' = (Throw TypeError, w').
Proof.
  intros w pd pid mid l p ms j m uuid title description points priority
    Hpd Hall Hfind Hl Hms Hm task.
  destruct (findi_lookup _ _ _ _ Hm) as [Hj _].
  set (G := fun m0 : Milestone => set_tasks (tasks m0 ++ [task]) m0).
  set (F := fun q : Project => set_milestones (alter G j <$> milestones q) q).
  set (U := set_updatedAt (isoStringAt (clock w))).
  destruct (changed_then_detached w pd pid l p (U ∘ F) 1 Hpd Hall Hfind Hl)
    as (w' & b & pd' & E & Hne & Hb & Hh & Hpd' & Hfind' & _ & _ & Hev & Hinv & _ & Hcon);
    [done|].
  assert (HFp : (U ∘ F) p
                = set_updatedAt (isoStringAt (clock w))
                    (set_milestones (Some (alter G j ms)) p)).
  { unfold U, F. simpl. by rewrite Hms. }
  assert (Hl' : heap w' !! l = Some ((U ∘ F) p)).
  { rewrite Hh, lookup_insert_ne, lookup_alter_eq, Hl; done. }
  assert (Hmj : milestone_at ((U ∘ F) p) j = Some (G m)).
  { rewrite HFp. unfold milestone_at. simpl. by rewrite list_lookup_alter_eq, Hj. }
  assert (Htask : task_at ((U ∘ F) p) j (length (tasks m)) = Some task).
  { unfold task_at. rewrite Hmj. unfold G. simpl.
    rewrite lookup_app_r; [|done]. by rewrite Nat.sub_diag. }
  assert (Hbq : heap w' !! b = Some (projectBase ((U ∘ F) p))).
  { rewrite Hh. apply lookup_insert_eq. }
  set (w'' := with_invoked
                (fun log => log ++ Emitter.invocations (events w')
                                     (eventName TASK_CREATED)
                                     (TaskData TASK_CREATED task pid)) w').
  destruct (lookups_on_projectBase w'' pd' pid b _ Hpd' Hfind' Hbq eq_refl)
    as (Hget & _ & Hgt & _).
  exists w'', b.
  split.
  { unfold addTask.
    rewrite (bind_getProgressData _ _ _ Hpd), bind_get, Hfind,
      (bind_deref _ _ _ _ Hl), Hms, Hm.
    rewrite bind_modify_milestone, bind_getCurrentISOString, bind_modify_project.
    change (clock (with_heap _ w)) with (clock w).
    fold G. fold F. fold U. rewrite two_changes.
    rewrite (run_bind_ok _ _ _ _ _ E), bind_save.
    rewrite (bind_read_task _ _ _ _ _ _ _ Hl' Htask), bind_emitM. reflexivity. }
  change (heap w'') with (heap w'). rewrite Hl'.
  split; [by rewrite HFp|].
  split; [exact Hmj|].
  split.
  { intros j' Hj'. rewrite HFp. unfold milestone_at. simpl.
    rewrite Hms. by rewrite list_lookup_alter_ne. }
  split; [simpl; by rewrite Hinv, Hev|].
  split; [exact Hcon|]. split; [exact Hne|].
  split; [exact Hget|apply Hgt].
Qed.

(** X21.  [addMilestone] on a project that is found, and that has its
    [milestones] array, appends a new milestone with status NotStarted and
    no task, stamps [updatedAt], calls the handlers of [MILESTONE_CREATED]
    and returns the milestone.  After that the entry of the project in
    [progressData.projects] is a [ProjectBase]: a second [addMilestone], an
    [addTask] to the new milestone, and [getMilestone] for it, throw a
    [TypeError]. *)
Theorem addMilestone_appends_the_milestone :
  forall (w : World) (pd : ProgressData) (pid : string) (l : loc) (p : Project)
         (ms : list Milestone) (uuid title : string)
         (description dueDate : option string),
    progressData (storage w) = Some pd ->
    allocated w (projects pd) ->
    List.find (has_projectId (heap w) pid) (projects pd) = Some l ->
    heap w !! l = Some p ->
    milestones p = Some ms ->
    let milestone := mkMilestone uuid NOT_STARTED title description dueDate None [] in
    exists w' b,
      addMilestone uuid pid title description dueDate w = (Ok (Some milestone), w')
      /\ heap w' !! l
         = Some (set_updatedAt (isoStringAt (clock w))
                   (set_milestones (Some (ms ++ [milestone])) p))
      /\ invoked w'
         = invoked w
           ++ Emitter.invocations (events w) (eventName MILESTONE_CREATED)
                (MilestoneData MILESTONE_CREATED milestone pid)
      /\ console w' = console w
      /\ b <> l
      /\ getProject pid w' = (Ok (Some b), w')
      /\ getMilestone pid uuid w' = (Throw TypeError, w')
      /\ (forall u t d dd, addMilestone u pid t d dd w' = (Throw TypeError, w'))
      /\ (forall u t d e pr, addTask u pid uuid t d e pr w' = (Throw TypeError, w')).
Proof.
  intros w pd pid l p ms uuid title description dueDate Hpd Hall Hfind Hl Hms milestone.
  set (F := set_milestones (Some (ms ++ [milestone]))).
  set (U := set_updatedAt (isoStringAt (clock w))).
  destruct (changed_then_detached w pd pid l p (U ∘ F) 1 Hpd Hall Hfind Hl)
    as (w' & b & pd' & E & Hne & Hb & Hh & Hpd' & Hfind' & _ & _ & Hev & Hinv & _ & Hcon);
    [done|].
  assert (Hl' : heap w' !! l = Some ((U ∘ F) p)).
  { rewrite Hh, lookup_insert_ne, lookup_alter_eq, Hl; done. }
  assert (Hm : milestone_at ((U ∘ F) p) (length ms) = Some milestone).
  { unfold milestone_at. simpl. rewrite lookup_app_r; [|done]. by rewrite Nat.sub_diag. }
  assert (Hbq : heap w' !! b = Some (projectBase ((U ∘ F) p))).
  { rewrite Hh. apply lookup_insert_eq. }
  set (w'' := with_invoked
                (fun log => log ++ Emitter.invocations (events w')
                                     (eventName MILESTONE_CREATED)
                                     (MilestoneData MILESTONE_CREATED milestone pid)) w').
  destruct (lookups_on_projectBase w'' pd' pid b _ Hpd' Hfind' Hbq eq_refl)
    as (Hget & Hgm & _ & Ham & Hat & _).
  exists w'', b. split.
  { unfold addMilestone.
    rewrite (bind_getProgressData _ _ _ Hpd), bind_get, Hfind,
      (bind_deref _ _ _ _ Hl), Hms.
    rewrite bind_modify_project, bind_getCurrentISOString, bind_modify_project.
    change (clock (with_heap _ w)) with (clock w).
    fold milestone. fold F. fold U. rewrite two_changes.
    rewrite (run_bind_ok _ _ _ _ _ E), bind_save.
    rewrite (bind_read_milestone _ _ _ _ _ _ Hl' Hm), bind_emitM. reflexivity. }
  change (heap w'') with (heap w'). rewrite Hl'.
  split; [done|]. split; [simpl; by rewrite Hinv, Hev|].
  split; [exact Hcon|]. split; [exact Hne|]. split; [exact Hget|].
  split; [apply Hgm|]. split; [exact Ham|]. intros. apply Hat.
Qed.

(** *** [updateTaskStatus] on a task that is found *)

Lemma first_task_step {A} (K : unit -> M World A) (l : loc) (j k : nat)
    (g : Task -> Task) (w : World) :
  bind (modify_task l j k g) K w = K tt (changed 0 (on_task j k g) l w).
Proof. unfold modify_task. by rewrite bind_modify_milestone. Qed.

Lemma changed_changed (w : World) (l : loc) (n : nat) (F G : Project -> Project) :
  with_heap (alter G l) (changed n F l w) = changed n (G ∘ F) l w.
Proof.
  destruct w as [h st em inv c con]. unfold changed, with_heap, with_clock. simpl.
  f_equal. apply alter_alter_eq.
Qed.

Lemma step_task {A} (K : unit -> M World A) (l : loc) (j k : nat) (g : Task -> Task)
    (n : nat) (F : Project -> Project) (w : World) :
  bind (modify_task l j k g) K (changed n F l w)
  = K tt (changed n (on_task j k g ∘ F) l w).
Proof.
  unfold modify_task. rewrite bind_modify_milestone.
  by rewrite <- changed_changed.
Qed.

Lemma step_project {A} (K : unit -> M World A) (l : loc) (g : Project -> Project)
    (n : nat) (F : Project -> Project) (w : World) :
  bind (modify_project l g) K (changed n F l w) = K tt (changed n (g ∘ F) l w).
Proof. rewrite bind_modify_project. by rewrite changed_changed. Qed.

Lemma step_clock {A} (K : string -> M World A) (l : loc)
    (n : nat) (F : Project -> Project) (w : World) :
  bind getCurrentISOString K (changed n F l w)
  = K (isoStringAt (n + clock w)) (changed (S n) F l w).
Proof. by rewrite bind_getCurrentISOString. Qed.

Lemma task_at_on_task (p : Project) (j k : nat) (g : Task -> Task) (t : Task) :
  task_at p j k = Some t -> task_at (on_task j k g p) j k = Some (g t).
Proof.
  unfold task_at, milestone_at, on_task. simpl.
  destruct (milestones p) as [ms|]; [|done]. simpl.
  rewrite list_lookup_alter_eq. destruct (ms !! j) as [m|]; [|done]. simpl.
  rewrite list_lookup_alter_eq. by intros ->.
Qed.

Lemma on_task_on_task (p : Project) (j k : nat) (g1 g2 : Task -> Task) :
  on_task j k g2 (on_task j k g1 p) = on_task j k (g2 ∘ g1) p.
Proof.
  unfold on_task. destruct p as [? ? ? ? ? ? [ms|]]; simpl; [|done].
  unfold set_milestones. simpl. do 2 f_equal. rewrite list_alter_alter_eq.
  apply list_alter_ext; [|done]. intros m _. simpl.
  unfold set_tasks. simpl. f_equal. apply list_alter_alter_eq.
Qed.

Lemma on_task_const (p : Project) (j k : nat) (g : Task -> Task) (t : Task) :
  task_at p j k = Some t -> on_task j k g p = on_task j k (fun _ => g t) p.
Proof.
  unfold task_at, milestone_at, on_task.
  destruct p as [? ? ? ? ? ? [ms|]]; simpl; [|done].
  intros Ht. unfold set_milestones. simpl. do 2 f_equal.
  apply list_alter_ext; [|done]. intros m Hm. rewrite Hm in Ht.
  f_equal. apply list_alter_ext; [|done]. intros x Hx. congruence.
Qed.

Lemma statuses_on_task (p : Project) (j k : nat) (g : Task -> Task) :
  statuses (on_task j k g p) = statuses p.
Proof.
  unfold statuses, on_task. simpl. f_equal.
  destruct (milestones p) as [ms|]; [|done]. simpl. f_equal.
  clear. revert j. induction ms as [|m ms IH]; intros [|j]; simpl; [done..|].
  f_equal. apply IH.
Qed.

Lemma emit_task_event {A} (K : unit -> M World A) (s : Status) (t : Task)
    (pid : string) (w : World) :
  bind (if Status_eqb s IN_PROGRESS then emitM TASK_STARTED (TaskData TASK_STARTED t pid)
        else if Status_eqb s COMPLETED
        then emitM TASK_COMPLETED (TaskData TASK_COMPLETED t pid)
        else emitM TASK_UPDATED (TaskData TASK_UPDATED t pid)) K w
  = bind (emitM (task_event s) (TaskData (task_event s) t pid)) K w.
Proof. unfold task_event. by destruct (Status_eqb s IN_PROGRESS), (Status_eqb s COMPLETED). Qed.

Lemma cascade_stops (w : World) (pd : ProgressData) (pid mid : string) (l : loc)
    (p : Project) (j k : nat) (s : Status) (n : nat) (F : Project -> Project)
    (t' : Task) :
  progressData (storage w) = Some pd ->
  allocated w (projects pd) ->
  List.find (has_projectId (heap w) pid) (projects pd) = Some l ->
  heap w !! l = Some p ->
  (forall q, projectId (F q) = projectId q) ->
  task_at (F p) j k = Some t' ->
  exists w' b,
    (let* now := getCurrentISOString in
     modify_project l (set_updatedAt now) ;;
     updateProject l ;;
     save ;;
     let* t := read_task l j k in
     (if Status_eqb s IN_PROGRESS then
        emitM TASK_STARTED (TaskData TASK_STARTED t pid)
      else if Status_eqb s COMPLETED then
        emitM TASK_COMPLETED (TaskData TASK_COMPLETED t pid)
      else
        emitM TASK_UPDATED (TaskData TASK_UPDATED t pid)) ;;
     updateMilestoneStatus pid mid ;;
     let* t'' := read_task l j k in
     ret (Some t'')) (changed n F l w)
    = (Throw TypeError, w')
    /\ heap w' !! l = Some (set_updatedAt (isoStringAt (n + clock w)) (F p))
    /\ invoked w'
       = invoked w
         ++ Emitter.invocations (events w) (eventName (task_event s))
              (TaskData (task_event s) t' pid)
    /\ console w' = console w
    /\ b <> l
    /\ getProject pid w' = (Ok (Some b), w').
Proof.
  intros Hpd Hall Hfind Hl HF Ht.
  set (U := set_updatedAt (isoStringAt (n + clock w))).
  destruct (changed_then_detached w pd pid l p (U ∘ F) (S n) Hpd Hall Hfind Hl)
    as (w' & b & pd' & E & Hne & Hb & Hh & Hpd' & Hfind' & _ & _ & Hev & Hinv & _ & Hcon).
  { intros q. simpl. apply HF. }
  assert (Hl' : heap w' !! l = Some ((U ∘ F) p)).
  { rewrite Hh, lookup_insert_ne, lookup_alter_eq, Hl; done. }
  assert (Hbq : heap w' !! b = Some (projectBase ((U ∘ F) p))).
  { rewrite Hh. apply lookup_insert_eq. }
  set (w'' := with_invoked
                (fun log => log ++ Emitter.invocations (events w')
                                     (eventName (task_event s))
                                     (TaskData (task_event s) t' pid)) w').
  destruct (lookups_on_projectBase w'' pd' pid b _ Hpd' Hfind' Hbq eq_refl)
    as (Hget & _ & _ & _ & _ & _ & Hums & _).
  exists w'', b. split.
  { rewrite step_clock, step_project. fold U.
    unfold changed at 1.
    rewrite (run_bind_ok _ _ _ _ _ E), bind_save.
    rewrite (bind_read_task _ _ _ _ _ _ _ Hl' Ht), emit_task_event, bind_emitM.
    fold w''. by rewrite (run_bind_throw _ _ _ _ _ (Hums mid)). }
  change (heap w'') with (heap w'). split; [exact Hl'|].
  split; [simpl; by rewrite Hinv, Hev|]. split; [exact Hcon|].
  split; [exact Hne|exact Hget].
Qed.

Ltac push_task H :=
  repeat match goal with
         | |- context [on_task ?j ?k ?g ?q] =>
             match type of H with
             | task_at q j k = Some _ => apply (task_at_on_task q j k g) in H
             end
         end.

(** X22.  [updateTaskStatus] on a task that is found never returns the
    task.  It writes the status and the stamps into the task, stamps
    [updatedAt] of the project with the reading of the clock that follows
    those of the task's stamps, changes nothing else of the project
    object, and calls the handlers of the task event; then the cascade
    looks the project up again, finds the [ProjectBase] that
    [updateProject] has just put into [progressData.projects], and throws
    a [TypeError].  The statuses of the milestones and of the project are
    not recomputed: they are as before the call. *)
Theorem updateTaskStatus_stops_before_the_statuses :
  forall (w : World) (pd : ProgressData) (pid mid tid : string) (new_status : Status)
         (l : loc) (p : Project) (ms : list Milestone)
         (j : nat) (m : Milestone) (k : nat) (t : Task),
    progressData (storage w) = Some pd ->
    allocated w (projects pd) ->
    List.find (has_projectId (heap w) pid) (projects pd) = Some l ->
    heap w !! l = Some p ->
    milestones p = Some ms ->
    findi (has_milestoneId mid) ms = Some (j, m) ->
    findi (has_taskId tid) (tasks m) = Some (k, t) ->
    exists w' p' b,
      updateTaskStatus pid mid tid new_status w = (Throw TypeError, w')
      /\ heap w' !! l = Some p'
      /\ p' = set_updatedAt
                (isoStringAt (stamp_readings (status t) new_status + clock w))
                (on_task j k (fun _ => stamped (clock w) new_status t) p)
      /\ updatedAt p'
         = isoStringAt (stamp_readings (status t) new_status + clock w)
      /\ task_at p' j k = Some (stamped (clock w) new_status t)
      /\ statuses p' = statuses p
      /\ invoked w'
         = invoked w
           ++ Emitter.invocations (events w) (eventName (task_event new_status))
                (TaskData (task_event new_status)
                   (stamped (clock w) new_status t) pid)
      /\ console w' = console w
      /\ b <> l
      /\ getProject pid w' = (Ok (Some b), w').
Proof.
  intros w pd pid mid tid s l p ms j m k t Hpd Hall Hfind Hl Hms Hj Hk.
  destruct (findi_lookup _ _ _ _ Hj) as [Hmj _].
  destruct (findi_lookup _ _ _ _ Hk) as [Htk _].
  assert (H0 : task_at p j k = Some t).
  { unfold task_at, milestone_at. by rewrite Hms, Hmj. }
  unfold updateTaskStatus.
  rewrite (bind_getProgressData _ _ _ Hpd), bind_get, Hfind.
  rewrite (bind_deref _ _ _ _ Hl), Hms, Hj, Hk.
  rewrite first_task_step.
  destruct (Status_eqb (status t) NOT_STARTED && Status_eqb s IN_PROGRESS) eqn:Hstart;
    destruct (Status_eqb s COMPLETED) eqn:Hdone;
    [ rewrite bind_assoc, step_clock, step_task,
        bind_assoc, step_clock, bind_assoc, step_task, step_task
    | rewrite bind_assoc, step_clock, step_task, bind_ret
    | rewrite bind_ret, bind_assoc, step_clock, bind_assoc, step_task, step_task
    | rewrite !bind_ret ];
    match goal with
    | |- context [changed ?n ?F l w] =>
        assert (Ht : task_at (F p) j k = Some (stamped (clock w) s t))
          by (unfold stamped; rewrite Hstart, Hdone; simpl; push_task H0; exact H0);
        assert (HF : forall q, statuses (F q) = statuses q)
          by (intros q; simpl; by rewrite ?statuses_on_task);
        assert (HFp : F p = on_task j k (fun _ => stamped (clock w) s t) p)
          by (cbn [compose];
              rewrite ?on_task_on_task, (on_task_const p j k _ t H0);
              unfold stamped; rewrite Hstart, Hdone; reflexivity);
        assert (Hn : n = stamp_readings (status t) s)
          by (unfold stamp_readings; rewrite Hstart, Hdone; reflexivity);
        destruct (cascade_stops w pd pid mid l p j k s n F
                    (stamped (clock w) s t) Hpd Hall Hfind Hl)
          as (w' & b & E & Hl' & Hinv & Hcon & Hne & Hget); [done|exact Ht|];
        rewrite Hdone in E;
        exists w', (set_updatedAt (isoStringAt (n + clock w)) (F p)), b;
        split; [exact E|]; split; [exact Hl'|];
        split; [rewrite HFp; unfold stamp_readings; by rewrite Hstart, Hdone|];
        split; [unfold stamp_readings; by rewrite Hstart, Hdone|];
        split; [exact Ht|]; split; [exact (HF p)|];
        split; [exact Hinv|]; split; [exact Hcon|]; split; [exact Hne|exact Hget]
    end.
Qed.

End ManagerLookups.

(** ** [updateMilestoneStatus] on a milestone that has tasks *)

Section MilestoneCascade.
Import Progress Views Manager.
Context `{Platform}.

Lemma first_milestone_step {A} (K : unit -> M World A) (l : loc) (j : nat)
    (g : Milestone -> Milestone) (w : World) :
  bind (modify_milestone l j g) K w = K tt (changed 0 (on_milestone j g) l w).
Proof. by rewrite bind_modify_milestone. Qed.

Lemma step_milestone {A} (K : unit -> M World A) (l : loc) (j : nat)
    (g : Milestone -> Milestone) (n : nat) (F : Project -> Project) (w : World) :
  bind (modify_milestone l j g) K (changed n F l w)
  = K tt (changed n (on_milestone j g ∘ F) l w).
Proof. rewrite bind_modify_milestone. by rewrite <- changed_changed. Qed.

Lemma milestone_at_on_milestone (p : Project) (j : nat) (g : Milestone -> Milestone)
    (m : Milestone) :
  milestone_at p j = Some m -> milestone_at (on_milestone j g p) j = Some (g m).
Proof.
  unfold milestone_at, on_milestone. simpl.
  destruct (milestones p) as [ms|]; [|done]. simpl.
  rewrite list_lookup_alter_eq. by intros ->.
Qed.

Lemma on_milestone_on_milestone (p : Project) (j : nat) (g1 g2 : Milestone -> Milestone) :
  on_milestone j g2 (on_milestone j g1 p) = on_milestone j (g2 ∘ g1) p.
Proof.
  unfold on_milestone. destruct p as [? ? ? ? ? ? [ms|]]; simpl; [|done].
  unfold set_milestones. simpl. do 2 f_equal. apply list_alter_alter_eq.
Qed.

Lemma on_milestone_const (p : Project) (j : nat) (g : Milestone -> Milestone)
    (m : Milestone) :
  milestone_at p j = Some m -> on_milestone j g p = on_milestone j (fun _ => g m) p.
Proof.
  unfold milestone_at, on_milestone.
  destruct p as [? ? ? ? ? ? [ms|]]; simpl; [|done].
  intros Hm. unfold set_milestones. simpl. do 2 f_equal.
  apply list_alter_ext; [|done]. intros x Hx. congruence.
Qed.

Lemma heap_changed (w : World) (l : loc) (p : Project) (n : nat)
    (F : Project -> Project) :
  heap w !! l = Some p -> heap (changed n F l w) !! l = Some (F p).
Proof. intros Hl. unfold changed. simpl. by rewrite lookup_alter_eq, Hl. Qed.

Lemma milestone_cascade_stops (w : World) (pd : ProgressData) (pid : string) (l : loc)
    (p : Project) (j : nat) (n : nat) (F : Project -> Project) (m1 : Milestone) :
  progressData (storage w) = Some pd ->
  allocated w (projects pd) ->
  List.find (has_projectId (heap w) pid) (projects pd) = Some l ->
  heap w !! l = Some p ->
  (forall q, projectId (F q) = projectId q) ->
  milestone_at (F p) j = Some m1 ->
  exists w' b,
    (updateProject l ;;
     save ;;
     let* m := read_milestone l j in
     emitM MILESTONE_UPDATED (MilestoneData MILESTONE_UPDATED m pid) ;;
     updateProjectStatus pid ;;
     let* m' := read_milestone l j in
     ret (Some m')) (changed n F l w)
    = (Throw TypeError, w')
    /\ heap w' !! l = Some (F p)
    /\ invoked w'
       = invoked w
         ++ Emitter.invocations (events w) (eventName MILESTONE_UPDATED)
              (MilestoneData MILESTONE_UPDATED m1 pid)
    /\ console w' = console w
    /\ b <> l
    /\ getProject pid w' = (Ok (Some b), w').
Proof.
  intros Hpd Hall Hfind Hl HF Hm.
  destruct (changed_then_detached w pd pid l p F n Hpd Hall Hfind Hl HF)
    as (w' & b & pd' & E & Hne & Hb & Hh & Hpd' & Hfind' & _ & _ & Hev & Hinv & _ & Hcon).
  assert (Hl' : heap w' !! l = Some (F p)).
  { rewrite Hh, lookup_insert_ne, lookup_alter_eq, Hl; done. }
  assert (Hbq : heap w' !! b = Some (projectBase (F p))).
  { rewrite Hh. apply lookup_insert_eq. }
  set (w'' := with_invoked
                (fun log => log ++ Emitter.invocations (events w')
                                     (eventName MILESTONE_UPDATED)
                                     (MilestoneData MILESTONE_UPDATED m1 pid)) w').
  destruct (lookups_on_projectBase w'' pd' pid b _ Hpd' Hfind' Hbq eq_refl)
    as (Hget & _ & _ & _ & _ & _ & _ & Hups).
  exists w'', b. split.
  { unfold changed at 1. rewrite (run_bind_ok _ _ _ _ _ E), bind_save.
    rewrite (bind_read_milestone _ _ _ _ _ _ Hl' Hm), bind_emitM.
    fold w''. by rewrite (run_bind_throw _ _ _ _ _ Hups). }
  change (heap w'') with (heap w'). split; [exact Hl'|].
  split; [simpl; by rewrite Hinv, Hev|]. split; [exact Hcon|].
  split; [exact Hne|exact Hget].
Qed.

(** X25.  [updateMilestoneStatus] on a milestone that is found and has
    tasks never returns the milestone.  It writes the status that the
    precedence rule gives for the tasks, stamps [completedDate] when that
    status is Completed and leaves an earlier [completedDate] in place
    otherwise, changes nothing else of the project object ([updatedAt]
    is not assigned), and calls the handlers of [MILESTONE_COMPLETED] (when
    Completed) and of [MILESTONE_UPDATED]; then [updateProjectStatus]
    finds the [ProjectBase] that [updateProject] has just stored and throws
    a [TypeError], so the status of the project is not recomputed. *)
Theorem updateMilestoneStatus_stops_before_the_project :
  forall (w : World) (pd : ProgressData) (pid mid : string) (l : loc) (p : Project)
         (ms : list Milestone) (j : nat) (m : Milestone),
    progressData (storage w) = Some pd ->
    allocated w (projects pd) ->
    List.find (has_projectId (heap w) pid) (projects pd) = Some l ->
    heap w !! l = Some p ->
    milestones p = Some ms ->
    findi (has_milestoneId mid) ms = Some (j, m) ->
    tasks m <> [] ->
    exists w' p' m' b,
      updateMilestoneStatus pid mid w = (Throw TypeError, w')
      /\ heap w' !! l = Some p'
      /\ milestone_at p' j = Some m'
      /\ m' = milestone_written (clock w) m
      /\ p' = on_milestone j (fun _ => m') p
      /\ updatedAt p' = updatedAt p
      /\ milestoneStatus m' = Spec.precedence (map status (tasks m))
      /\ completedDate m'
         = (if Status_eqb (milestoneStatus m') COMPLETED
            then Some (isoStringAt (clock w)) else completedDate m)
      /\ tasks m' = tasks m
      /\ projectStatus p' = projectStatus p
      /\ invoked w' = invoked w ++ milestone_calls (events w) m' pid
      /\ console w' = console w
      /\ b <> l
      /\ getProject pid w' = (Ok (Some b), w').
Proof.
  intros w pd pid mid l p ms j m Hpd Hall Hfind Hl Hms Hj Hne.
  destruct (findi_lookup _ _ _ _ Hj) as [Hmj _].
  assert (H0 : milestone_at p j = Some m).
  { unfold milestone_at. by rewrite Hms. }
  assert (Hlen : Nat.eqb (length (tasks m)) 0 = false).
  { apply Nat.eqb_neq. by destruct (tasks m). }
  assert (Hwritten :
            milestoneStatus (milestone_written (clock w) m)
              = Spec.precedence (map status (tasks m))
            /\ completedDate (milestone_written (clock w) m)
               = (if Status_eqb (milestoneStatus (milestone_written (clock w) m)) COMPLETED
                  then Some (isoStringAt (clock w)) else completedDate m)
            /\ tasks (milestone_written (clock w) m) = tasks m).
  { rewrite precedence_tasks, Hlen. unfold milestone_written.
    destruct (forallb (is_status COMPLETED) (tasks m)); [done|].
    destruct (existsb (is_status IN_PROGRESS) (tasks m)); [done|].
    by destruct (existsb (is_status BLOCKED) (tasks m)). }
  destruct Hwritten as (Hst & Hcd & Hts).
  unfold updateMilestoneStatus.
  rewrite (bind_getProgressData _ _ _ Hpd), bind_get, Hfind.
  rewrite (bind_deref _ _ _ _ Hl), Hms, Hj, Hlen.
  unfold milestone_calls. revert Hst Hcd Hts. unfold milestone_written.
  destruct (forallb (is_status COMPLETED) (tasks m)) eqn:Hall_done.
  - intros Hst Hcd Hts.
    rewrite !bind_assoc, first_milestone_step, bind_assoc, step_clock, bind_assoc,
      step_milestone.
    match goal with
    | |- context [changed ?n ?F l w] =>
        assert (Hm1 : milestone_at (F p) j
                      = Some (set_completedDate (isoStringAt (clock w))
                                (set_milestoneStatus COMPLETED m)))
          by (simpl; by do 2 apply milestone_at_on_milestone);
        rewrite ?bind_assoc;
        rewrite (bind_read_milestone _ _ _ _ _ _ (heap_changed w l p n F Hl) Hm1);
        rewrite bind_emitM;
        match goal with
        | |- context [with_invoked ?f (changed n F l w)] =>
            change (with_invoked f (changed n F l w))
              with (changed n F l (with_invoked f w));
            destruct (milestone_cascade_stops (with_invoked f w) pd pid l p j n F _
                        Hpd Hall Hfind Hl ltac:(done) Hm1)
              as (w' & b & E & Hl' & Hinv & Hcon & Hneq & Hget)
        end
    end.
    assert (HFp : forall q, milestone_at q j = Some m ->
                    (on_milestone j (set_completedDate (isoStringAt (0 + clock w)))
                       ∘ on_milestone j (set_milestoneStatus COMPLETED)) q
                    = on_milestone j
                        (fun _ => set_completedDate (isoStringAt (clock w))
                                    (set_milestoneStatus COMPLETED m)) q).
    { intros q Hq. cbn [compose].
      by rewrite on_milestone_on_milestone, (on_milestone_const q j _ m Hq). }
    eexists w', _, _, b. split; [exact E|]. split; [exact Hl'|].
    split; [exact Hm1|]. split; [done|].
    split; [exact (HFp p H0)|]. split; [by rewrite (HFp p H0)|].
    split; [exact Hst|]. split; [exact Hcd|].
    split; [done|]. split; [done|].
    split; [rewrite Hinv; simpl; by rewrite <- app_assoc|].
    split; [exact Hcon|]. split; [exact Hneq|exact Hget].
  - destruct (existsb (is_status IN_PROGRESS) (tasks m)) eqn:Hany;
      [|destruct (existsb (is_status BLOCKED) (tasks m)) eqn:Hblocked];
      intros Hst Hcd Hts;
      rewrite first_milestone_step;
      match goal with
      | |- context [changed ?n ?F l w] =>
          match type of Hst with
          | milestoneStatus ?m1 = _ =>
              assert (Hm1 : milestone_at (F p) j = Some m1)
                by (by apply milestone_at_on_milestone);
              destruct (milestone_cascade_stops w pd pid l p j n F m1
                          Hpd Hall Hfind Hl ltac:(done) Hm1)
                as (w' & b & E & Hl' & Hinv & Hcon & Hneq & Hget);
              (eexists w', _, m1, b; split; [exact E|]; split; [exact Hl'|];
               split; [exact Hm1|]; split; [done|];
               split; [exact (on_milestone_const p j _ m H0)|];
               split; [by rewrite (on_milestone_const p j _ m H0)|];
               split; [exact Hst|];
               split; [exact Hcd|]; split; [done|]; split; [done|];
               split; [exact Hinv|]; split; [exact Hcon|];
               split; [exact Hneq|exact Hget])
          end
      end.
Qed.

End MilestoneCascade.

(** ** The statistics and the identifier maps of the storage *)

Section StorageMaps.
Import Progress Views Manager.
Context `{Platform}.

Lemma recomputed_twice (st : Statistics) (ts : list Task) :
  recomputed (recomputed st ts) ts = recomputed st ts.
Proof.
  unfold recomputed. simpl.
  by destruct ((0 <? Z.of_nat (length (Spec.completed ts)))%Z
               && gt0 (Spec.total_hours ts)).
Qed.

(** X23.  [updateStatistics] is idempotent on the progress data: the
    statistics are computed from the tasks alone, apart from
    [averagePointsPerHour], which is kept when there is nothing to compute
    it from; so a second call in a row leaves the progress data and the
    project objects exactly as the first call left them. *)
Theorem updateStatistics_twice :
  forall (w : World) (ts : list Task),
    Spec.all_tasks (heap w) (projects (Spec.current_data w)) = Some ts ->
    exists w' w'',
      updateStatistics w = (Ok tt, w')
      /\ updateStatistics w' = (Ok tt, w'')
      /\ progressData (storage w'') = progressData (storage w')
      /\ heap w'' = heap w'
      /\ statistics (Spec.current_data w')
         = recomputed (statistics (Spec.current_data w)) ts.
Proof.
  intros w ts Hall.
  destruct (updateStatistics_recomputes w ts Hall) as (w' & E & Hh & Hpd).
  assert (Hcur : Spec.current_data w'
                 = with_statistics (fun st => recomputed st ts) (Spec.current_data w)).
  { unfold Spec.current_data at 1. by rewrite Hpd. }
  assert (Hall' : Spec.all_tasks (heap w') (projects (Spec.current_data w')) = Some ts).
  { by rewrite Hh, Hcur. }
  destruct (updateStatistics_recomputes w' ts Hall') as (w'' & E' & Hh' & Hpd').
  exists w', w''. split; [exact E|]. split; [exact E'|].
  split.
  { rewrite Hpd', Hpd, Hcur. unfold with_statistics. simpl.
    by rewrite recomputed_twice. }
  split; [exact Hh'|]. by rewrite Hcur.
Qed.

Lemma initializeMaps_loop_clears
    (body : string -> loc -> ProgressStorage -> ProgressStorage)
    (st : ProgressStorage) :
  initializeMaps_loop body st = initializeMaps st.
Proof.
  unfold initializeMaps_loop, initializeMaps. simpl.
  destruct (progressData st) as [pd|]; [|done].
  induction (projectIds pd) as [|projectId ids IH]; simpl; [done|].
  by rewrite lookup_empty.
Qed.

Lemma updateStatistics_clears_maps (w w' : World) :
  updateStatistics w = (Ok tt, w') ->
  projectMap (storage w') = ∅
  /\ milestoneMap (storage w') = ∅
  /\ taskMap (storage w') = ∅.
Proof.
  unfold updateStatistics.
  match goal with
  | |- context [bind (if _ then _ else _) (fun _ => ?c)] => set (tail := c)
  end.
  assert (Htail : forall w1 r w2,
             tail w1 = (r, w2) ->
             projectMap (storage w2) = ∅
             /\ milestoneMap (storage w2) = ∅
             /\ taskMap (storage w2) = ∅).
  { intros w1 r w2. unfold tail, getProgressData, setProgressData, save, emitM,
      bind, modify, ret.
    destruct (progressData (storage w1)); simpl; intros [= <- <-]; done. }
  unfold bind at 1. destruct (getProgressData w) as [[pd|e] w0]; [|done].
  unfold bind at 1. destruct (for_tasks _ _ _ w0) as [[c|e] w1]; [|done].
  rewrite bind_modify_statistics. unfold bind at 1.
  match goal with
  | |- context [(if ?b then ?x else ?y) ?s] =>
      destruct ((if b then x else y) s) as [[[]|e] w2]; [|done]
  end.
  apply Htail.
Qed.

(** X24.  [initializeMaps] never fills the maps: it clears [projectMap]
    and then looks every project identifier up in that same map, so the
    body of its loop does not run, whatever it would do.  Hence after
    [setProgressData], and after [updateStatistics], which calls it,
    [getProjectById], [getMilestoneById] and [getTaskById] return
    [undefined] for every identifier. *)
Theorem initializeMaps_leaves_the_maps_empty :
  (forall body st, initializeMaps_loop body st = initializeMaps st)
  /\ (forall (w : World) (pd : ProgressData) (id : string),
        fst ((setProgressData pd ;; getProjectById id) w) = Ok None
        /\ fst ((setProgressData pd ;; getMilestoneById id) w) = Ok None
        /\ fst ((setProgressData pd ;; getTaskById id) w) = Ok None)
  /\ (forall (w : World) (ts : list Task) (id : string),
        Spec.all_tasks (heap w) (projects (Spec.current_data w)) = Some ts ->
        fst ((updateStatistics ;; getProjectById id) w) = Ok None
        /\ fst ((updateStatistics ;; getMilestoneById id) w) = Ok None
        /\ fst ((updateStatistics ;; getTaskById id) w) = Ok None).
Proof.
  split; [exact initializeMaps_loop_clears|]. split.
  - intros w pd id. unfold setProgressData, getProjectById, getMilestoneById,
      getTaskById. rewrite !bind_modify, !bind_get. simpl.
    by rewrite !lookup_empty.
  - intros w ts id Hall.
    destruct (updateStatistics_recomputes w ts Hall) as (w' & E & _ & _).
    destruct (updateStatistics_clears_maps w w' E) as (Hp & Hm & Ht).
    rewrite !(run_bind_ok _ _ _ _ _ E).
    unfold getProjectById, getMilestoneById, getTaskById. rewrite !bind_get. simpl.
    by rewrite Hp, Hm, Ht, !lookup_empty.
Qed.

End StorageMaps.

Section ManagerInstances.
#[local] Existing Instance Demo.platform.

Lemma new_task_world_allocated :
  Views.allocated Demo.new_task_world [1%positive].
Proof. repeat constructor. by eexists. Qed.


Lemma unknown_milestone_or_task_is_reported_witness :
  findi (Progress.has_taskId "t9") [Demo.task "t1" Progress.NOT_STARTED 2]
    = None
  /\ Progress.updateTaskStatus "p1" "m1" "t9" Progress.COMPLETED Demo.new_task_world
     = (Ok None,
        Progress.with_console (fun c => c ++ [Progress.TaskNotFound "t9"])
          Demo.new_task_world).
Proof.
  split; [reflexivity|].
  destruct (unknown_milestone_or_task_is_reported Demo.new_task_world _ "p1"
              1%positive _ _ eq_refl eq_refl eq_refl eq_refl) as [_ Htask].
  destruct (Htask "m1"%string 0 _ "t9"%string eq_refl eq_refl) as (Hu & _).
  apply Hu.
Defined.

Lemma created_project_has_no_milestones_array_witness :
  List.find (Progress.has_projectId (Progress.heap Demo.new_task_world) "p2")
    (Progress.projects (Spec.current_data Demo.new_task_world)) = None
  /\ exists l b w',
       Manager.createProject "p2" "second" None Demo.new_task_world = (Ok l, w')
       /\ Manager.getProject "p2" w' = (Ok (Some b), w')
       /\ b <> l
       /\ Manager.addMilestone "m2" "p2" "first" None None w' = (Throw TypeError, w').
Proof.
  split; [reflexivity|].
  destruct (created_project_has_no_milestones_array Demo.new_task_world
              "p2" "second" None new_task_world_allocated eq_refl)
    as (l & b & w' & E & Hne & _ & _ & Hget & _ & _ & Ham & _).
  exists l, b, w'. split; [exact E|]. split; [exact Hget|]. split; [exact Hne|].
  apply Ham.
Defined.

Lemma addTask_appends_the_task_witness :
  findi (Progress.has_milestoneId "m1")
    [Demo.milestone "m1" Progress.NOT_STARTED [Demo.task "t1" Progress.NOT_STARTED 2]]
    = Some (0, Demo.milestone "m1" Progress.NOT_STARTED
                 [Demo.task "t1" Progress.NOT_STARTED 2])
  /\ exists w',
       Manager.addTask "t2" "p1" "m1" "task" None None None Demo.new_task_world
         = (Ok (Some (Demo.task "t2" Progress.NOT_STARTED 1)), w')
       /\ Manager.getTask "p1" "m1" "t2" w' = (Throw TypeError, w').
Proof.
  split; [reflexivity|].
  destruct (addTask_appends_the_task Demo.new_task_world _ "p1" "m1" 1%positive
              _ _ 0 _ "t2" "task" None None None
              eq_refl new_task_world_allocated eq_refl eq_refl eq_refl eq_refl)
    as (w' & b & E & _ & _ & _ & _ & _ & _ & _ & Hgt).
  exists w'. split; [exact E|exact Hgt].
Defined.

Lemma addMilestone_appends_the_milestone_witness :
  Progress.heap Demo.new_task_world !! 1%positive
    = Some (Demo.project "p1" Progress.NOT_STARTED
              [Demo.milestone "m1" Progress.NOT_STARTED
                 [Demo.task "t1" Progress.NOT_STARTED 2]])
  /\ exists w',
       Manager.addMilestone "m2" "p1" "second" None None Demo.new_task_world
         = (Ok (Some (Progress.mkMilestone "m2" Progress.NOT_STARTED "second"
                        None None None [])), w')
       /\ Manager.getMilestone "p1" "m2" w' = (Throw TypeError, w').
Proof.
  split; [reflexivity|].
  destruct (addMilestone_appends_the_milestone Demo.new_task_world _ "p1" 1%positive
              _ _ "m2" "second" None None
              eq_refl new_task_world_allocated eq_refl eq_refl eq_refl)
    as (w' & b & E & _ & _ & _ & _ & _ & Hgm & _).
  exists w'. split; [exact E|exact Hgm].
Defined.

Lemma updateTaskStatus_stops_before_the_statuses_witness :
  findi (Progress.has_taskId "t1") [Demo.task "t1" Progress.NOT_STARTED 2]
    = Some (0, Demo.task "t1" Progress.NOT_STARTED 2)
  /\ exists w' p',
       Progress.updateTaskStatus "p1" "m1" "t1" Progress.COMPLETED Demo.new_task_world
         = (Throw TypeError, w')
       /\ Progress.heap w' !! 1%positive = Some p'
       /\ Progress.updatedAt p' = isoStringAt 1
       /\ Progress.status <$> Progress.task_at p' 0 0 = Some Progress.COMPLETED
       /\ Views.statuses p' = (Progress.NOT_STARTED, Some [Progress.NOT_STARTED]).
Proof.
  split; [reflexivity|].
  destruct (updateTaskStatus_stops_before_the_statuses Demo.new_task_world _
              "p1" "m1" "t1" Progress.COMPLETED 1%positive _ _ 0 _ 0 _
              eq_refl new_task_world_allocated eq_refl eq_refl eq_refl eq_refl eq_refl)
    as (w' & p' & b & E & Hp' & _ & Hu & Ht & Hs & _).
  exists w', p'. split; [exact E|]. split; [exact Hp'|]. split; [exact Hu|].
  split; [by rewrite Ht|exact Hs].
Defined.

Lemma updateStatistics_twice_witness :
  Spec.all_tasks (Progress.heap Demo.done_world)
    (Progress.projects (Spec.current_data Demo.done_world)) = Some Demo.done_tasks
  /\ exists w' w'',
       Progress.updateStatistics Demo.done_world = (Ok tt, w')
       /\ Progress.updateStatistics w' = (Ok tt, w'')
       /\ Progress.progressData (Progress.storage w'')
          = Progress.progressData (Progress.storage w').
Proof.
  split; [reflexivity|].
  destruct (updateStatistics_twice Demo.done_world Demo.done_tasks eq_refl)
    as (w' & w'' & E & E' & Hpd & _).
  exists w', w''. split; [exact E|]. split; [exact E'|exact Hpd].
Defined.

Lemma initializeMaps_leaves_the_maps_empty_witness :
  Spec.all_tasks (Progress.heap Demo.done_world)
    (Progress.projects (Spec.current_data Demo.done_world)) = Some Demo.done_tasks
  /\ fst ((Progress.updateStatistics ;; Manager.getProjectById "p1") Demo.done_world)
     = Ok None.
Proof.
  split; [reflexivity|].
  destruct (@initializeMaps_leaves_the_maps_empty Demo.platform) as (_ & _ & Hstats).
  destruct (Hstats Demo.done_world Demo.done_tasks "p1"%string eq_refl) as [Hp _].
  exact Hp.
Defined.

Lemma mixed_world_allocated :
  Views.allocated Demo.mixed_world [1%positive].
Proof. repeat constructor. by eexists. Qed.

Lemma updateMilestoneStatus_stops_before_the_project_witness :
  Demo.mixed_tasks <> []
  /\ exists w' p' m',
       Progress.updateMilestoneStatus "p1" "m1" Demo.mixed_world = (Throw TypeError, w')
       /\ Progress.heap w' !! 1%positive = Some p'
       /\ Progress.milestone_at p' 0 = Some m'
       /\ Progress.milestoneStatus m' = Progress.IN_PROGRESS
       /\ Progress.updatedAt p' = "T0"%string
       /\ Progress.projectStatus p' = Progress.NOT_STARTED.
Proof.
  split; [discriminate|].
  destruct (updateMilestoneStatus_stops_before_the_project Demo.mixed_world _
              "p1" "m1" 1%positive _ _ 0 _
              eq_refl mixed_world_allocated eq_refl eq_refl eq_refl eq_refl)
    as (w' & p' & m' & b & E & Hp' & Hm' & _ & _ & Hu & Hst & _ & _ & Hps & _);
    [discriminate|].
  exists w', p', m'. split; [exact E|]. split; [exact Hp'|]. split; [exact Hm'|].
  split; [exact Hst|]. split; [exact Hu|exact Hps].
Defined.

End ManagerInstances.
